(** * MBTA demo backend: shape resolution, snapshot cache, route aggregation

    A shallow embedding of

      - [backend/app/services/cache_manager.py]
        ([is_cache_valid], [save_to_cache], [load_from_cache]), and
      - [backend/app/services/mbta_client.py]
        ([MBTAClient.get_shapes_for_route],
         [MBTAClient.get_all_shapes_for_routes]),

    together with the properties the specification states about them. *)

From Stdlib Require Import QArith Ascii.
From Stdlib Require Import Floats.SpecFloat.
From stdpp Require Import gmap strings list sorting pretty.

Local Open Scope string_scope.
Local Open Scope nat_scope.
Local Open Scope list_scope.

(** ** Python values that travel through JSON *)

(** The values [json.load] can return and [json.dump] can write without
    changing them: [None], booleans, integers, strings, lists and dicts
    with string keys.  A dict is kept as its item list, in insertion
    order.  These are the documents a cache file holds; what the
    application hands to [json.dump] can be more ([PyObj] below). *)
#[local] Unset Elimination Schemes.
Inductive PyVal : Type :=
  | PyNone
  | PyBool (b : bool)
  | PyInt (z : Z)
  | PyStr (s : string)
  | PyList (l : list PyVal)
  | PyDict (d : list (string * PyVal)).
#[local] Set Elimination Schemes.

(** [d.get(k)] on an item list. *)
Fixpoint items_get (d : list (string * PyVal)) (k : string) : option PyVal :=
  match d with
  | [] => None
  | (k', v) :: d' => if String.eqb k' k then Some v else items_get d' k
  end.

(** ** Shape records *)

(** One element of the ["data"] array of the upstream [/shapes] response.
    Both keys the code reads may be missing: [id] is read with
    [shape.get("id", "")] and [attributes] with
    [shape.get("attributes", {})]. *)
Record Shape : Type := mkShape {
  id : option string;
  attributes : option (gmap string string)
}.

Global Instance Shape_eq_dec : EqDecision Shape.
Proof. solve_decision. Defined.

(** [shape.get("id", "")] *)
Definition get_id (s : Shape) : string := default "" (id s).

(** [shape.get("attributes", {}).get("polyline", "")] *)
Definition get_polyline (s : Shape) : string :=
  default "" (default ∅ (attributes s) !! "polyline").

(** [len(polyline)] of a shape. *)
Definition polyline_len (s : Shape) : nat := String.length (get_polyline s).

(** [shape_id.startswith("canonical-")] *)
Definition is_canonical_id (shape_id : string) : bool :=
  String.prefix "canonical-" shape_id.

Definition is_canonical (s : Shape) : bool := is_canonical_id (get_id s).

(** [s.replace(old, "")] for a non-empty [old]: every non-overlapping
    occurrence of [old], scanning from the left, is removed.  [skip]
    counts the characters of a matched occurrence still to be dropped. *)
Fixpoint str_remove_go (old : string) (skip : nat) (s : string) : string :=
  match s with
  | EmptyString => EmptyString
  | String c s' =>
      match skip with
      | S k => str_remove_go old k s'
      | O =>
          if String.prefix old s
          then str_remove_go old (String.length old - 1) s'
          else String c (str_remove_go old 0 s')
      end
  end.

Definition str_remove (old s : string) : string := str_remove_go old 0 s.

(** The key of the final deduplication (lines 401-408). *)
Definition dedup_id (s : Shape) : string :=
  let shape_id := get_id s in
  if is_canonical_id shape_id
  then str_remove "canonical-" shape_id
  else shape_id.

(** The loop shared by both deduplications: a shape is appended unless
    its key is already in [seen_ids]. *)
Fixpoint dedup_loop (key : Shape → string) (seen_ids : gset string)
    (shapes : list Shape) : list Shape :=
  match shapes with
  | [] => []
  | shape :: rest =>
      if decide (key shape ∈ seen_ids)
      then dedup_loop key seen_ids rest
      else shape :: dedup_loop key ({[key shape]} ∪ seen_ids) rest
  end.

(** Lines 347-354. *)
Definition dedup_exact (shapes : list Shape) : list Shape :=
  dedup_loop get_id ∅ shapes.

(** Lines 398-411. *)
Definition dedup_stripped (shapes : list Shape) : list Shape :=
  dedup_loop dedup_id ∅ shapes.

(** [shape["attributes"]["_route_id"] = route_id], creating
    [attributes] when the key is missing. *)
Definition stamp (route_id : string) (s : Shape) : Shape :=
  {| id := id s;
     attributes := Some (<["_route_id" := route_id]> (default ∅ (attributes s))) |}.

(** [shapes_with_length.sort(key=lambda x: x[0], reverse=True)]: Python's
    sort is stable, also with [reverse=True], so elements of equal length
    keep their order. *)
Fixpoint insert_desc {A : Type} (x : nat * A) (l : list (nat * A))
  : list (nat * A) :=
  match l with
  | [] => [x]
  | y :: l' => if x.1 <? y.1 then y :: insert_desc x l' else x :: l
  end.

Definition sort_desc {A : Type} (l : list (nat * A)) : list (nat * A) :=
  foldr insert_desc [] l.

(** The order the sort establishes: lengths do not increase. *)
Definition ge_length {A : Type} (x y : nat * A) : Prop := y.1 ≤ x.1.

(** [bool(xs)] of a list. *)
Definition truthy {A : Type} (l : list A) : bool :=
  match l with [] => false | _ => true end.

(** Lines 371-375: only shapes with a non-empty polyline are ranked. *)
Definition with_nonempty_length (shapes : list Shape) : list (nat * Shape) :=
  omap (λ s, let polyline := get_polyline s in
             if String.eqb polyline "" then None
             else Some (String.length polyline, s)) shapes.

(** Lines 421-424. *)
Definition with_length (shapes : list Shape) : list (nat * Shape) :=
  (λ s, (polyline_len s, s)) <$> shapes.

(** Lines 369-393. *)
Definition fallback (is_red_line : bool) (all_shapes canonical_shapes : list Shape)
  : list Shape :=
  if ((2 <? length canonical_shapes) && negb is_red_line)
     || negb (truthy canonical_shapes)
  then
    let shapes_with_length := sort_desc (with_nonempty_length all_shapes) in
    if truthy shapes_with_length then
      if truthy canonical_shapes then
        let canonical_ids : gset (option string) :=
          list_to_set (id <$> canonical_shapes) in
        let longest_non_canonical :=
          filter (λ s, id s ∉ canonical_ids) (snd <$> shapes_with_length) in
        match longest_non_canonical with
        | s :: _ => canonical_shapes ++ [s]
        | [] => canonical_shapes
        end
      else
        let max_shapes := Nat.min 2 (length shapes_with_length) in
        snd <$> take max_shapes shapes_with_length
    else canonical_shapes
  else canonical_shapes.

(** [(max_length - min_length) / max_length if max_length > 0 else 0].
    Python divides the two integers exactly and rounds the quotient once;
    the literal [0.15] is the rounding of 3/20.  Rounding is monotone, so
    for every pair of lengths below 2^50 the comparison [>= 0.15] on
    floats and on the exact quotients agree; the quotient is kept exact
    here, and [Float64] below evaluates the same test on binary64. *)
Definition length_diff_ratio (max_length min_length : nat) : Q :=
  if 0 <? max_length
  then inject_Z (Z.of_nat max_length - Z.of_nat min_length)
       / inject_Z (Z.of_nat max_length)
  else 0%Q.

(** The same test as Python evaluates it, on IEEE 754 binary64. *)
Module Float64.

Definition prec : Z := 53.
Definition emax : Z := 1024.

(** [float(n)] for an integer below 2^53. *)
Definition of_nat (n : nat) : spec_float :=
  match Z.of_nat n with
  | Z0 => S754_zero false
  | Zpos p => binary_normalize prec emax (Zpos p) 0 false
  | Zneg p => binary_normalize prec emax (Zneg p) 0 true
  end.

(** The literal [0.15]: 5404319552844595 * 2^-55. *)
Definition threshold : spec_float := S754_finite false 5404319552844595 (-55).

Definition float_ratio (max_length min_length : nat) : spec_float :=
  if 0 <? max_length
  then SFdiv prec emax (of_nat (max_length - min_length)) (of_nat max_length)
  else S754_zero false.

(** [x >= y] *)
Definition ge (x y : spec_float) : bool :=
  match SFcompare x y with
  | Some Gt | Some Eq => true
  | _ => false
  end.

(** The two evaluations agree on every pair of lengths up to [bound]. *)
Definition agrees_up_to (bound : nat) : bool :=
  forallb (λ max_length,
    forallb (λ min_length,
      Bool.eqb (ge (float_ratio max_length min_length) threshold)
               (Qle_bool (15 # 100)
                  (length_diff_ratio max_length min_length)))
      (seq 0 (S max_length)))
    (seq 0 (S bound)).

End Float64.

(** Lines 419-458. *)
Definition branch_or_direction (is_red_line : bool) (canonical_shapes : list Shape)
  : list Shape :=
  if 1 <? length canonical_shapes then
    let shapes_with_length := sort_desc (with_length canonical_shapes) in
    let lengths := fst <$> shapes_with_length in
    if 2 <=? length lengths then
      let max_length := default 0 (head lengths) in
      let min_length := default 0 (last lengths) in
      if is_red_line then snd <$> take 5 shapes_with_length
      else if Qle_bool (15 # 100) (length_diff_ratio max_length min_length)
      then snd <$> take 3 shapes_with_length
      else snd <$> take 1 shapes_with_length
    else snd <$> shapes_with_length
  else canonical_shapes.

(** The filtering of [get_shapes_for_route] (lines 333-466), applied to
    the ["data"] list of the upstream response. *)
Definition resolve (route_id : string) (all_shapes : list Shape) : list Shape :=
  if negb (truthy all_shapes) then []
  else
    let canonical_shapes := filter (λ s, is_canonical s) all_shapes in
    let is_red_line := bool_decide (route_id = "Red") in
    let canonical_shapes :=
      if truthy canonical_shapes then dedup_exact canonical_shapes
      else canonical_shapes in
    if truthy canonical_shapes && is_red_line && (2 <=? length canonical_shapes)
    then stamp route_id <$> canonical_shapes
    else
      let canonical_shapes := fallback is_red_line all_shapes canonical_shapes in
      let final_shapes := dedup_stripped canonical_shapes in
      let canonical_shapes :=
        if truthy final_shapes then final_shapes else canonical_shapes in
      let canonical_shapes := branch_or_direction is_red_line canonical_shapes in
      stamp route_id <$> canonical_shapes.

(** The deduplicated canonical subset: the canonical-prefixed shapes of
    the input after the first deduplication. *)
Definition canonical_subset (all_shapes : list Shape) : list Shape :=
  dedup_exact (filter (λ s, is_canonical s) all_shapes).

(** How many records of a list carry the id [i]. *)
Definition count_id (i : string) (shapes : list Shape) : nat :=
  length (filter (λ s, id s = Some i) shapes).

(** A shape with the given id and polyline, as the upstream sends it. *)
Definition shape_of (shape_id polyline : string) : Shape :=
  {| id := Some shape_id; attributes := Some {[ "polyline" := polyline ]} |}.

(** A polyline of [n] characters. *)
Fixpoint polyline_of_length (n : nat) : string :=
  match n with
  | O => EmptyString
  | S k => String "a"%char (polyline_of_length k)
  end.

(** ** The world the services run in *)

(** Exceptions the modelled calls raise. *)
Inductive PyExc : Type :=
  | OSError
  | JSONDecodeError
  | AttributeError
  | HTTPStatusError
  | TimeoutException
  | ValueError.

(** What [json.load] makes of a file: text that is not JSON, or a
    JSON document, identified with the value it denotes. *)
Inductive FileContents : Type :=
  | NotJson
  | Json (v : PyVal).

Record CacheFile : Type := mkCacheFile {
  st_mtime : Z;
  contents : FileContents
}.

(** Times are microseconds, the resolution of [datetime].  [clock] is
    what [datetime.now()] returns, the naive local time, and [st_mtime]
    is the modification time as [datetime.fromtimestamp] reads it, naive
    local time as well: the age the code computes is the difference of
    the two readings, not the time that has passed.  [files] maps a
    file name inside [CACHE_DIR] to the file; the directory is flat, it
    has no sub-directories (the application makes none). *)
Record World : Type := mkWorld {
  cache_dir_ok : bool;
  files : gmap string CacheFile;
  clock : Z
}.

(** The local zone: [utcoffset t] is the offset of local time from
    POSIX time at the instant [t]; it changes where daylight saving
    begins or ends.  [local_time] is [datetime.fromtimestamp], and what
    [datetime.now()] returns at the instant [t]. *)
Definition local_time (utcoffset : Z → Z) (t : Z) : Z := (t + utcoffset t)%Z.

(** The world at the instant [t], the directory as it was. *)
Definition at_instant (utcoffset : Z → Z) (t : Z) (w : World) : World :=
  {| cache_dir_ok := cache_dir_ok w; files := files w;
     clock := local_time utcoffset t |}.

(** A computation either raises or returns, and may change the world. *)
Definition IO (A : Type) : Type := World → (PyExc + A) * World.

Global Instance IO_ret : MRet IO := λ A x w, (inr x, w).

Global Instance IO_bind : MBind IO := λ A B k m w,
  match m w with
  | (inl e, w') => (inl e, w')
  | (inr x, w') => k x w'
  end.

Definition raise {A : Type} (e : PyExc) : IO A := λ w, (inl e, w).

(** [try: body / except Exception as e: handler] *)
Definition try_except {A : Type} (body : IO A) (handler : PyExc → IO A) : IO A :=
  λ w, match body w with
       | (inl e, w') => handler e w'
       | (inr x, w') => (inr x, w')
       end.

(** Whether the character [c] occurs in [s]. *)
Fixpoint has_char (c : ascii) (s : string) : bool :=
  match s with
  | EmptyString => false
  | String c' s' => if Ascii.eqb c' c then true else has_char c s'
  end.

(** What [open(cache_file, 'w')] does with a file name before anything
    is written: a name that holds a NUL character is refused with
    [ValueError]; a name with a [/] points into a sub-directory, which
    the flat directory does not have, and a name of more than 255 bytes
    is longer than a file name can be, and both fail with [OSError]. *)
Definition check_file_name (cache_file : string) : PyExc + unit :=
  if has_char Ascii.zero cache_file then inl ValueError
  else if has_char "/"%char cache_file || (255 <? String.length cache_file)
  then inl OSError
  else inr ().

Definition writable_name (cache_file : string) : bool :=
  match check_file_name cache_file with
  | inr _ => true
  | inl _ => false
  end.

(** ** cache_manager.py *)

Module CacheManager.

Definition CACHE_EXPIRY_HOURS : Z := 168.

(** [timedelta(hours=h)] *)
Definition timedelta_hours (h : Z) : Z := (h * 3600 * 1000000)%Z.

(** [CACHE_DIR.mkdir(exist_ok=True)]: raises when the directory is
    neither there nor can be made. *)
Definition ensure_cache_dir : IO unit :=
  λ w, if cache_dir_ok w then (inr (), w) else (inl OSError, w).

(** [CACHE_DIR / f"{cache_key}.json"].  For a key without [/] this is
    the file of that name in the directory.  A key with [/] names a
    path that [pathlib] normalises and that may leave the directory;
    the file name is kept as it is written here, and what is proved
    about single entries is stated for keys without [/]. *)
Definition get_cache_file_path (cache_key : string) : IO string :=
  _ ← ensure_cache_dir;
  mret (cache_key +:+ ".json").

Definition datetime_now : IO Z := λ w, (inr (clock w), w).

Definition is_cache_valid (cache_file : string) : IO bool :=
  λ w, match files w !! cache_file with
       | None => (inr false, w)
       | Some f =>
           let file_time := st_mtime f in
           let age := (clock w - file_time)%Z in
           (inr (age <? timedelta_hours CACHE_EXPIRY_HOURS)%Z, w)
       end.

(** [with open(cache_file, 'w') as f: json.dump(cache_data, f, ...)]:
    [open] fails on a file name it cannot create; otherwise the file is
    replaced as a whole and gets the current time as its modification
    time. *)
Definition write_json (cache_file : string) (cache_data : PyVal) : IO unit :=
  λ w, match check_file_name cache_file with
       | inl e => (inl e, w)
       | inr _ =>
           (inr (),
            {| cache_dir_ok := cache_dir_ok w;
               files := <[cache_file := {| st_mtime := clock w;
                                           contents := Json cache_data |}]> (files w);
               clock := clock w |})
       end.

(** [with open(cache_file, 'r') as f: json.load(f)] *)
Definition read_json (cache_file : string) : IO PyVal :=
  λ w, match files w !! cache_file with
       | None => (inl OSError, w)
       | Some f =>
           match contents f with
           | NotJson => (inl JSONDecodeError, w)
           | Json v => (inr v, w)
           end
       end.

(** [v.get(k)]: only a dict has [get]; a missing key gives [None]. *)
Definition py_get (v : PyVal) (k : string) : IO PyVal :=
  match v with
  | PyDict d => mret (default PyNone (items_get d k))
  | _ => raise AttributeError
  end.

Section WithIsoformat.

(** [datetime.isoformat], on a time in microseconds. *)
Variable isoformat : Z → string.

(** [data] is the JSON value [json.dump] writes; for a payload that is
    not a JSON value see [save_object] below. *)
Definition save_to_cache (cache_key : string) (data : PyVal) : IO bool :=
  try_except
    (cache_file ← get_cache_file_path cache_key;
     now ← datetime_now;
     let cache_data :=
       PyDict [("timestamp", PyStr (isoformat now)); ("data", data)] in
     _ ← write_json cache_file cache_data;
     mret true)
    (λ e, mret false).

End WithIsoformat.

Definition load_from_cache (cache_key : string) : IO PyVal :=
  try_except
    (cache_file ← get_cache_file_path cache_key;
     valid ← is_cache_valid cache_file;
     if negb valid then mret PyNone
     else
       cache_data ← read_json cache_file;
       py_get cache_data "data")
    (λ e, mret PyNone).

End CacheManager.

(** Unfolds the cache operations down to functions on the world. *)
Ltac unfold_io :=
  unfold CacheManager.load_from_cache, CacheManager.save_to_cache,
    CacheManager.get_cache_file_path, CacheManager.ensure_cache_dir,
    CacheManager.is_cache_valid, CacheManager.read_json,
    CacheManager.write_json, CacheManager.datetime_now, CacheManager.py_get,
    try_except, raise, mbind, IO_bind, mret, IO_ret.

(** ** mbta_client.py *)

Module MBTAClient.
Import CacheManager.

(** The dict [{"data": all_shapes, "shape_to_route": shape_to_route}]. *)
Record ShapesResult : Type := mkShapesResult {
  data : list Shape;
  shape_to_route : gmap (option string) string
}.

(** [get_all_shapes_for_routes] returns either what the cache held,
    whatever that is, or the dict it has just built. *)
Inductive ShapesResponse : Type :=
  | Cached (cached_data : PyVal)
  | Computed (result : ShapesResult).

(** The JSON document [json.dump] writes for a computed result; a [None]
    key is written as ["null"]. *)
Definition shape_to_json (s : Shape) : PyVal :=
  PyDict
    (from_option (λ i, [("id", PyStr i)]) [] (id s)
     ++ from_option
          (λ a, [("attributes",
                  PyDict ((λ kv, (kv.1, PyStr kv.2)) <$> map_to_list a))])
          [] (attributes s)).

Definition result_to_json (r : ShapesResult) : PyVal :=
  PyDict [("data", PyList (shape_to_json <$> data r));
          ("shape_to_route",
           PyDict ((λ kv, (default "null" kv.1, PyStr kv.2))
                     <$> map_to_list (shape_to_route r)))].

(** [f"shapes_{'_'.join(sorted(route_ids))}"]; strings compare by code
    point. *)
Definition shapes_cache_key (route_ids : list string) : string :=
  "shapes_" +:+ String.concat "_" (merge_sort String.le route_ids).

(** [asyncio.gather] with [return_exceptions=True]: every task runs,
    and an exception a task raises is returned in its place. *)
Fixpoint gather_return_exceptions {A : Type} (tasks : list (IO A))
  : IO (list (PyExc + A)) :=
  match tasks with
  | [] => mret []
  | task :: rest =>
      λ w, let '(r, w') := task w in
           (rs ← gather_return_exceptions rest; mret (r :: rs)) w'
  end.

(** The body of the inner loop, lines 511-517. *)
Definition add_shape (route_id : string)
    (acc : list Shape * gmap (option string) string) (shape : Shape)
  : list Shape * gmap (option string) string :=
  let shape_id := id shape in
  (acc.1 ++ [stamp route_id shape], <[shape_id := route_id]> acc.2).

(** The body of the outer loop, lines 502-517. *)
Definition process_result (acc : list Shape * gmap (option string) string)
    (item : string * (PyExc + list Shape))
  : list Shape * gmap (option string) string :=
  match item.2 with
  | inl _ => acc
  | inr filtered_shapes => foldl (add_shape item.1) acc filtered_shapes
  end.

Section Client.

(** [datetime.isoformat], on a time in microseconds. *)
Variable isoformat : Z → string.

(** What [_make_request("/shapes", {"filter[route]": route_id})] does for
    each route: it raises, or returns a response whose ["data"] list is
    given. *)
Variable shapes_endpoint : string → PyExc + list Shape.

Definition _make_request_shapes (route_id : string) : IO (list Shape) :=
  λ w, (shapes_endpoint route_id, w).

Definition get_shapes_for_route (route_id : string) : IO (list Shape) :=
  all_shapes ← _make_request_shapes route_id;
  mret (resolve route_id all_shapes).

(** What a route contributes to the merge: its resolved shapes when
    its task returned, nothing when it raised. *)
Definition contribution (route_id : string) : list Shape :=
  match shapes_endpoint route_id with
  | inl _ => []
  | inr all_shapes => resolve route_id all_shapes
  end.

Definition get_all_shapes_for_routes (route_ids : list string)
  : IO ShapesResponse :=
  if negb (truthy route_ids)
  then mret (Computed {| data := []; shape_to_route := ∅ |})
  else
    let cache_key := shapes_cache_key route_ids in
    cached_data ← load_from_cache cache_key;
    match cached_data with
    | PyNone =>
        let shape_tasks := get_shapes_for_route <$> route_ids in
        shape_results ← gather_return_exceptions shape_tasks;
        let acc := foldl process_result ([], ∅) (zip route_ids shape_results) in
        let result := {| data := acc.1; shape_to_route := acc.2 |} in
        let cache_key := shapes_cache_key route_ids in
        _ ← save_to_cache isoformat cache_key (result_to_json result);
        mret (Computed result)
    | _ => mret (Cached cached_data)
    end.

End Client.

End MBTAClient.

(** ** Inputs used below *)

(** [s.removeprefix("canonical-")]: what the comment at lines 402-403
    and the specification describe as the key of the final
    deduplication. *)
Definition strip_canonical_prefix (shape_id : string) : string :=
  if is_canonical_id shape_id
  then String.substring 10 (String.length shape_id - 10) shape_id
  else shape_id.

(** The marker does not occur in [s]: [s.replace("canonical-", "")]
    leaves it as it is. *)
Definition marker_free (s : string) : Prop := str_remove "canonical-" s = s.

Module Examples.

(** The specification's scenario for route 99: five non-canonical
    shapes of lengths 50, 48, 10, 9 and 8. *)
Definition bus_50 : Shape := shape_of "990001" (polyline_of_length 50).
Definition bus_48 : Shape := shape_of "990002" (polyline_of_length 48).
Definition bus_10 : Shape := shape_of "990003" (polyline_of_length 10).
Definition bus_9 : Shape := shape_of "990004" (polyline_of_length 9).
Definition bus_8 : Shape := shape_of "990005" (polyline_of_length 8).
Definition route_99_shapes : list Shape :=
  [bus_50; bus_48; bus_10; bus_9; bus_8].

(** Two long shapes and a short one that is sent twice. *)
Definition repeated_short_shapes : list Shape :=
  [shape_of "x" (polyline_of_length 30);
   shape_of "y" (polyline_of_length 20);
   shape_of "a" (polyline_of_length 5);
   shape_of "a" (polyline_of_length 4)].

(** The specification's scenario for the Red Line. *)
Definition red_two_branches : list Shape :=
  [shape_of "canonical-933_0009" (polyline_of_length 120);
   shape_of "canonical-933_0010" (polyline_of_length 118)].

(** Six canonical Red Line shapes and a non-canonical one. *)
Definition red_six_canonical : list Shape :=
  [shape_of "canonical-933_0009" (polyline_of_length 12);
   shape_of "canonical-933_0010" (polyline_of_length 11);
   shape_of "931_0009" (polyline_of_length 40);
   shape_of "canonical-931_0009" (polyline_of_length 10);
   shape_of "canonical-931_0010" (polyline_of_length 9);
   shape_of "canonical-932_0001" (polyline_of_length 8);
   shape_of "canonical-932_0002" (polyline_of_length 7)].

(** One canonical shape, sent twice, among longer non-canonical ones. *)
Definition one_canonical_shapes : list Shape :=
  [shape_of "946_0013" (polyline_of_length 40);
   shape_of "canonical-946_0013" (polyline_of_length 5);
   shape_of "946_0014" (polyline_of_length 30);
   shape_of "canonical-946_0013" (polyline_of_length 5)].

(** Two canonical shapes whose ids differ, also after the prefix is
    taken off, but agree once every occurrence of the marker is
    removed; the second is the longer, by 10%. *)
Definition nested_marker_18 : Shape :=
  shape_of "canonical-canonical-a" (polyline_of_length 18).
Definition nested_marker_20 : Shape :=
  shape_of "canonical-a" (polyline_of_length 20).

(** Two canonical shapes within 15% of each other. *)
Definition blue_two_directions : list Shape :=
  [shape_of "canonical-946_0013" (polyline_of_length 18);
   shape_of "canonical-946_0014" (polyline_of_length 20)].

(** A cache directory with nothing in it. *)
Definition empty_world : World :=
  {| cache_dir_ok := true; files := ∅; clock := 1700000000000000 |}.

Definition subway_lines_entry (payload : PyVal) : FileContents :=
  Json (PyDict [("timestamp", PyStr "2023-11-14T22:13:20"); ("data", payload)]).

(** [subway_lines.json] written exactly 168 hours ago. *)
Definition world_at_expiry : World :=
  {| cache_dir_ok := true;
     files := {[ "subway_lines.json" :=
                   {| st_mtime := 0;
                      contents := subway_lines_entry (PyList [PyStr "line-Red"]) |} ]};
     clock := 168 * 3600 * 1000000 |}.

(** [subway_lines.json] written just now by [save_to_cache(k, None)]. *)
Definition world_null_payload : World :=
  {| cache_dir_ok := true;
     files := {[ "subway_lines.json" :=
                   {| st_mtime := 0; contents := subway_lines_entry PyNone |} ]};
     clock := 0 |}.

(** A stand-in for [datetime.isoformat]; no modelled code reads the
    timestamp back. *)
Definition fixed_isoformat (t : Z) : string := "2023-11-14T22:13:20".

(** Routes A and B answer, route C times out. *)
Definition shapes_A : list Shape :=
  [shape_of "canonical-A1" (polyline_of_length 12);
   shape_of "A2" (polyline_of_length 30)].
Definition shapes_B : list Shape :=
  [shape_of "B1" (polyline_of_length 9); shape_of "B2" (polyline_of_length 4)].
Definition endpoint_C_down (route_id : string) : PyExc + list Shape :=
  if String.eqb route_id "A" then inr shapes_A
  else if String.eqb route_id "B" then inr shapes_B
  else inl TimeoutException.

End Examples.

(** The specification's wording for [load]: it gives [None] exactly
    when there is no file, the file is older than the TTL, or it does
    not parse. *)
Definition load_absent_iff_as_stated (cache_key : string) (w : World) : Prop :=
  (CacheManager.load_from_cache cache_key w).1 = inr PyNone
  ↔ (files w !! (cache_key +:+ ".json") = None
     ∨ (∃ f, files w !! (cache_key +:+ ".json") = Some f
             ∧ (CacheManager.timedelta_hours 168 < clock w - st_mtime f)%Z)
     ∨ (∃ f, files w !! (cache_key +:+ ".json") = Some f
             ∧ contents f = NotJson)).

(** ** More of cache_manager.py *)

(** [s.endswith(suffix)] *)
Fixpoint ends_with (suffix s : string) : bool :=
  if String.eqb s suffix then true
  else match s with
       | EmptyString => false
       | String _ s' => ends_with suffix s'
       end.

Module CacheClear.
Import CacheManager.

(** [cache_file.exists()], for a file name that can be an entry of the
    directory. *)
Definition path_exists (cache_file : string) : IO bool :=
  λ w, (inr (bool_decide (is_Some (files w !! cache_file))), w).

(** [cache_file.unlink()]: raises when there is no such file. *)
Definition unlink (cache_file : string) : IO unit :=
  λ w, match files w !! cache_file with
       | None => (inl OSError, w)
       | Some _ =>
           (inr (),
            {| cache_dir_ok := cache_dir_ok w;
               files := delete cache_file (files w);
               clock := clock w |})
       end.

(** A name the pattern ["*.json"] matches in the cache directory
    itself: it ends in [".json"] and names no file further down. *)
Definition matches_json (name : string) : bool :=
  ends_with ".json" name && negb (has_char "/"%char name).

(** [cache_dir.glob("*.json")] *)
Definition glob_json : IO (list string) :=
  λ w, (inr (filter (λ name, matches_json name) (map_to_list (files w)).*1), w).

(** [for x in xs: body(x)] *)
Fixpoint for_each {A : Type} (xs : list A) (body : A → IO unit) : IO unit :=
  match xs with
  | [] => mret ()
  | x :: rest => _ ← body x; for_each rest body
  end.

(** [bool(cache_key)] for an optional string. *)
Definition truthy_key (cache_key : option string) : bool :=
  match cache_key with
  | Some (String _ _) => true
  | _ => false
  end.

(** [if cache_file.exists(): cache_file.unlink()] *)
Definition unlink_if_exists (cache_file : string) : IO unit :=
  path_exists cache_file ≫= λ found : bool,
  if found then unlink cache_file else mret ().

Definition clear_cache (cache_key : option string) : IO bool :=
  try_except
    (_ ← (if truthy_key cache_key then
            cache_file ← get_cache_file_path (default "" cache_key);
            unlink_if_exists cache_file
          else
            _ ← ensure_cache_dir;
            cache_files ← glob_json;
            for_each cache_files unlink);
     mret true)
    (λ e, mret false).

End CacheClear.

(** ** More of mbta_client.py: the index of a computed result *)

(** The route id stamped into a shape, if any. *)
Definition stamped_route (s : Shape) : option string :=
  default ∅ (attributes s) !! "_route_id".

(** The index built from the stamps of a list of shapes, a later shape
    overwriting an earlier one with the same id. *)
Definition index_of (shapes : list Shape) : gmap (option string) string :=
  foldl (λ m s, <[id s := default "" (stamped_route s)]> m) ∅ shapes.

(** What the tasks of [get_all_shapes_for_routes] hand to the loop of
    lines 502-517, and the dict the loop builds from it. *)
Definition task_outcomes (shapes_endpoint : string → PyExc + list Shape)
    (route_ids : list string) : list (PyExc + list Shape) :=
  (λ r, match shapes_endpoint r with
        | inl e => inl e
        | inr all_shapes => inr (resolve r all_shapes)
        end) <$> route_ids.

Definition merge_results (shapes_endpoint : string → PyExc + list Shape)
    (route_ids : list string) : MBTAClient.ShapesResult :=
  let acc := foldl MBTAClient.process_result ([], ∅)
               (zip route_ids (task_outcomes shapes_endpoint route_ids)) in
  {| MBTAClient.data := acc.1; MBTAClient.shape_to_route := acc.2 |}.

Module MoreExamples.


End MoreExamples.

(** ** More of mbta_client.py: stops, lines, routes, alerts *)

Module PyOps.

(** [v.get(k, default)]: only a dict has [get]. *)
Definition py_get_default (v : PyVal) (k : string) (dflt : PyVal) : PyExc + PyVal :=
  match v with
  | PyDict d => inr (default dflt (items_get d k))
  | _ => inl AttributeError
  end.

Definition is_dict (v : PyVal) : bool :=
  match v with PyDict _ => true | _ => false end.

(** [v == s] for a string [s]: only an equal string is equal. *)
Definition py_eq_str (v : PyVal) (s : string) : bool :=
  match v with
  | PyStr s' => String.eqb s' s
  | _ => false
  end.

(** [v in strs] for a list of strings. *)
Definition py_in (v : PyVal) (strs : list string) : bool :=
  existsb (py_eq_str v) strs.

(** [[x for x in xs if p(x)]], where [p] may raise. *)
Fixpoint filter_exc {A : Type} (p : A → PyExc + bool) (xs : list A)
  : PyExc + list A :=
  match xs with
  | [] => inr []
  | x :: rest =>
      match p x with
      | inl e => inl e
      | inr keep =>
          match filter_exc p rest with
          | inl e => inl e
          | inr kept => inr (if keep then x :: kept else kept)
          end
      end
  end.

(** [next((x for x in xs if p(x)), None)]: the search stops at the
    first hit and raises only on what it has looked at. *)
Fixpoint find_exc {A : Type} (p : A → PyExc + bool) (xs : list A)
  : PyExc + option A :=
  match xs with
  | [] => inr None
  | x :: rest =>
      match p x with
      | inl e => inl e
      | inr true => inr (Some x)
      | inr false => find_exc p rest
      end
  end.

(** A call that does not touch the cache directory. *)
Definition lift {A : Type} (r : PyExc + A) : IO A := λ w, (r, w).

(** [k in d] and [d[k] = v] on an item list: an existing key keeps its
    position. *)
Definition has_key (d : list (string * PyVal)) (k : string) : bool :=
  bool_decide (is_Some (items_get d k)).

Fixpoint items_set (d : list (string * PyVal)) (k : string) (v : PyVal)
  : list (string * PyVal) :=
  match d with
  | [] => [(k, v)]
  | (k', v') :: d' =>
      if String.eqb k' k then (k', v) :: d' else (k', v') :: items_set d' k v
  end.

End PyOps.

(** ** Payloads before they are serialised *)


#[local] Unset Elimination Schemes.
#[local] Set Elimination Schemes.






(** A key whose file is an entry of the directory and can be created:
    no [/], no NUL character, and a file name of at most 255 bytes. *)
Definition plain_key (cache_key : string) : bool :=
  writable_name (cache_key +:+ ".json").

Module Stops.
Import CacheManager PyOps.

(** [f"stops_{'_'.join(sorted(route_ids))}"] *)
Definition stops_cache_key (route_ids : list string) : string :=
  "stops_" +:+ String.concat "_" (merge_sort String.le route_ids).

Section Client.

Variable isoformat : Z → string.

(** What [_make_request("/stops", {"filter[route]": ids})] does for
    each comma-separated id string: it raises, or returns the JSON
    document of the response. *)
Variable stops_endpoint : string → PyExc + PyVal.

Definition get_all_stops_for_routes (route_ids : list string) : IO PyVal :=
  if negb (truthy route_ids) then mret (PyList [])
  else
    let cache_key := stops_cache_key route_ids in
    cached_data ← load_from_cache cache_key;
    match cached_data with
    | PyNone =>
        let route_ids_str := String.concat "," route_ids in
        data ← lift (stops_endpoint route_ids_str);
        stops ← lift (py_get_default data "data" (PyList []));
        _ ← save_to_cache isoformat cache_key stops;
        mret stops
    | _ => mret cached_data
    end.

End Client.

End Stops.

Module Lines.
Import CacheManager PyOps.

Definition subway_line_ids : list string :=
  ["line-Red"; "line-Orange"; "line-Blue"; "line-Green"].

(** [line.get("id") in subway_line_ids] *)
Definition is_subway_line (line : PyVal) : PyExc + bool :=
  match py_get_default line "id" PyNone with
  | inl e => inl e
  | inr line_id => inr (py_in line_id subway_line_ids)
  end.

Section Client.

Variable isoformat : Z → string.

(** What [_make_request("/lines")] does: it raises, or returns a
    response whose ["data"] array is given. *)
Variable lines_endpoint : PyExc + list PyVal.

Definition get_subway_lines : IO PyVal :=
  cached_data ← load_from_cache "subway_lines";
  match cached_data with
  | PyNone =>
      all_lines ← lift lines_endpoint;
      subway_lines ← lift (filter_exc is_subway_line all_lines);
      _ ← save_to_cache isoformat "subway_lines" (PyList subway_lines);
      mret (PyList subway_lines)
  | _ => mret cached_data
  end.

End Client.

End Lines.

Module Routes.
Import CacheManager PyOps.

(** [route.get("relationships", {}).get("line", {}).get("data", {}).get("id")] *)
Definition line_id_of (route : PyVal) : PyExc + PyVal :=
  match py_get_default route "relationships" (PyDict []) with
  | inl e => inl e
  | inr relationships =>
      match py_get_default relationships "line" (PyDict []) with
      | inl e => inl e
      | inr line =>
          match py_get_default line "data" (PyDict []) with
          | inl e => inl e
          | inr data => py_get_default data "id" PyNone
          end
      end
  end.

(** [... == line_id] and [... != line_id] on that chain. *)
Definition references (line_id : string) (route : PyVal) : PyExc + bool :=
  match line_id_of route with
  | inl e => inl e
  | inr v => inr (py_eq_str v line_id)
  end.

Definition references_not (line_id : string) (route : PyVal) : PyExc + bool :=
  match line_id_of route with
  | inl e => inl e
  | inr v => inr (negb (py_eq_str v line_id))
  end.

(** [line.get("id") == line_id] and [line.get("id") != line_id]. *)
Definition has_id (line_id : string) (line : PyVal) : PyExc + bool :=
  match py_get_default line "id" PyNone with
  | inl e => inl e
  | inr v => inr (py_eq_str v line_id)
  end.

Definition has_other_id (line_id : string) (line : PyVal) : PyExc + bool :=
  match py_get_default line "id" PyNone with
  | inl e => inl e
  | inr v => inr (negb (py_eq_str v line_id))
  end.

(** [{"data": {"id": "line-Red", "type": "line"}}] *)
Definition red_line_reference : PyVal :=
  PyDict [("data", PyDict [("id", PyStr "line-Red"); ("type", PyStr "line")])].

(** The body of the loop that re-labels a Mattapan route, in place:
    [relationships] is created when missing and its ["line"] member is
    replaced.  The loop only runs on routes whose chain gave
    ["line-Mattapan"]; these are dicts with a dict under
    ["relationships"], so the assignment cannot fail on them. *)
Definition relabel (route : PyVal) : PyVal :=
  match route with
  | PyDict d =>
      let d := if has_key d "relationships" then d
               else items_set d "relationships" (PyDict []) in
      match items_get d "relationships" with
      | Some (PyDict relationships) =>
          PyDict (items_set d "relationships"
                    (PyDict (items_set relationships "line" red_line_reference)))
      | _ => PyDict d
      end
  | _ => route
  end.

(** The route objects of a response live in a store; the lists the
    code builds hold references into it, so a route changed through
    one list is changed in every list that holds it. *)
Definition deref (store : list PyVal) (ref : nat) : PyVal :=
  default PyNone (store !! ref).

Definition select (store : list PyVal) (p : PyVal → PyExc + bool)
    (refs : list nat) : PyExc + list nat :=
  filter_exc (λ ref, p (deref store ref)) refs.

(** [for route in mattapan_routes: ...] *)
Definition relabel_all (store : list PyVal) (refs : list nat) : list PyVal :=
  foldl (λ st ref, alter relabel ref st) store refs.

Section Client.

Variable isoformat : Z → string.

(** What [_make_request("/routes", {"filter[type]": "0,1", "include":
    "line"})] does: it raises, or returns a response whose ["data"] and
    ["included"] arrays are given. *)
Variable routes_endpoint : PyExc + (list PyVal * list PyVal).

Definition get_routes_for_line (line_id : string) : IO PyVal :=
  response ← lift routes_endpoint;
  let all_routes := response.1 in
  let included_lines := response.2 in
  let refs := seq 0 (length all_routes) in
  filtered_routes ← lift (select all_routes (references line_id) refs);
  if String.eqb line_id "line-Red" then
    mattapan_routes ← lift (select all_routes (references "line-Mattapan") refs);
    let store := relabel_all all_routes mattapan_routes in
    let filtered_routes := filtered_routes ++ mattapan_routes in
    mret (PyDict [("data", PyList (deref store <$> filtered_routes));
                  ("included", PyList included_lines)])
  else
    mret (PyDict [("data", PyList (deref all_routes <$> filtered_routes));
                  ("included", PyList included_lines)]).

Definition get_all_subway_routes : IO PyVal :=
  cached_data ← load_from_cache "all_subway_routes";
  match cached_data with
  | PyNone =>
      response ← lift routes_endpoint;
      let all_routes := response.1 in
      let included_lines := response.2 in
      let refs := seq 0 (length all_routes) in
      red_line ← lift (find_exc (has_id "line-Red") included_lines);
      mattapan_routes ← lift (select all_routes (references "line-Mattapan") refs);
      let store := relabel_all all_routes mattapan_routes in
      filtered_routes ← lift (select store (references_not "line-Mattapan") refs);
      let filtered_routes := filtered_routes ++ mattapan_routes in
      filtered_included_lines ←
        lift (filter_exc (has_other_id "line-Mattapan") included_lines);
      let result :=
        PyDict [("data", PyList (deref store <$> filtered_routes));
                ("included", PyList filtered_included_lines)] in
      _ ← save_to_cache isoformat "all_subway_routes" result;
      mret result
  | _ => mret cached_data
  end.

End Client.

(** A route the chain can be followed on, and whether it then names
    [line_id]. *)
Definition well_formed (route : PyVal) : bool :=
  match line_id_of route with
  | inr _ => true
  | inl _ => false
  end.

Definition names_line (line_id : string) (route : PyVal) : bool :=
  match line_id_of route with
  | inr v => py_eq_str v line_id
  | inl _ => false
  end.

End Routes.

Module Alerts.

(** An alert as the sort sees it: its [attributes.severity], an
    integer when present; everything else is carried along.  (Keys
    that cannot be compared with each other make the sort raise; such
    responses are outside this type.) *)
Record Alert := mkAlert {
  alert_id : string;
  severity : option Z;
}.

(** [x.get("attributes", {}).get("severity", 0)] *)
Definition sort_key (x : Alert) : Z := default 0%Z (severity x).

(** [list.sort(key=..., reverse=True)] is stable: among equal keys
    the earlier element stays first. *)
Fixpoint insert_by_key (x : Alert) (sorted : list Alert) : list Alert :=
  match sorted with
  | [] => [x]
  | y :: rest =>
      if (sort_key x <? sort_key y)%Z then y :: insert_by_key x rest
      else x :: y :: rest
  end.

Definition sort_by_key_desc (alerts : list Alert) : list Alert :=
  foldr (λ x acc, insert_by_key x acc) [] alerts.

Section Client.

(** What [_make_request("/alerts", ...)] does for each comma-separated
    id string: it raises, or returns a response whose ["data"] array
    is given. *)
Variable alerts_endpoint : string → PyExc + list Alert.

Definition get_alerts_for_line (route_ids : list string) : PyExc + list Alert :=
  let route_ids_str := String.concat "," route_ids in
  match alerts_endpoint route_ids_str with
  | inl e => inl e
  | inr alerts => inr (sort_by_key_desc alerts)
  end.

End Client.

End Alerts.

(** ** tile_cache.py *)

Module TileCache.

Definition Tile : Type := Z * Z * Z.

Definition CACHE_ZOOM_LEVELS : list Z := [9; 10; 11; 12; 13; 14; 15]%Z.

Definition BATCH_SIZE : nat := 10.

(** [range(a, b)] on integers and [range(0, stop, step)]. *)
Definition range (a b : Z) : list Z :=
  (λ k, a + Z.of_nat k)%Z <$> seq 0 (Z.to_nat (b - a)).

Definition range_step (stop step : nat) : list nat :=
  (λ k, k * step) <$> seq 0 ((stop + step - 1) / step).

(** [l[i:j]] for [0 <= i <= j]. *)
Definition slice {A : Type} (l : list A) (i j : nat) : list A :=
  take (j - i) (drop i l).

Definition min4 (a b c d : Z) : Z := Z.min (Z.min (Z.min a b) c) d.
Definition max4 (a b c d : Z) : Z := Z.max (Z.max (Z.max a b) c) d.

Record Bounds (float : Type) := mkBounds {
  north : float; south : float; east : float; west : float;
}.
Arguments north {float}.
Arguments south {float}.
Arguments east {float}.
Arguments west {float}.

Section Grid.

(** The floating-point part is kept abstract: the corner conversion
    and the bounding box it is applied to. *)
Variable float : Type.
Variable lat_lng_to_tile : float → float → Z → Tile.
Variable get_cache_bounds : Bounds float.

Definition tiles_at_zoom (zoom : Z) : list Tile :=
  let bounds := get_cache_bounds in
  let nw_tile := lat_lng_to_tile (north bounds) (west bounds) zoom in
  let ne_tile := lat_lng_to_tile (north bounds) (east bounds) zoom in
  let sw_tile := lat_lng_to_tile (south bounds) (west bounds) zoom in
  let se_tile := lat_lng_to_tile (south bounds) (east bounds) zoom in
  let min_x := min4 nw_tile.1.1 ne_tile.1.1 sw_tile.1.1 se_tile.1.1 in
  let max_x := max4 nw_tile.1.1 ne_tile.1.1 sw_tile.1.1 se_tile.1.1 in
  let min_y := min4 nw_tile.1.2 ne_tile.1.2 sw_tile.1.2 se_tile.1.2 in
  let max_y := max4 nw_tile.1.2 ne_tile.1.2 sw_tile.1.2 se_tile.1.2 in
  x ← range min_x (max_x + 1);
  y ← range min_y (max_y + 1);
  [(x, y, zoom)].

Definition generate_tile_coordinates : list Tile :=
  zoom ← CACHE_ZOOM_LEVELS; tiles_at_zoom zoom.

(** The four corner tiles of a zoom level. *)
Definition corners (zoom : Z) : list Tile :=
  let bounds := get_cache_bounds in
  [lat_lng_to_tile (north bounds) (west bounds) zoom;
   lat_lng_to_tile (north bounds) (east bounds) zoom;
   lat_lng_to_tile (south bounds) (west bounds) zoom;
   lat_lng_to_tile (south bounds) (east bounds) zoom].

End Grid.

Record Counts := mkCounts {
  downloaded : nat; failed : nat; total : nat;
}.

Section Preload.

(** What gathering [download_tile] gives for each tile: [True],
    [False], or an exception object. *)
Variable download_tile : Tile → PyExc + bool.

(** [for result in results: if result is True: ... else: ...] *)
Definition count_results (results : list (PyExc + bool)) (c : nat * nat)
  : nat * nat :=
  foldl (λ c result,
           match result with
           | inr true => (S c.1, c.2)
           | _ => (c.1, S c.2)
           end) c results.

(** A tile whose download gave [True]. *)
Definition succeeded (tile : Tile) : bool :=
  match download_tile tile with
  | inr true => true
  | _ => false
  end.

Definition batches (tiles : list Tile) : list (list Tile) :=
  (λ i, slice tiles i (i + BATCH_SIZE)) <$> range_step (length tiles) BATCH_SIZE.

(** [preload_map_tiles()], without a progress callback.  [setup] is
    what creating the tile directory and generating the coordinates
    gives: an exception, or the tiles. *)
Definition preload_map_tiles (setup : PyExc + list Tile) : Counts :=
  match setup with
  | inl _ => mkCounts 0 0 0
  | inr tiles =>
      let total_tiles := length tiles in
      let c := foldl (λ c batch, count_results (download_tile <$> batch) c)
                     (0, 0) (batches tiles) in
      mkCounts c.1 c.2 total_tiles
  end.

End Preload.

End TileCache.

(** Whether [line] passes the filter of [get_subway_lines], for a line
    that is a JSON object. *)
Definition names_subway_line (line : PyVal) : bool :=
  match line with
  | PyDict d => PyOps.py_in (default PyNone (items_get d "id")) Lines.subway_line_ids
  | _ => false
  end.

(** What the two passes of [get_all_subway_routes] make of a route:
    a Mattapan route is re-labelled where it stands. *)
Definition relabel_mattapan (route : PyVal) : PyVal :=
  if Routes.names_line "line-Mattapan" route then Routes.relabel route else route.

(** Whether a line that is a JSON object has an id other than
    [line_id]. *)
Definition other_line (line_id : string) (line : PyVal) : bool :=
  match line with
  | PyDict d => negb (PyOps.py_eq_str (default PyNone (items_get d "id")) line_id)
  | _ => false
  end.

Module UpstreamExamples.

(** A stops response with one stop, and an upstream that is down. *)
Definition stops_up (route_ids_str : string) : PyExc + PyVal :=
  inr (PyDict [("data", PyList [PyDict [("id", PyStr "place-alfcl")]])]).

Definition stops_down (route_ids_str : string) : PyExc + PyVal :=
  inl TimeoutException.

(** The ["data"] array of a lines response: Red, Mattapan, a line
    without an id, Blue. *)
Definition line (line_id : string) : PyVal :=
  PyDict [("id", PyStr line_id); ("type", PyStr "line")].

Definition lines_data : list PyVal :=
  [line "line-Red"; line "line-Mattapan"; PyDict [("type", PyStr "line")];
   line "line-Blue"].

(** Routes of a routes response: Red, Mattapan, Blue, and a route whose
    line relationship is empty (["data": null]). *)
Definition route (route_id line_id : string) : PyVal :=
  PyDict [("id", PyStr route_id);
          ("relationships",
           PyDict [("line", PyDict [("data", PyDict [("id", PyStr line_id);
                                                      ("type", PyStr "line")])])])].

Definition route_without_line (route_id : string) : PyVal :=
  PyDict [("id", PyStr route_id);
          ("relationships", PyDict [("line", PyDict [("data", PyNone)])])].

Definition routes_data : list PyVal :=
  [route "Red" "line-Red"; route "Mattapan" "line-Mattapan";
   route "Blue" "line-Blue"].

Definition included_data : list PyVal :=
  [line "line-Red"; line "line-Mattapan"; line "line-Blue"].

(** Alerts as the upstream sent them: two of severity 7, one without a
    severity, one of severity 3. *)
Definition alerts_data : list Alerts.Alert :=
  [Alerts.mkAlert "a1" (Some 3%Z); Alerts.mkAlert "a2" (Some 7%Z);
   Alerts.mkAlert "a3" None; Alerts.mkAlert "a4" (Some 7%Z)].

End UpstreamExamples.

(** ** api/routes.py: the alerts handler *)

Module Api.
Import PyOps.

(** What a handler gives: the value its body holds under ["data"], or
    an [HTTPException] with its status code (the detail text is left
    out). *)
Inductive HttpResult (A : Type) : Type :=
  | Ok (data : A)
  | HttpError (status_code : nat).
Arguments Ok {A}.
Arguments HttpError {A}.

(** [bool(v)] *)
Definition py_truthy (v : PyVal) : bool :=
  match v with
  | PyNone => false
  | PyBool b => b
  | PyInt z => negb (z =? 0)%Z
  | PyStr s => negb (String.eqb s "")
  | PyList l => truthy l
  | PyDict d => truthy d
  end.

(** [[route.get("id") for route in routes_data if route.get("id")]] *)
Fixpoint truthy_ids (routes_data : list PyVal) : PyExc + list PyVal :=
  match routes_data with
  | [] => inr []
  | route :: rest =>
      match py_get_default route "id" PyNone with
      | inl e => inl e
      | inr route_id =>
          match truthy_ids rest with
          | inl e => inl e
          | inr ids => inr (if py_truthy route_id then route_id :: ids else ids)
          end
      end
  end.

(** [",".join(xs)] takes strings only; on anything else it raises
    [TypeError]. *)
Definition as_strings (xs : list PyVal) : option (list string) :=
  mapM (λ v, match v with PyStr s => Some s | _ => None end) xs.

Section Handlers.

Variable routes_endpoint : PyExc + (list PyVal * list PyVal).
Variable alerts_endpoint : string → PyExc + list Alerts.Alert.

(** [GET /alerts/{line_id}]: every exception ends as status 500. *)
Definition get_alerts_for_line (line_id : string) (w : World)
  : HttpResult (list Alerts.Alert) * World :=
  match Routes.get_routes_for_line routes_endpoint line_id w with
  | (inl _, w') => (HttpError 500, w')
  | (inr routes_response, w') =>
      match py_get_default routes_response "data" (PyList []) with
      | inl _ => (HttpError 500, w')
      | inr routes_data =>
          if negb (py_truthy routes_data) then (Ok [], w')
          else
            match routes_data with
            | PyList routes =>
                match truthy_ids routes with
                | inl _ => (HttpError 500, w')
                | inr ids =>
                    match as_strings ids with
                    | None => (HttpError 500, w')
                    | Some route_ids =>
                        match Alerts.get_alerts_for_line alerts_endpoint route_ids with
                        | inl _ => (HttpError 500, w')
                        | inr alerts => (Ok alerts, w')
                        end
                    end
                end
            | _ => (HttpError 500, w')
            end
      end
  end.

End Handlers.

(** The id of a route that has a non-empty string id. *)
Definition route_id_str (route : PyVal) : option string :=
  match route with
  | PyDict d =>
      match items_get d "id" with
      | Some (PyStr s) => if String.eqb s "" then None else Some s
      | _ => None
      end
  | _ => None
  end.

(** The routes [get_routes_for_line] selects for a line, as they came
    from the upstream. *)
Definition routes_of_line (line_id : string) (all_routes : list PyVal)
  : list PyVal :=
  filter (λ r, Routes.names_line line_id r) all_routes
  ++ (if String.eqb line_id "line-Red"
      then filter (λ r, Routes.names_line "line-Mattapan" r) all_routes
      else []).

End Api.

(** ** The shape claims in the specification's words *)

Module Spec.

(** [s] is [prefix] followed by anything. *)
Fixpoint starts_with (prefix s : string) : bool :=
  match prefix, s with
  | EmptyString, _ => true
  | String a prefix', String b s' => Ascii.eqb a b && starts_with prefix' s'
  | String _ _, EmptyString => false
  end.

(** "Canonical-prefixed": the id begins with [canonical-]. *)
Definition canonical_prefixed (s : Shape) : bool :=
  starts_with "canonical-" (get_id s).

(** "Stable first-seen-wins dedup by exact id": a record stays, and
    every later record with its id goes. *)
Fixpoint first_seen_wins (shapes : list Shape) : list Shape :=
  match shapes with
  | [] => []
  | s :: rest =>
      s :: filter (λ s', get_id s' ≠ get_id s) (first_seen_wins rest)
  end.

Definition deduplicated_canonical_subset (all_shapes : list Shape)
  : list Shape :=
  first_seen_wins (filter (λ s, canonical_prefixed s) all_shapes).

(** "Unmodified except that routeId is stamped into the record's
    attributes": [r] is [c] with [_route_id] set and nothing else
    changed. *)
Definition stamped (route_id : string) (r c : Shape) : Prop :=
  id r = id c
  ∧ default ∅ (attributes r) !! "_route_id" = Some route_id
  ∧ ∀ k, k ≠ "_route_id" →
         default ∅ (attributes r) !! k = default ∅ (attributes c) !! k.

End Spec.

Module FurtherExamples.

(** US Eastern time around the end of daylight saving on 2023-11-05,
    06:00 UTC: four hours behind UTC before, five after. *)
Definition hour : Z := 3600 * 1000000.
Definition dst_ends : Z := 1699164000 * 1000000.
Definition new_york (t : Z) : Z :=
  if (t <? dst_ends)%Z then (-4 * hour)%Z else (-5 * hour)%Z.

(** 2023-11-01, 15:00 UTC, and the empty directory then. *)
Definition saved_at : Z := 1698850800 * 1000000.
Definition world_at_save : World :=
  {| cache_dir_ok := true; files := ∅; clock := local_time new_york saved_at |}.

(** Red Line input with a repeated canonical id and a longer shape
    that is not canonical. *)
Definition red_with_repeat : list Shape :=
  [shape_of "canonical-933_0009" (polyline_of_length 5);
   shape_of "931_0009" (polyline_of_length 40);
   shape_of "canonical-933_0009" (polyline_of_length 9);
   shape_of "canonical-933_0010" (polyline_of_length 7)].

(** A zone without daylight saving. *)
Definition utc (t : Z) : Z := 0.


End FurtherExamples.

(** * Properties *)

(** ** Stamping *)

Lemma get_id_stamp route_id s : get_id (stamp route_id s) = get_id s.
Proof. reflexivity. Qed.

Lemma get_polyline_stamp route_id s :
  get_polyline (stamp route_id s) = get_polyline s.
Proof.
  unfold get_polyline, stamp; simpl.
  by rewrite lookup_insert_ne.
Qed.

Lemma stamp_route_id route_id s :
  default ∅ (attributes (stamp route_id s)) !! "_route_id" = Some route_id.
Proof. unfold stamp; simpl. by rewrite lookup_insert_eq. Qed.

Lemma stamp_idem route_id s : stamp route_id (stamp route_id s) = stamp route_id s.
Proof. unfold stamp; simpl. by rewrite insert_insert_eq. Qed.

Lemma fmap_get_id_stamp route_id (l : list Shape) :
  get_id <$> (stamp route_id <$> l) = get_id <$> l.
Proof. rewrite <-list_fmap_compose. by apply list_fmap_ext. Qed.

(** ** The deduplication loop *)

Lemma dedup_loop_sublist key seen l : dedup_loop key seen l `sublist_of` l.
Proof.
  revert seen; induction l as [|s l IH]; intros seen; simpl; [constructor|].
  case_decide; [by apply sublist_cons | by apply sublist_skip].
Qed.

Lemma dedup_loop_not_seen key seen l s :
  s ∈ dedup_loop key seen l → key s ∉ seen.
Proof.
  revert seen; induction l as [|x l IH]; intros seen; simpl.
  - by intros ?%elem_of_nil.
  - case_decide as Hx; [by apply IH|].
    intros [->|Hin]%elem_of_cons; [done|].
    apply IH in Hin. set_solver.
Qed.

Lemma dedup_loop_NoDup key seen l : NoDup (key <$> dedup_loop key seen l).
Proof.
  revert seen; induction l as [|x l IH]; intros seen; simpl; [constructor|].
  case_decide as Hx; [by apply IH|].
  rewrite fmap_cons. constructor; [|by apply IH].
  intros (s & Hk & Hin)%list_elem_of_fmap.
  apply dedup_loop_not_seen in Hin. set_solver.
Qed.

Lemma dedup_loop_fixed key seen l :
  NoDup (key <$> l) → (∀ s, s ∈ l → key s ∉ seen) →
  dedup_loop key seen l = l.
Proof.
  revert seen; induction l as [|x l IH]; intros seen Hnd Hseen; simpl; [done|].
  rewrite fmap_cons in Hnd. apply NoDup_cons in Hnd as [Hx Hnd].
  case_decide as Hin; [by destruct (Hseen x); [left|]|].
  f_equal. apply IH; [done|].
  intros s Hs [Heq%elem_of_singleton|Hold]%elem_of_union.
  - apply Hx. rewrite <-Heq. by apply list_elem_of_fmap_2.
  - by apply (Hseen s); [right|].
Qed.

Lemma dedup_loop_empty_inv key l : dedup_loop key ∅ l = [] → l = [].
Proof.
  destruct l as [|x l]; [done|]; simpl.
  case_decide as Hin; [set_solver|done].
Qed.

(** ** The stable descending sort *)

Lemma insert_desc_perm {A} (x : nat * A) l : insert_desc x l ≡ₚ x :: l.
Proof.
  induction l as [|y l IH]; simpl; [done|].
  case_match; [|done]. rewrite IH. apply Permutation_swap.
Qed.

Lemma sort_desc_perm {A} (l : list (nat * A)) : sort_desc l ≡ₚ l.
Proof.
  induction l as [|x l IH]; simpl; [done|].
  unfold sort_desc in *; simpl. by rewrite insert_desc_perm, IH.
Qed.

Lemma insert_desc_sorted {A} (x : nat * A) l :
  StronglySorted ge_length l → StronglySorted ge_length (insert_desc x l).
Proof.
  induction 1 as [|y l Hl IH Hy]; simpl.
  - repeat constructor.
  - destruct (Nat.ltb_spec x.1 y.1) as [Hlt|Hge].
    + constructor; [done|].
      rewrite insert_desc_perm. constructor; [unfold ge_length; lia|done].
    + constructor; [by constructor|].
      constructor; [done|].
      eapply Forall_impl; [exact Hy|]. unfold ge_length; intros; simpl in *; lia.
Qed.

Lemma sort_desc_sorted {A} (l : list (nat * A)) :
  StronglySorted ge_length (sort_desc l).
Proof.
  induction l as [|x l IH]; [constructor|].
  by apply insert_desc_sorted.
Qed.

(** A list whose lengths strictly decrease is the only descending
    arrangement of its elements. *)
Lemma sort_desc_unique {A} (l target : list (nat * A)) :
  StronglySorted (λ x y, y.1 < x.1) target → l ≡ₚ target →
  sort_desc l = target.
Proof.
  intros Hstrict Hperm.
  assert (Hnd : NoDup (fst <$> target)).
  { clear Hperm. induction Hstrict as [|x t Ht IH Hx]; [constructor|].
    rewrite fmap_cons. constructor; [|done].
    intros (y & Hxy & Hin)%list_elem_of_fmap.
    rewrite Forall_forall in Hx. specialize (Hx y Hin). lia. }
  apply (StronglySorted_unique_strong ge_length).
  - intros x1 x2 H1 H2 Hle1 Hle2. unfold ge_length in *.
    assert (x1.1 = x2.1) as Heq by lia.
    rewrite sort_desc_perm, Hperm in H1.
    apply list_elem_of_lookup in H1 as [i Hi], H2 as [j Hj].
    assert (i = j); [|by simplify_eq].
    eapply NoDup_lookup; [exact Hnd| |]; rewrite list_lookup_fmap.
    + by rewrite Hi.
    + by rewrite Hj, Heq.
  - apply sort_desc_sorted.
  - clear Hperm Hnd. induction Hstrict as [|x t Ht IH Hx]; constructor; [done|].
    eapply Forall_impl; [exact Hx|]. unfold ge_length; intros; simpl in *; lia.
  - by rewrite sort_desc_perm.
Qed.

Lemma with_length_snd (l : list Shape) : snd <$> with_length l = l.
Proof.
  unfold with_length. rewrite <-list_fmap_compose.
  rewrite <-(list_fmap_id l) at 2. by apply list_fmap_ext.
Qed.

(** ** The resolver, stage by stage *)

Lemma resolve_unfold route_id all_shapes :
  resolve route_id all_shapes =
    if negb (truthy all_shapes) then []
    else
      let is_red_line := bool_decide (route_id = "Red") in
      let canonical_shapes := canonical_subset all_shapes in
      if truthy canonical_shapes && is_red_line && (2 <=? length canonical_shapes)
      then stamp route_id <$> canonical_shapes
      else stamp route_id <$>
             branch_or_direction is_red_line
               (dedup_stripped (fallback is_red_line all_shapes canonical_shapes)).
Proof.
  unfold resolve, canonical_subset.
  destruct (truthy all_shapes); simpl; [|done].
  set (c := filter _ all_shapes).
  assert ((if truthy c then dedup_exact c else c) = dedup_exact c) as ->.
  { by destruct c. }
  case_match; [done|].
  set (f := fallback _ _ _).
  assert ((if truthy (dedup_stripped f) then dedup_stripped f else f)
          = dedup_stripped f) as ->; [|done].
  destruct (dedup_stripped f) eqn:Hf; simpl; [|done].
  by apply dedup_loop_empty_inv in Hf.
Qed.

Lemma NoDup_of_submseteq {A} (l1 l2 : list A) : l1 ⊆+ l2 → NoDup l2 → NoDup l1.
Proof.
  intros [k Hk]%submseteq_Permutation Hnd.
  rewrite Hk in Hnd. by apply NoDup_app in Hnd as [? _].
Qed.

Lemma filter_none {A} (P : A → Prop) `{∀ x, Decision (P x)} (l : list A) :
  (∀ x, x ∈ l → ¬ P x) → filter P l = [].
Proof.
  induction l as [|x l IH]; intros Hl; [done|].
  rewrite filter_cons_False; [|apply Hl; by left].
  apply IH. intros y Hy. apply Hl. by right.
Qed.

Lemma branch_or_direction_submseteq is_red_line l :
  branch_or_direction is_red_line l ⊆+ l.
Proof.
  unfold branch_or_direction.
  assert (∀ k, snd <$> take k (sort_desc (with_length l)) ⊆+ l) as Htake.
  { intros k. rewrite <-(with_length_snd l) at 2.
    rewrite <-(sort_desc_perm (with_length l)) at 2.
    apply fmap_submseteq, sublist_submseteq, sublist_take. }
  repeat case_match; try done.
  rewrite <-(with_length_snd l) at 2.
  by rewrite <-(sort_desc_perm (with_length l)) at 2.
Qed.

Lemma dedup_stripped_NoDup_get_id l : NoDup (get_id <$> dedup_stripped l).
Proof.
  pose proof (dedup_loop_NoDup dedup_id ∅ l) as Hnd.
  fold (dedup_stripped l) in Hnd.
  assert (dedup_id <$> dedup_stripped l
          = (λ i, if is_canonical_id i then str_remove "canonical-" i else i)
              <$> (get_id <$> dedup_stripped l)) as Heq.
  { rewrite <-list_fmap_compose. by apply list_fmap_ext. }
  rewrite Heq in Hnd. by apply NoDup_fmap_1 in Hnd.
Qed.

Lemma resolve_NoDup_get_id route_id all_shapes :
  NoDup (get_id <$> resolve route_id all_shapes).
Proof.
  rewrite resolve_unfold.
  destruct (truthy all_shapes); simpl; [|constructor].
  case_match; rewrite fmap_get_id_stamp.
  - apply dedup_loop_NoDup.
  - eapply NoDup_of_submseteq; [|apply dedup_stripped_NoDup_get_id].
    apply fmap_submseteq, branch_or_direction_submseteq.
Qed.

Lemma count_id_NoDup i l : NoDup (get_id <$> l) → count_id i l ≤ 1.
Proof.
  unfold count_id. induction l as [|s l IH]; intros Hnd; [simpl; lia|].
  rewrite fmap_cons in Hnd. apply NoDup_cons in Hnd as [Hs Hl].
  rewrite filter_cons. case_decide as Hid; [|by apply IH].
  assert (filter (λ s, id s = Some i) l = []) as ->; [|simpl; lia].
  apply filter_none. intros x Hx Hxi. apply Hs.
  apply list_elem_of_fmap. exists x. split; [|done].
  unfold get_id. by rewrite Hid, Hxi.
Qed.

Lemma canonical_subset_fixed all_shapes :
  NoDup (get_id <$> filter (λ s, is_canonical s) all_shapes) →
  canonical_subset all_shapes = filter (λ s, is_canonical s) all_shapes.
Proof.
  intros Hnd. apply dedup_loop_fixed; [done|]. set_solver.
Qed.

Lemma resolve_red_fast_path all_shapes :
  2 ≤ length (canonical_subset all_shapes) →
  resolve "Red" all_shapes = stamp "Red" <$> canonical_subset all_shapes.
Proof.
  intros Hlen. rewrite resolve_unfold.
  destruct all_shapes as [|s l]; [simpl in Hlen; lia|].
  cbn [truthy negb]. cbv zeta.
  destruct (canonical_subset (s :: l)) as [|c cs] eqn:Hc; [simpl in Hlen; lia|].
  rewrite bool_decide_eq_true_2 by done.
  destruct (Nat.leb_spec 2 (length (c :: cs))); [done|lia].
Qed.

Lemma fallback_keeps_few is_red_line all_shapes canonical_shapes :
  canonical_shapes ≠ [] → length canonical_shapes ≤ 2 →
  fallback is_red_line all_shapes canonical_shapes = canonical_shapes.
Proof.
  intros Hne Hlen. unfold fallback.
  destruct (Nat.ltb_spec 2 (length canonical_shapes)); [lia|].
  by destruct canonical_shapes.
Qed.

(** ** The length-ratio test *)

Lemma ratio_test (max_length min_length : nat) :
  min_length ≤ max_length →
  Qle_bool (15 # 100) (length_diff_ratio max_length min_length) = true
  ↔ 0 < max_length ∧ 3 * max_length ≤ 20 * (max_length - min_length).
Proof.
  intros Hle. rewrite Qle_bool_iff. unfold length_diff_ratio.
  destruct (Nat.ltb_spec 0 max_length) as [Hpos|Hzero].
  - remember (Z.of_nat max_length) as zmax eqn:Hz.
    destruct zmax as [|p|p]; [lia| |lia].
    unfold Qle, Qdiv, Qmult, Qinv, inject_Z.
    cbn [Qnum Qden]. rewrite Pos.mul_1_l. lia.
  - split; [intros H; by vm_compute in H|lia].
Qed.

Lemma ratio_test_false (max_length min_length : nat) :
  min_length ≤ max_length →
  20 * (max_length - min_length) < 3 * max_length →
  Qle_bool (15 # 100) (length_diff_ratio max_length min_length) = false.
Proof.
  intros Hle Hlt. apply not_true_is_false.
  rewrite ratio_test by done. lia.
Qed.

(** Two candidates: the longer comes first, the earlier on a tie. *)
Lemma branch_or_direction_pair s1 s2 :
  branch_or_direction false [s1; s2] =
    let longer := if polyline_len s1 <? polyline_len s2 then s2 else s1 in
    let shorter := if polyline_len s1 <? polyline_len s2 then s1 else s2 in
    if Qle_bool (15 # 100)
         (length_diff_ratio (polyline_len longer) (polyline_len shorter))
    then [longer; shorter] else [longer].
Proof.
  unfold branch_or_direction, with_length, sort_desc. simpl.
  destruct (polyline_len s1 <? polyline_len s2); simpl; by case_match.
Qed.

Lemma with_nonempty_length_all l :
  Forall (λ s, 0 < polyline_len s) l → with_nonempty_length l = with_length l.
Proof.
  unfold with_nonempty_length, with_length, polyline_len.
  induction 1 as [|s l Hs Hl IH]; [done|].
  simpl. destruct (get_polyline s) eqn:Hp; [simpl in Hs; lia|].
  simpl. f_equal. exact IH.
Qed.

(** Two canonical shapes whose deduplication keys differ and whose
    lengths are within 15% of the longer: one record, the longer. *)
Lemma resolve_direction_collapse route_id s1 s2 :
  route_id ≠ "Red" →
  is_canonical s1 → is_canonical s2 →
  dedup_id s1 ≠ dedup_id s2 →
  20 * (polyline_len s1 `max` polyline_len s2
        - polyline_len s1 `min` polyline_len s2)
    < 3 * (polyline_len s1 `max` polyline_len s2) →
  resolve route_id [s1; s2]
  = [stamp route_id (if polyline_len s1 <? polyline_len s2 then s2 else s1)].
Proof.
  intros Hred Hc1 Hc2 Hkey Hlen.
  assert (get_id s1 ≠ get_id s2) as Hid.
  { intros Heq. apply Hkey. unfold dedup_id. by rewrite Heq. }
  rewrite resolve_unfold. cbn [truthy negb]. cbv zeta.
  assert (canonical_subset [s1; s2] = [s1; s2]) as ->.
  { unfold canonical_subset.
    rewrite !filter_cons_True by done.
    apply dedup_loop_fixed; [|set_solver].
    simpl. apply NoDup_cons_2; [|apply NoDup_singleton].
    by intros ?%list_elem_of_singleton. }
  rewrite bool_decide_eq_false_2 by done.
  rewrite andb_false_r. cbn [andb].
  rewrite fallback_keeps_few by (simpl; done || lia).
  assert (dedup_stripped [s1; s2] = [s1; s2]) as ->.
  { apply dedup_loop_fixed; [|set_solver].
    simpl. apply NoDup_cons_2; [|apply NoDup_singleton].
    by intros ?%list_elem_of_singleton. }
  rewrite branch_or_direction_pair. cbv zeta.
  rewrite ratio_test_false; [by destruct (_ <? _)| |].
  - destruct (Nat.ltb_spec (polyline_len s1) (polyline_len s2)); lia.
  - destruct (Nat.ltb_spec (polyline_len s1) (polyline_len s2)); lia.
Qed.

(** *** Where the two readings of the deduplication key agree *)

Lemma substring_all (s : string) : String.substring 0 (String.length s) s = s.
Proof. induction s as [|c s IH]; simpl; [done|by rewrite IH]. Qed.

Lemma canonical_id_inv (i : string) :
  is_canonical_id i = true → ∃ rest, i = "canonical-" +:+ rest.
Proof.
  unfold is_canonical_id. intros Hp.
  repeat match type of Hp with
         | String.prefix (String _ _) ?j = true =>
             let c := fresh "c" in
             let r := fresh "r" in
             destruct j as [|c r]; cbn [String.prefix] in Hp; [discriminate|];
             destruct (ascii_dec _ c); [subst c|discriminate]
         end.
  by eexists.
Qed.

(** On an id that carries the marker only as its prefix, [replace]
    does what taking the prefix off does. *)
Lemma dedup_id_strip_prefix s :
  marker_free (strip_canonical_prefix (get_id s)) →
  dedup_id s = strip_canonical_prefix (get_id s).
Proof.
  unfold dedup_id, strip_canonical_prefix, marker_free.
  destruct (is_canonical_id (get_id s)) eqn:Hc; [|done].
  destruct (canonical_id_inv _ Hc) as [rest ->].
  set (i := "canonical-" +:+ rest). cbv in (value of i). subst i.
  cbn [String.length Nat.sub String.substring].
  rewrite Nat.sub_0_r, substring_all. intros Hfree.
  unfold str_remove in *. cbn.
  assert (String.prefix "" rest = true) as -> by (by destruct rest).
  exact Hfree.
Qed.

(** Direction collapse, with the key read as the id without its
    prefix, on all ids that carry the marker only as their prefix. *)
Lemma resolve_direction_collapse_prefix route_id s1 s2 :
  route_id ≠ "Red" →
  is_canonical s1 → is_canonical s2 →
  strip_canonical_prefix (get_id s1) ≠ strip_canonical_prefix (get_id s2) →
  marker_free (strip_canonical_prefix (get_id s1)) →
  marker_free (strip_canonical_prefix (get_id s2)) →
  20 * (polyline_len s1 `max` polyline_len s2
        - polyline_len s1 `min` polyline_len s2)
    < 3 * (polyline_len s1 `max` polyline_len s2) →
  resolve route_id [s1; s2]
  = [stamp route_id (if polyline_len s1 <? polyline_len s2 then s2 else s1)].
Proof.
  intros Hred Hc1 Hc2 Hkey Hf1 Hf2 Hlen.
  apply resolve_direction_collapse; try done.
  by rewrite !dedup_id_strip_prefix.
Qed.

Example blue_direction_collapse :
  resolve "Blue" Examples.blue_two_directions
  = [stamp "Blue" (shape_of "canonical-946_0014" (polyline_of_length 20))].
Proof.
  apply (resolve_direction_collapse_prefix "Blue"
           (shape_of "canonical-946_0013" (polyline_of_length 18))
           (shape_of "canonical-946_0014" (polyline_of_length 20)));
    vm_compute; (discriminate || reflexivity || lia || tauto).
Qed.

(** * The claims *)

(** ** ShapeResolver *)

(** C1, as the code has it.  For a route other than Red, given five
    non-canonical shapes with polyline lengths 50, 48, 10, 9 and 8 (in
    any order, the two longest with different ids), [resolve] returns
    exactly one record: the shape of length 50, stamped with the route
    id.  The ranking keeps the shapes of lengths 50 and 48, and the
    length-ratio test, (50 - 48) / 50 < 0.15, then keeps the longer. *)
Theorem resolve_five_non_canonical route_id s1 s2 s3 s4 s5 all_shapes :
  route_id ≠ "Red" →
  all_shapes ≡ₚ [s1; s2; s3; s4; s5] →
  Forall (λ s, ¬ is_canonical s) [s1; s2; s3; s4; s5] →
  get_id s1 ≠ get_id s2 →
  polyline_len <$> [s1; s2; s3; s4; s5] = [50; 48; 10; 9; 8] →
  resolve route_id all_shapes = [stamp route_id s1].
Proof.
  intros Hred Hperm Hnc Hid Hlen.
  injection Hlen as H1 H2 H3 H4 H5.
  rewrite resolve_unfold.
  assert (truthy all_shapes = true) as ->.
  { destruct all_shapes; [|done]. by apply Permutation_nil_cons in Hperm. }
  cbn [negb]. cbv zeta.
  assert (canonical_subset all_shapes = []) as ->.
  { unfold canonical_subset. rewrite filter_none; [done|].
    intros x Hx. rewrite Hperm in Hx.
    rewrite Forall_forall in Hnc. by apply Hnc. }
  cbn [truthy andb].
  assert (sort_desc (with_nonempty_length all_shapes)
          = [(50, s1); (48, s2); (10, s3); (9, s4); (8, s5)]) as Hsort.
  { apply sort_desc_unique.
    - repeat (apply SSorted_cons;
                [|repeat (apply Forall_cons_2; [simpl; lia|]); apply Forall_nil_2]).
      apply SSorted_nil.
    - rewrite with_nonempty_length_all.
      + unfold with_length. rewrite Hperm. simpl.
        by rewrite H1, H2, H3, H4, H5.
      + rewrite Hperm. repeat (apply Forall_cons_2; [lia|]). apply Forall_nil_2. }
  unfold fallback. cbn [truthy negb orb length]. rewrite orb_true_r.
  rewrite Hsort. cbn [truthy length Nat.min take fmap list_fmap snd].
  assert (dedup_stripped [s1; s2] = [s1; s2]) as ->.
  { apply dedup_loop_fixed; [|set_solver].
    assert (∀ s, ¬ is_canonical s → dedup_id s = get_id s) as Hkey.
    { intros s Hs. unfold dedup_id, is_canonical in *.
      by destruct (is_canonical_id (get_id s)). }
    rewrite Forall_forall in Hnc.
    simpl. rewrite !Hkey by (apply Hnc; set_solver).
    apply NoDup_cons_2; [|apply NoDup_singleton].
    by intros ?%list_elem_of_singleton. }
  rewrite bool_decide_eq_false_2 by done.
  rewrite branch_or_direction_pair. cbv zeta.
  rewrite H1, H2. cbn [Nat.ltb Nat.leb].
  by rewrite H1, H2.
Qed.

Lemma resolve_five_non_canonical_witness :
  resolve "99" Examples.route_99_shapes = [stamp "99" Examples.bus_50].
Proof.
  apply (resolve_five_non_canonical "99"
           Examples.bus_50 Examples.bus_48 Examples.bus_10
           Examples.bus_9 Examples.bus_8).
  - discriminate.
  - reflexivity.
  - repeat (apply Forall_cons_2; [vm_compute; tauto|]). apply Forall_nil_2.
  - vm_compute. discriminate.
  - vm_compute. reflexivity.
Defined.

(** C1, as stated, fails on the specification's own scenario: the
    result has one record, not the two of lengths 50 and 48. *)
Lemma route_99_not_two_records :
  resolve "99" Examples.route_99_shapes
    ≠ [stamp "99" Examples.bus_50; stamp "99" Examples.bus_48]
  ∧ length (resolve "99" Examples.route_99_shapes) = 1.
Proof. split; [vm_compute; discriminate | vm_compute; reflexivity]. Qed.

(** C2, as the code has it.  For every route and every input,
    [resolve] returns at most one record with any given id; the
    records it returns have pairwise different ids. *)
Theorem resolve_at_most_one_per_id route_id all_shapes i :
  count_id i (resolve route_id all_shapes) ≤ 1
  ∧ NoDup (get_id <$> resolve route_id all_shapes).
Proof.
  split; [|apply resolve_NoDup_get_id].
  apply count_id_NoDup, resolve_NoDup_get_id.
Qed.

(** C2, as stated, fails: an id the input carries twice is absent from
    the result when other shapes outrank it. *)
Lemma resolve_drops_repeated_id :
  count_id "a" Examples.repeated_short_shapes = 2
  ∧ count_id "a" (resolve "99" Examples.repeated_short_shapes) = 0
  ∧ count_id "a" (resolve "99" Examples.repeated_short_shapes) ≠ 1.
Proof. by vm_compute. Qed.

(** The code's tests against the specification's words. *)
Lemma starts_with_prefix p s : String.prefix p s = Spec.starts_with p s.
Proof.
  revert s. induction p as [|a p IH]; intros [|b s]; simpl; try done.
  destruct (ascii_dec a b) as [->|Hab].
  - by rewrite Ascii.eqb_refl, IH.
  - by rewrite (proj2 (Ascii.eqb_neq a b)).
Qed.

Lemma starts_with_spec p s :
  Spec.starts_with p s = true ↔ ∃ rest, s = p +:+ rest.
Proof.
  revert s. induction p as [|a p IH]; intros s.
  { split; [by exists s|done]. }
  destruct s as [|b s]; simpl.
  { split; [done|]. by intros [rest ?]. }
  rewrite andb_true_iff, Ascii.eqb_eq, IH. split.
  - intros [-> [rest ->]]. by exists rest.
  - intros [rest Hrest].
    change (String a p +:+ rest) with (String a (p +:+ rest)) in Hrest.
    injection Hrest as -> ->. eauto.
Qed.

Lemma is_canonical_spec s : is_canonical s = Spec.canonical_prefixed s.
Proof. apply starts_with_prefix. Qed.

Lemma canonical_prefixed_spec s :
  Spec.canonical_prefixed s = true ↔ ∃ rest, get_id s = "canonical-" +:+ rest.
Proof. apply starts_with_spec. Qed.

Lemma dedup_loop_first_seen seen l :
  dedup_loop get_id seen l
  = filter (λ s, get_id s ∉ seen) (Spec.first_seen_wins l).
Proof.
  revert seen. induction l as [|x l IH]; intros seen; [done|].
  cbn [dedup_loop Spec.first_seen_wins]. rewrite filter_cons.
  case_decide as Hx.
  - rewrite decide_False by tauto. rewrite IH, list_filter_filter.
    apply list_filter_iff. intros s. split; [|tauto].
    intros Hs. split; [done|]. congruence.
  - rewrite decide_True by done. f_equal.
    rewrite IH, list_filter_filter.
    apply list_filter_iff. intros s.
    rewrite not_elem_of_union, not_elem_of_singleton. tauto.
Qed.

Lemma filter_keeps_all {A : Type} (P : A → Prop) `{!∀ x, Decision (P x)}
    (l : list A) :
  (∀ x, x ∈ l → P x) → filter P l = l.
Proof.
  induction l as [|x l IH]; intros HP; [done|].
  rewrite filter_cons_True by (apply HP; left).
  rewrite IH; [done|]. intros y Hy. apply HP. by right.
Qed.

Lemma canonical_subset_spec all_shapes :
  canonical_subset all_shapes = Spec.deduplicated_canonical_subset all_shapes.
Proof.
  unfold canonical_subset, dedup_exact, Spec.deduplicated_canonical_subset.
  rewrite dedup_loop_first_seen.
  rewrite (list_filter_iff (λ s, is_canonical s) (λ s, Spec.canonical_prefixed s))
    by (intros s; by rewrite is_canonical_spec).
  apply filter_keeps_all. intros s _. apply not_elem_of_empty.
Qed.

Lemma stamp_stamped route_id c : Spec.stamped route_id (stamp route_id c) c.
Proof.
  split; [done|]. split; [apply stamp_route_id|].
  intros k Hk. unfold stamp; simpl. by rewrite lookup_insert_ne.
Qed.

Lemma stamped_get_id route_id r c : Spec.stamped route_id r c → get_id r = get_id c.
Proof. intros [Hid _]. unfold get_id. by rewrite Hid. Qed.

(** Where a record of the deduplicated canonical subset comes from: it
    is canonical-prefixed, and it is the first record of the input
    with its id. *)
Lemma deduplicated_canonical_subset_first all_shapes c :
  c ∈ Spec.deduplicated_canonical_subset all_shapes →
  Spec.canonical_prefixed c = true
  ∧ ∃ i, all_shapes !! i = Some c
         ∧ ∀ j c', j < i → all_shapes !! j = Some c' → get_id c' ≠ get_id c.
Proof.
  unfold Spec.deduplicated_canonical_subset.
  induction all_shapes as [|x l IH]; [by intros ?%elem_of_nil|].
  rewrite filter_cons. case_decide as Hx.
  - cbn [Spec.first_seen_wins]. intros [->|Hc]%elem_of_cons.
    + split; [by apply Is_true_true|]. exists 0. split; [done|]. intros; lia.
    + apply list_elem_of_filter in Hc as [Hne Hc].
      destruct (IH Hc) as (Hcan & i & Hi & Hfirst). split; [done|].
      exists (S i). split; [done|]. intros [|j] c' Hj Hc'.
      * simpl in Hc'. injection Hc' as <-. congruence.
      * simpl in Hc'. apply (Hfirst j); [lia|done].
  - intros Hc. destruct (IH Hc) as (Hcan & i & Hi & Hfirst). split; [done|].
    exists (S i). split; [done|]. intros [|j] c' Hj Hc'.
    + simpl in Hc'. injection Hc' as <-. intros Hid.
      apply Hx, Is_true_true. unfold Spec.canonical_prefixed in *.
      by rewrite Hid.
    + simpl in Hc'. apply (Hfirst j); [lia|done].
Qed.

(** Every canonical-prefixed id of the input is in the subset. *)
Lemma deduplicated_canonical_subset_ids all_shapes s :
  s ∈ all_shapes → Spec.canonical_prefixed s = true →
  get_id s ∈ get_id <$> Spec.deduplicated_canonical_subset all_shapes.
Proof.
  intros Hs Hcan. rewrite <-canonical_subset_spec.
  unfold canonical_subset, dedup_exact.
  assert (s ∈ filter (λ s, is_canonical s) all_shapes) as Hin.
  { apply list_elem_of_filter. split; [|done].
    apply Is_true_true. by rewrite is_canonical_spec. }
  revert Hin. generalize (filter (λ s, is_canonical s) all_shapes). intros l Hin.
  assert (∀ seen, get_id s ∉ seen →
                  get_id s ∈ get_id <$> dedup_loop get_id seen l) as Hgen;
    [|apply Hgen, not_elem_of_empty].
  induction l as [|x l IH]; [by apply elem_of_nil in Hin|].
  intros seen Hseen. cbn [dedup_loop].
  apply elem_of_cons in Hin as [<-|Hin].
  - rewrite decide_False by done. rewrite fmap_cons. left.
  - case_decide as Hx; [by apply IH|].
    rewrite fmap_cons. destruct (decide (get_id s = get_id x)) as [->|Hne].
    + left.
    + right. apply IH; [done|].
      by rewrite not_elem_of_union, not_elem_of_singleton.
Qed.

(** C3.  For route Red, if the canonical-prefixed shapes of the input,
    after the stable first-seen-wins deduplication by exact id, are at
    least two records, [resolve] returns exactly these records, in
    their order, each with the route id stamped into its attributes and
    otherwise unchanged; in particular it returns at least two records.
    So every record returned has an id that begins with [canonical-],
    no id is returned twice, every canonical-prefixed id of the input
    is returned, and the record returned for an id is the first record
    of the input with that id. *)
Theorem red_returns_canonical_subset all_shapes :
  2 ≤ length (Spec.deduplicated_canonical_subset all_shapes) →
  resolve "Red" all_shapes
  = stamp "Red" <$> Spec.deduplicated_canonical_subset all_shapes
  ∧ 2 ≤ length (resolve "Red" all_shapes)
  ∧ Forall2 (Spec.stamped "Red")
      (resolve "Red" all_shapes) (Spec.deduplicated_canonical_subset all_shapes)
  ∧ Forall (λ r, ∃ rest, get_id r = "canonical-" +:+ rest)
      (resolve "Red" all_shapes)
  ∧ NoDup (get_id <$> resolve "Red" all_shapes)
  ∧ (∀ s rest, s ∈ all_shapes → get_id s = "canonical-" +:+ rest →
               get_id s ∈ get_id <$> resolve "Red" all_shapes)
  ∧ (∀ r, r ∈ resolve "Red" all_shapes →
          ∃ i c, all_shapes !! i = Some c
                 ∧ Spec.stamped "Red" r c
                 ∧ ∀ j c', j < i → all_shapes !! j = Some c' →
                           get_id c' ≠ get_id c).
Proof.
  intros Hlen.
  assert (resolve "Red" all_shapes
          = stamp "Red" <$> Spec.deduplicated_canonical_subset all_shapes)
    as Hres.
  { rewrite <-canonical_subset_spec. apply resolve_red_fast_path.
    by rewrite canonical_subset_spec. }
  split; [done|]. split; [by rewrite Hres, length_fmap|].
  split; [|split; [|split; [|split]]].
  - rewrite Hres. apply Forall2_fmap_l, Forall_Forall2_diag, Forall_forall.
    intros c _. apply stamp_stamped.
  - rewrite Hres. apply Forall_fmap, Forall_forall. intros c Hc. simpl.
    apply deduplicated_canonical_subset_first in Hc as [Hcan _].
    rewrite get_id_stamp. by apply canonical_prefixed_spec.
  - apply resolve_NoDup_get_id.
  - intros s rest Hs Hid. rewrite Hres, fmap_get_id_stamp.
    apply deduplicated_canonical_subset_ids; [done|].
    apply canonical_prefixed_spec. eauto.
  - intros r Hr. rewrite Hres in Hr.
    apply list_elem_of_fmap in Hr as (c & -> & Hc).
    apply deduplicated_canonical_subset_first in Hc as (_ & i & Hi & Hfirst).
    exists i, c. split; [done|]. split; [apply stamp_stamped|done].
Qed.

Lemma red_returns_canonical_subset_witness :
  2 ≤ length (Spec.deduplicated_canonical_subset FurtherExamples.red_with_repeat)
  ∧ resolve "Red" FurtherExamples.red_with_repeat
    = [stamp "Red" (shape_of "canonical-933_0009" (polyline_of_length 5));
       stamp "Red" (shape_of "canonical-933_0010" (polyline_of_length 7))].
Proof.
  split; [vm_compute; lia|].
  exact (proj1 (red_returns_canonical_subset FurtherExamples.red_with_repeat
                  ltac:(vm_compute; lia))).
Defined.

(** C4 at the input where the code departs from it.  The two canonical
    ids differ, they differ after the prefix is taken off, and the
    lengths 18 and 20 are within 15% of the longer; yet [resolve]
    returns the shorter shape, because [replace] removes every
    occurrence of the marker and the two keys coincide. *)
Theorem replace_merges_nested_marker_ids :
  let s1 := Examples.nested_marker_18 in
  let s2 := Examples.nested_marker_20 in
  (is_canonical s1 ∧ is_canonical s2)
  ∧ get_id s1 ≠ get_id s2
  ∧ strip_canonical_prefix (get_id s1) ≠ strip_canonical_prefix (get_id s2)
  ∧ 20 * (polyline_len s2 - polyline_len s1) < 3 * polyline_len s2
  ∧ dedup_id s1 = dedup_id s2
  ∧ resolve "99" [s1; s2] = [stamp "99" s1]
  ∧ resolve "99" [s1; s2] ≠ [stamp "99" s2].
Proof.
  cbv zeta. repeat split; vm_compute; (reflexivity || discriminate || lia).
Qed.

(** C9.  For route Red, if the canonical shapes of the input have
    pairwise different ids and there are n ≥ 2 of them, [resolve]
    returns exactly n records; the cap of five is not applied, so for
    n > 5 the result has more than five records. *)
Theorem red_result_not_capped all_shapes n :
  NoDup (get_id <$> filter (λ s, is_canonical s) all_shapes) →
  length (filter (λ s, is_canonical s) all_shapes) = n →
  2 ≤ n →
  length (resolve "Red" all_shapes) = n
  ∧ (5 < n → 5 < length (resolve "Red" all_shapes)).
Proof.
  intros Hnd Hn Hle.
  pose proof (canonical_subset_fixed all_shapes Hnd) as Hc.
  rewrite resolve_red_fast_path by (rewrite Hc; lia).
  rewrite length_fmap, Hc. lia.
Qed.

(** The same with the duplicates of the input taken into account: n
    counts the different canonical ids. *)
Lemma red_result_size all_shapes :
  2 ≤ length (canonical_subset all_shapes) →
  length (resolve "Red" all_shapes) = length (canonical_subset all_shapes).
Proof.
  intros Hlen. rewrite resolve_red_fast_path by done. apply length_fmap.
Qed.

Lemma red_result_not_capped_witness :
  length (resolve "Red" Examples.red_six_canonical) = 6
  ∧ 5 < length (resolve "Red" Examples.red_six_canonical).
Proof.
  assert (length (resolve "Red" Examples.red_six_canonical) = 6
          ∧ (5 < 6 → 5 < length (resolve "Red" Examples.red_six_canonical)))
    as [Hsize Hmore].
  { apply red_result_not_capped.
    - apply (bool_decide_unpack _). vm_compute. exact I.
    - vm_compute. reflexivity.
    - lia. }
  split; [exact Hsize|apply Hmore; lia].
Defined.

(** C10.  For every route, if the canonical-prefixed shapes of the
    input reduce to exactly one record after the first-seen-wins
    deduplication by exact id, [resolve] returns exactly one record:
    that record with the route id stamped into its attributes and
    nothing else changed, whatever non-canonical shapes the input holds
    and however long their polylines are.  The record is the first
    record of the input with its id, and that id begins with
    [canonical-]. *)
Theorem single_canonical_is_the_result route_id all_shapes c :
  Spec.deduplicated_canonical_subset all_shapes = [c] →
  resolve route_id all_shapes = [stamp route_id c]
  ∧ (∃ r, resolve route_id all_shapes = [r]
          ∧ Spec.stamped route_id r c
          ∧ default ∅ (attributes r) !! "_route_id" = Some route_id
          ∧ ∃ rest, get_id r = "canonical-" +:+ rest)
  ∧ ∃ i, all_shapes !! i = Some c
         ∧ ∀ j c', j < i → all_shapes !! j = Some c' → get_id c' ≠ get_id c.
Proof.
  intros Hc.
  assert (c ∈ Spec.deduplicated_canonical_subset all_shapes) as Hin
    by (rewrite Hc; left).
  apply deduplicated_canonical_subset_first in Hin as (Hcan & Hfirst).
  rewrite <-canonical_subset_spec in Hc.
  assert (resolve route_id all_shapes = [stamp route_id c]) as Hres.
  { rewrite resolve_unfold.
    destruct all_shapes as [|s l]; [done|].
    cbn [truthy negb]. cbv zeta. rewrite Hc.
    replace (2 <=? length [c]) with false by done.
    rewrite andb_false_r.
    rewrite fallback_keeps_few by (simpl; done || lia).
    unfold dedup_stripped. simpl. case_decide; [set_solver|done]. }
  split; [done|]. split; [|done].
  exists (stamp route_id c). split; [done|]. split; [apply stamp_stamped|].
  split; [apply stamp_route_id|].
  rewrite get_id_stamp. by apply canonical_prefixed_spec.
Qed.

Lemma single_canonical_is_the_result_witness :
  resolve "Blue" Examples.one_canonical_shapes
  = [stamp "Blue" (shape_of "canonical-946_0013" (polyline_of_length 5))]
  ∧ resolve "Red" Examples.one_canonical_shapes
  = [stamp "Red" (shape_of "canonical-946_0013" (polyline_of_length 5))].
Proof.
  split.
  - exact (proj1 (single_canonical_is_the_result "Blue"
                    Examples.one_canonical_shapes _
                    ltac:(vm_compute; reflexivity))).
  - exact (proj1 (single_canonical_is_the_result "Red"
                    Examples.one_canonical_shapes _
                    ltac:(vm_compute; reflexivity))).
Defined.

(** ** RouteAggregator: the cache key *)

Lemma sorted_route_ids_perm (l1 l2 : list string) :
  l1 ≡ₚ l2 → merge_sort String.le l1 = merge_sort String.le l2.
Proof.
  intros Hperm. apply (Sorted_unique String.le).
  - apply Sorted_merge_sort, _.
  - apply Sorted_merge_sort, _.
  - by rewrite !merge_sort_Permutation.
Qed.

(** C8, as the code has it.  Two route-id lists that are permutations
    of each other (the same ids, each as often, in any order) get the
    same cache key: the ids sorted ascending, joined by ["_"], after
    the prefix ["shapes_"]. *)
Theorem shapes_cache_key_perm (l1 l2 : list string) :
  l1 ≡ₚ l2 →
  MBTAClient.shapes_cache_key l1 = MBTAClient.shapes_cache_key l2
  ∧ ∃ sorted_ids,
      Sorted String.le sorted_ids ∧ sorted_ids ≡ₚ l1
      ∧ MBTAClient.shapes_cache_key l2
        = "shapes_" +:+ String.concat "_" sorted_ids.
Proof.
  intros Hperm. unfold MBTAClient.shapes_cache_key.
  rewrite (sorted_route_ids_perm l1 l2 Hperm). split; [done|].
  exists (merge_sort String.le l2). split; [apply Sorted_merge_sort, _|].
  split; [by rewrite merge_sort_Permutation|done].
Qed.

Lemma shapes_cache_key_perm_witness :
  MBTAClient.shapes_cache_key ["Red"; "Blue"; "Orange"]
  = MBTAClient.shapes_cache_key ["Orange"; "Red"; "Blue"]
  ∧ MBTAClient.shapes_cache_key ["Orange"; "Red"; "Blue"]
    = "shapes_Blue_Orange_Red".
Proof.
  split; [|vm_compute; reflexivity].
  refine (proj1 (shapes_cache_key_perm _ _ _)).
  apply (bool_decide_unpack _). vm_compute. exact I.
Defined.

(** Duplicate-free lists with the same ids are such permutations. *)
Lemma shapes_cache_key_same_set (l1 l2 : list string) :
  NoDup l1 → NoDup l2 → (∀ r, r ∈ l1 ↔ r ∈ l2) →
  MBTAClient.shapes_cache_key l1 = MBTAClient.shapes_cache_key l2.
Proof.
  intros Hnd1 Hnd2 Hset. unfold MBTAClient.shapes_cache_key.
  by rewrite (sorted_route_ids_perm l1 l2 (NoDup_Permutation _ _ Hnd1 Hnd2 Hset)).
Qed.

(** C8, as stated, fails: a list that repeats an id holds the same set
    of ids as the list without the repetition, and gets another key. *)
Lemma shapes_cache_key_counts_repeats :
  (∀ r : string, r ∈ ["A"; "B"] ↔ r ∈ ["A"; "B"; "A"])
  ∧ MBTAClient.shapes_cache_key ["A"; "B"] = "shapes_A_B"
  ∧ MBTAClient.shapes_cache_key ["A"; "B"; "A"] = "shapes_A_A_B"
  ∧ MBTAClient.shapes_cache_key ["A"; "B"]
    ≠ MBTAClient.shapes_cache_key ["A"; "B"; "A"].
Proof.
  split; [intros r; rewrite !elem_of_cons, elem_of_nil; tauto|].
  by vm_compute.
Qed.

(** ** SnapshotCache *)

(** [save_to_cache] never raises; it fails when the directory is
    unavailable or the file cannot be created, and otherwise replaces
    the file of the key. *)
Lemma save_to_cache_total isoformat cache_key data w :
  CacheManager.save_to_cache isoformat cache_key data w =
    if cache_dir_ok w && writable_name (cache_key +:+ ".json")
    then (inr true,
          {| cache_dir_ok := true;
             files := <[cache_key +:+ ".json" :=
                          {| st_mtime := clock w;
                             contents :=
                               Json (PyDict [("timestamp", PyStr (isoformat (clock w)));
                                             ("data", data)]) |}]> (files w);
             clock := clock w |})
    else (inr false, w).
Proof.
  unfold_io. unfold writable_name.
  destruct (cache_dir_ok w) eqn:Hdir; simpl; [|done].
  destruct (check_file_name (cache_key +:+ ".json")) as [e|[]]; simpl; [done|].
  by rewrite Hdir.
Qed.

(** [save_to_cache] never raises, whatever the key. *)
Lemma save_to_cache_returns isoformat cache_key data w :
  CacheManager.save_to_cache isoformat cache_key data w
  = (inr (cache_dir_ok w && writable_name (cache_key +:+ ".json")),
     (CacheManager.save_to_cache isoformat cache_key data w).2).
Proof. rewrite save_to_cache_total.
  by destruct (cache_dir_ok w && writable_name _). Qed.

(** [load_from_cache] never raises, leaves the world as it is, and
    returns the payload of a fresh, well-formed file and [None]
    otherwise. *)
Lemma load_from_cache_spec cache_key w :
  ∃ v, CacheManager.load_from_cache cache_key w = (inr v, w)
       ∧ match files w !! (cache_key +:+ ".json") with
         | None => v = PyNone
         | Some f =>
             if bool_decide
                  (cache_dir_ok w = true
                   ∧ (clock w - st_mtime f < CacheManager.timedelta_hours 168)%Z)
             then match contents f with
                  | Json (PyDict d) => v = default PyNone (items_get d "data")
                  | _ => v = PyNone
                  end
             else v = PyNone
         end.
Proof.
  unfold_io. destruct (cache_dir_ok w) eqn:Hdir.
  - destruct (files w !! (cache_key +:+ ".json")) as [f|] eqn:Hf; simpl;
      [|by exists PyNone].
    destruct (Z.ltb_spec (clock w - st_mtime f)
                (CacheManager.timedelta_hours CacheManager.CACHE_EXPIRY_HOURS))
      as [Hfresh|Hstale]; simpl.
    + rewrite Hf. rewrite bool_decide_eq_true_2 by done.
      destruct (contents f) as [|[| | | | |d]]; simpl; eauto.
    + rewrite bool_decide_eq_false_2; [by exists PyNone|].
      unfold CacheManager.CACHE_EXPIRY_HOURS in Hstale. lia.
  - exists PyNone. split; [done|].
    destruct (files w !! (cache_key +:+ ".json")); [|done].
    rewrite bool_decide_eq_false_2; [done|]. by intros [? _].
Qed.

(** C6, as the code has it.  [load_from_cache] never raises and leaves
    the world as it is.  It returns [None] if no file exists for the
    key, or the file's age is at least 168 hours, or the file does not
    parse as a JSON object (or the cache directory is unavailable);
    otherwise it returns what the file holds under ["data"], which is
    [None] when that key is missing or null.  So a value other than
    [None] is returned exactly when it is the payload of a file that
    exists, is younger than 168 hours and parses as a JSON object. *)
Theorem load_from_cache_total cache_key w :
  ∃ v, CacheManager.load_from_cache cache_key w = (inr v, w)
       ∧ match files w !! (cache_key +:+ ".json") with
         | None => v = PyNone
         | Some f =>
             if bool_decide
                  (cache_dir_ok w = true
                   ∧ (clock w - st_mtime f < CacheManager.timedelta_hours 168)%Z)
             then match contents f with
                  | Json (PyDict d) => v = default PyNone (items_get d "data")
                  | _ => v = PyNone
                  end
             else v = PyNone
         end
       ∧ (v ≠ PyNone ↔
          ∃ f d, cache_dir_ok w = true
                 ∧ files w !! (cache_key +:+ ".json") = Some f
                 ∧ (clock w - st_mtime f < CacheManager.timedelta_hours 168)%Z
                 ∧ contents f = Json (PyDict d)
                 ∧ items_get d "data" = Some v
                 ∧ v ≠ PyNone).
Proof.
  destruct (load_from_cache_spec cache_key w) as (v & Hrun & Hv).
  exists v. split; [done|]. split; [done|]. split.
  - intros Hsome.
    destruct (files w !! (cache_key +:+ ".json")) as [f|]; [|done].
    case_bool_decide as Hok; [|done]. destruct Hok as [Hdir Hage].
    destruct (contents f) as [|[| | | | |d]] eqn:Hc; try done.
    destruct (items_get d "data") as [v'|] eqn:Hd; simpl in Hv; [|congruence].
    subst v'. by exists f, d.
  - intros (f & d & Hdir & Hf & Hage & Hc & Hd & Hsome). done.
Qed.

(** C6, as stated, fails: [None] is also returned for a file whose age
    is exactly 168 hours, and for a fresh, well-formed file whose
    payload is null. *)
Lemma load_absent_iff_fails :
  ¬ load_absent_iff_as_stated "subway_lines" Examples.world_at_expiry
  ∧ ¬ load_absent_iff_as_stated "subway_lines" Examples.world_null_payload.
Proof.
  split; intros [Hnone _];
    destruct (Hnone ltac:(by vm_compute)) as [H|[(f & H & Hage)|(f & H & Hc)]];
    vm_compute in H; simplify_eq;
    try (by vm_compute in Hage); try (by vm_compute in Hc).
Qed.







(** ** RouteAggregator: partial failure *)

Section Aggregation.

Import MBTAClient.

Variable isoformat : Z → string.
Variable shapes_endpoint : string → PyExc + list Shape.

Lemma resolve_stamped route_id all_shapes :
  stamp route_id <$> resolve route_id all_shapes = resolve route_id all_shapes.
Proof.
  rewrite resolve_unfold.
  destruct (truthy all_shapes); simpl; [|done].
  case_match; rewrite <-list_fmap_compose; apply list_fmap_ext;
    intros ? s _; apply stamp_idem.
Qed.

Lemma gather_shapes route_ids w :
  gather_return_exceptions
    (get_shapes_for_route shapes_endpoint <$> route_ids) w
  = (inr ((λ r, match shapes_endpoint r with
                | inl e => inl e
                | inr all_shapes => inr (resolve r all_shapes)
                end) <$> route_ids), w).
Proof.
  induction route_ids as [|r l IH]; [done|].
  rewrite fmap_cons. cbn [gather_return_exceptions].
  unfold get_shapes_for_route at 1, _make_request_shapes, mbind, IO_bind.
  destruct (shapes_endpoint r) as [e|all_shapes] eqn:Hr; simpl;
    by rewrite IH, Hr.
Qed.

Lemma foldl_add_shape route_id acc l :
  foldl (add_shape route_id) acc l
  = (acc.1 ++ (stamp route_id <$> l),
     foldl (λ m s, <[id s := route_id]> m) acc.2 l).
Proof.
  revert acc; induction l as [|s l IH]; intros [shapes index]; simpl.
  - by rewrite app_nil_r.
  - rewrite IH. simpl. by rewrite <-app_assoc.
Qed.

Lemma foldl_index_values (route_id : string)
    (m : gmap (option string) string) (l : list Shape)
    (k : option string) (v : string) :
  foldl (λ m s, <[id s := route_id]> m) m l !! k = Some v →
  m !! k = Some v ∨ v = route_id.
Proof.
  revert m; induction l as [|s l IH]; intros m; simpl; [by left|].
  intros [Hm| ->]%IH; [|by right].
  simpl in Hm. destruct (decide (id s = k)) as [Heq|Hne].
  - subst k. rewrite lookup_insert_eq in Hm. right. congruence.
  - rewrite lookup_insert_ne in Hm by done. by left.
Qed.

Lemma foldl_process_result_data acc route_ids :
  (foldl process_result acc
     (zip route_ids
        ((λ r, match shapes_endpoint r with
               | inl e => inl e
               | inr all_shapes => inr (resolve r all_shapes)
               end) <$> route_ids))).1
  = acc.1 ++ (route_ids ≫= contribution shapes_endpoint).
Proof.
  revert acc; induction route_ids as [|r l IH]; intros acc; simpl.
  - by rewrite app_nil_r.
  - rewrite IH. unfold process_result, contribution; simpl.
    destruct (shapes_endpoint r) as [e|all_shapes]; [done|].
    rewrite foldl_add_shape. simpl.
    by rewrite resolve_stamped, app_assoc.
Qed.

Lemma foldl_process_result_index acc route_ids (k : option string) (v : string) :
  (foldl process_result acc
     (zip route_ids
        ((λ r, match shapes_endpoint r with
               | inl e => inl e
               | inr all_shapes => inr (resolve r all_shapes)
               end) <$> route_ids))).2 !! k = Some v →
  acc.2 !! k = Some v
  ∨ (v ∈ route_ids ∧ ∃ all_shapes, shapes_endpoint v = inr all_shapes).
Proof.
  revert acc; induction route_ids as [|r l IH]; intros acc; simpl; [by left|].
  intros [Hacc|[Hin Hok]]%IH; [|right; split; [by right|done]].
  unfold process_result in Hacc; simpl in Hacc.
  destruct (shapes_endpoint r) as [e|all_shapes] eqn:Hr; [by left|].
  rewrite foldl_add_shape in Hacc. simpl in Hacc.
  apply foldl_index_values in Hacc as [Hacc| ->]; [by left|].
  right. split; [by left|eauto].
Qed.

(** On a cache miss every route is asked, the routes that answered are
    merged in the order of the list, and nothing is raised. *)
Lemma get_all_shapes_for_routes_miss route_ids w :
  route_ids ≠ [] →
  (CacheManager.load_from_cache (shapes_cache_key route_ids) w).1 = inr PyNone →
  ∃ result w',
    get_all_shapes_for_routes isoformat shapes_endpoint route_ids w
      = (inr (Computed result), w')
    ∧ data result = route_ids ≫= contribution shapes_endpoint
    ∧ ∀ (k : option string) (v : string),
        shape_to_route result !! k = Some v →
        v ∈ route_ids ∧ ∃ all_shapes, shapes_endpoint v = inr all_shapes.
Proof.
  intros Hne Hmiss. unfold get_all_shapes_for_routes.
  destruct route_ids as [|r0 l0]; [done|]. cbn [truthy negb].
  set (route_ids := r0 :: l0) in *.
  destruct (load_from_cache_spec (shapes_cache_key route_ids) w)
    as (v & Hload & _).
  rewrite Hload in Hmiss. simpl in Hmiss. injection Hmiss as ->.
  unfold mbind at 1, IO_bind at 1. rewrite Hload.
  unfold mbind at 1, IO_bind at 1. rewrite gather_shapes.
  unfold mbind at 1, IO_bind at 1. rewrite save_to_cache_total.
  assert (∀ result, result =
            {| data := (foldl process_result ([], ∅)
                          (zip route_ids
                             ((λ r, match shapes_endpoint r with
                                    | inl e => inl e
                                    | inr all_shapes => inr (resolve r all_shapes)
                                    end) <$> route_ids))).1;
               shape_to_route := (foldl process_result ([], ∅)
                          (zip route_ids
                             ((λ r, match shapes_endpoint r with
                                    | inl e => inl e
                                    | inr all_shapes => inr (resolve r all_shapes)
                                    end) <$> route_ids))).2 |} →
          data result = route_ids ≫= contribution shapes_endpoint
          ∧ ∀ (k : option string) (v : string),
              shape_to_route result !! k = Some v →
              v ∈ route_ids ∧ ∃ all_shapes, shapes_endpoint v = inr all_shapes)
    as Hresult.
  { intros result ->. cbn [data shape_to_route]. split.
    - by rewrite foldl_process_result_data.
    - intros k v Hk.
      apply foldl_process_result_index in Hk as [Hk|Hk]; [|done].
      simpl in Hk. by rewrite lookup_empty in Hk. }
  destruct (cache_dir_ok w && writable_name _);
    (eexists _, _; split; [reflexivity|]); by apply Hresult.
Qed.

Lemma bind_ext_elem_of {A B} (f g : A → list B) (l : list A) :
  (∀ x, x ∈ l → f x = g x) → l ≫= f = l ≫= g.
Proof.
  induction l as [|x l IH]; intros Hfg; [done|].
  rewrite !bind_cons, (Hfg x) by (by left).
  f_equal. apply IH. intros y Hy. apply Hfg. by right.
Qed.

(** The aggregation never raises, whatever the routes and the state of
    the cache. *)
Lemma get_all_shapes_for_routes_never_raises route_ids w :
  ∃ response w',
    get_all_shapes_for_routes isoformat shapes_endpoint route_ids w
    = (inr response, w').
Proof.
  destruct route_ids as [|r0 l0]; [by eexists _, _|].
  destruct (load_from_cache_spec (shapes_cache_key (r0 :: l0)) w)
    as (v & Hload & _).
  destruct v.
  { destruct (get_all_shapes_for_routes_miss (r0 :: l0) w) as (r & w' & -> & _);
      [done|by rewrite Hload|by eexists _, _]. }
  all: unfold get_all_shapes_for_routes; cbn [truthy negb].
  all: unfold mbind at 1, IO_bind at 1; rewrite Hload.
  all: by eexists _, _.
Qed.

(** C5.  When the ids are A, B and C in any order, the cache has no
    valid entry for them, the task of C raises and those of A and B
    return, [get_all_shapes_for_routes] returns normally, its shapes are
    the resolved shapes of A and of B in the order of the list and
    nothing else, and its index names no other route. *)
Theorem partial_failure_isolated route_ids w e shapes_a shapes_b :
  route_ids ≡ₚ ["A"; "B"; "C"] →
  (CacheManager.load_from_cache (shapes_cache_key route_ids) w).1 = inr PyNone →
  shapes_endpoint "A" = inr shapes_a →
  shapes_endpoint "B" = inr shapes_b →
  shapes_endpoint "C" = inl e →
  ∃ result w',
    get_all_shapes_for_routes isoformat shapes_endpoint route_ids w
      = (inr (Computed result), w')
    ∧ data result
      = route_ids ≫= (λ r, if decide (r = "A") then resolve "A" shapes_a
                           else if decide (r = "B") then resolve "B" shapes_b
                           else [])
    ∧ data result ≡ₚ resolve "A" shapes_a ++ resolve "B" shapes_b
    ∧ ∀ (k : option string) (v : string),
        shape_to_route result !! k = Some v → v = "A" ∨ v = "B".
Proof.
  intros Hperm Hmiss Ha Hb Hc.
  destruct (get_all_shapes_for_routes_miss route_ids w)
    as (result & w' & Hrun & Hdata & Hindex); [|done|].
  { intros ->. by apply Permutation_nil_cons in Hperm. }
  assert (data result
          = route_ids ≫= (λ r, if decide (r = "A") then resolve "A" shapes_a
                               else if decide (r = "B") then resolve "B" shapes_b
                               else [])) as Hmerged.
  { rewrite Hdata. apply bind_ext_elem_of. intros r Hr.
    rewrite Hperm in Hr. unfold contribution.
    repeat (apply elem_of_cons in Hr as [->|Hr]); [| | |by apply elem_of_nil in Hr].
    - by rewrite Ha.
    - by rewrite Hb.
    - by rewrite Hc. }
  exists result, w'. split; [done|]. split; [done|]. split.
  - rewrite Hmerged, Hperm. simpl. by rewrite !app_nil_r.
  - intros k v [Hv [all_shapes Hok]]%Hindex. rewrite Hperm in Hv.
    repeat (apply elem_of_cons in Hv as [->|Hv]); [by left|by right| |].
    + congruence.
    + by apply elem_of_nil in Hv.
Qed.

End Aggregation.

Lemma partial_failure_isolated_witness :
  ∃ result w',
    MBTAClient.get_all_shapes_for_routes Examples.fixed_isoformat
      Examples.endpoint_C_down ["C"; "A"; "B"] Examples.empty_world
    = (inr (MBTAClient.Computed result), w')
    ∧ MBTAClient.data result
      = resolve "A" Examples.shapes_A ++ resolve "B" Examples.shapes_B.
Proof.
  destruct (partial_failure_isolated Examples.fixed_isoformat
              Examples.endpoint_C_down ["C"; "A"; "B"] Examples.empty_world
              TimeoutException Examples.shapes_A Examples.shapes_B)
    as (result & w' & Hrun & Hdata & _).
  - apply (bool_decide_unpack _). vm_compute. exact I.
  - vm_compute. reflexivity.
  - reflexivity.
  - reflexivity.
  - reflexivity.
  - exists result, w'. split; [exact Hrun|].
    rewrite Hdata. vm_compute. reflexivity.
Defined.

(** ** The length-ratio test on floats *)

Lemma agrees_up_to_spec (bound max_length min_length : nat) :
  Float64.agrees_up_to bound = true →
  min_length ≤ max_length → max_length ≤ bound →
  Float64.ge (Float64.float_ratio max_length min_length) Float64.threshold
  = Qle_bool (15 # 100) (length_diff_ratio max_length min_length).
Proof.
  intros Hall Hmin Hmax.
  unfold Float64.agrees_up_to in Hall.
  rewrite forallb_forall in Hall.
  specialize (Hall max_length). rewrite forallb_forall in Hall.
  apply Bool.eqb_prop, Hall; apply in_seq; lia.
Qed.

Lemma binary64_agrees_64 : Float64.agrees_up_to 64 = true.
Proof. vm_compute. reflexivity. Qed.

(** For all polyline lengths up to 64, comparing the binary64 quotient
    with the binary64 constant [0.15] gives the same answer as comparing
    the exact quotient with 15/100. *)
Lemma ratio_test_binary64 (max_length min_length : nat) :
  min_length ≤ max_length → max_length ≤ 64 →
  Float64.ge (Float64.float_ratio max_length min_length) Float64.threshold
  = Qle_bool (15 # 100) (length_diff_ratio max_length min_length).
Proof. apply agrees_up_to_spec, binary64_agrees_64. Qed.

(** * Further properties of the code *)

(** ** ShapeResolver: where the result comes from and how large it is *)

Lemma canonical_subset_elem x all_shapes :
  x ∈ canonical_subset all_shapes → x ∈ all_shapes ∧ is_canonical x.
Proof.
  intros Hx. eapply elem_of_sublist in Hx; [|apply dedup_loop_sublist].
  by apply list_elem_of_filter in Hx as [? ?].
Qed.

Lemma sort_desc_elem {A} (x : nat * A) l : x ∈ sort_desc l ↔ x ∈ l.
Proof. by rewrite sort_desc_perm. Qed.

Lemma sort_desc_nil_inv {A} (l : list (nat * A)) : sort_desc l = [] → l = [].
Proof.
  intros Hnil. pose proof (sort_desc_perm l) as Hperm.
  rewrite Hnil in Hperm. apply Permutation_length in Hperm.
  by destruct l.
Qed.

Lemma with_nonempty_length_elem x all_shapes :
  x ∈ with_nonempty_length all_shapes →
  x.2 ∈ all_shapes ∧ get_polyline x.2 ≠ "" ∧ x.1 = polyline_len x.2.
Proof.
  unfold with_nonempty_length. intros (s & Hs & Hx)%list_elem_of_omap.
  simpl in Hx. destruct (String.eqb_spec (get_polyline s) ""); [done|].
  by simplify_eq.
Qed.

Lemma fallback_elem is_red_line all_shapes canonical_shapes x :
  x ∈ fallback is_red_line all_shapes canonical_shapes →
  x ∈ canonical_shapes ∨ x ∈ all_shapes.
Proof.
  unfold fallback. repeat case_match; try by left.
  - intros [Hx|Hx%list_elem_of_singleton]%elem_of_app; [by left|right]. subst x.
    assert (s ∈ filter (λ s, id s ∉ (list_to_set (id <$> canonical_shapes)
                                       : gset (option string)))
                  (sort_desc (with_nonempty_length all_shapes)).*2) as Hs.
    { match goal with H : filter _ _ = _ |- _ => rewrite H end. by left. }
    apply list_elem_of_filter in Hs as [_ Hs].
    apply list_elem_of_fmap in Hs as (y & -> & Hy).
    rewrite sort_desc_elem in Hy. by apply with_nonempty_length_elem in Hy as [? _].
  - intros (y & -> & Hy)%list_elem_of_fmap. right.
    apply elem_of_take in Hy as (i & Hy%list_elem_of_lookup_2 & _).
    rewrite sort_desc_elem in Hy. by apply with_nonempty_length_elem in Hy as [? _].
Qed.

Lemma branch_or_direction_elem is_red_line l x :
  x ∈ branch_or_direction is_red_line l → x ∈ l.
Proof.
  intros Hx. eapply elem_of_submseteq; [exact Hx|].
  apply branch_or_direction_submseteq.
Qed.

(** X1.  Every record [resolve] returns is a shape of the input with
    the route id stamped into it: nothing is made up, and nothing comes
    back unstamped. *)
Theorem resolve_returns_stamped_inputs route_id all_shapes :
  Forall (λ x, ∃ s, s ∈ all_shapes ∧ x = stamp route_id s
                    ∧ default ∅ (attributes x) !! "_route_id" = Some route_id)
         (resolve route_id all_shapes).
Proof.
  assert (∀ l, (∀ s, s ∈ l → s ∈ all_shapes) →
               Forall (λ x, ∃ s, s ∈ all_shapes ∧ x = stamp route_id s
                     ∧ default ∅ (attributes x) !! "_route_id" = Some route_id)
                      (stamp route_id <$> l)) as Hstamp.
  { intros l Hl. apply Forall_fmap, Forall_forall. intros s Hs.
    exists s. split; [by apply Hl|]. split; [done|apply stamp_route_id]. }
  rewrite resolve_unfold.
  destruct (truthy all_shapes); simpl; [|constructor].
  case_match; apply Hstamp.
  - intros s Hs. by apply canonical_subset_elem in Hs as [? _].
  - intros s Hs%branch_or_direction_elem.
    eapply elem_of_sublist in Hs; [|apply dedup_loop_sublist].
    apply fallback_elem in Hs as [Hs|Hs]; [|done].
    by apply canonical_subset_elem in Hs as [? _].
Qed.

Lemma branch_or_direction_length is_red_line l :
  length (branch_or_direction is_red_line l) ≤ length l.
Proof. apply submseteq_length, branch_or_direction_submseteq. Qed.

Lemma branch_or_direction_not_red_length l :
  length (branch_or_direction false l) ≤ 3.
Proof.
  unfold branch_or_direction.
  destruct (Nat.ltb_spec 1 (length l)) as [Hlong|Hshort]; [|lia].
  rewrite length_fmap, sort_desc_perm.
  unfold with_length. rewrite length_fmap.
  destruct (Nat.leb_spec 2 (length l)); [|lia].
  case_match; rewrite length_fmap, length_take; lia.
Qed.

Lemma branch_or_direction_nonempty is_red_line l :
  l ≠ [] → branch_or_direction is_red_line l ≠ [].
Proof.
  intros Hl. unfold branch_or_direction.
  destruct (Nat.ltb_spec 1 (length l)) as [Hlong|Hshort]; [|done].
  assert (length (sort_desc (with_length l)) = length l) as Hlen.
  { rewrite sort_desc_perm. unfold with_length. by rewrite length_fmap. }
  assert (∀ k, 0 < k → snd <$> take k (sort_desc (with_length l)) ≠ []) as Htake.
  { intros k Hk Hnil. apply (f_equal length) in Hnil.
    rewrite length_fmap, length_take, Hlen in Hnil. simpl in Hnil. lia. }
  repeat case_match; try (apply Htake; lia).
  intros Hnil. apply (f_equal length) in Hnil.
  rewrite length_fmap, Hlen in Hnil. simpl in Hnil. lia.
Qed.

Lemma fallback_nonempty is_red_line all_shapes canonical_shapes :
  canonical_shapes ≠ [] →
  fallback is_red_line all_shapes canonical_shapes ≠ [].
Proof.
  intros Hc. unfold fallback.
  destruct canonical_shapes as [|c cs]; [done|]. cbn [truthy negb orb].
  repeat case_match; try done.
Qed.

Lemma fallback_no_canonical is_red_line all_shapes :
  fallback is_red_line all_shapes []
  = snd <$> take 2 (sort_desc (with_nonempty_length all_shapes)).
Proof.
  unfold fallback. cbn [truthy negb length]. rewrite orb_true_r.
  destruct (sort_desc (with_nonempty_length all_shapes)) as [|x [|y l]]; done.
Qed.

Lemma canonical_subset_nil all_shapes :
  canonical_subset all_shapes = [] ↔ Forall (λ s, ¬ is_canonical s) all_shapes.
Proof.
  unfold canonical_subset. split.
  - intros Hnil%dedup_loop_empty_inv. apply Forall_forall. intros s Hs Hcan.
    exact (filter_nil_not_elem_of _ _ s Hnil Hcan Hs).
  - intros Hall. rewrite filter_none; [done|].
    intros s Hs. rewrite Forall_forall in Hall. by apply Hall.
Qed.

Lemma with_nonempty_length_nil all_shapes :
  with_nonempty_length all_shapes = []
  ↔ Forall (λ s, get_polyline s = "") all_shapes.
Proof.
  unfold with_nonempty_length.
  induction all_shapes as [|s l IH]; [by split; [constructor|]|].
  simpl. destruct (String.eqb_spec (get_polyline s) "") as [Hp|Hp].
  - rewrite IH. split; [by constructor|by intros [_ ?]%Forall_cons].
  - split; [done|]. by intros [? _]%Forall_cons.
Qed.

Lemma resolve_nonempty_of_canonical route_id all_shapes :
  canonical_subset all_shapes ≠ [] → resolve route_id all_shapes ≠ [].
Proof.
  intros Hne. rewrite resolve_unfold.
  destruct all_shapes as [|s0 l0]; [done|]. cbn [truthy negb]. cbv zeta.
  set (all_shapes := s0 :: l0) in *.
  intros Hnil. case_match.
  - by apply fmap_nil_inv in Hnil.
  - apply fmap_nil_inv in Hnil. revert Hnil.
    apply branch_or_direction_nonempty.
    intros Hd%dedup_loop_empty_inv. revert Hd. by apply fallback_nonempty.
Qed.

(** X2.  [resolve] returns nothing exactly when the input has no
    canonical shape and no shape with a non-empty polyline; in
    particular on the empty input. *)
Theorem resolve_empty_iff route_id all_shapes :
  resolve route_id all_shapes = []
  ↔ Forall (λ s, ¬ is_canonical s ∧ get_polyline s = "") all_shapes.
Proof.
  rewrite Forall_and, <-canonical_subset_nil, <-with_nonempty_length_nil.
  rewrite resolve_unfold.
  destruct all_shapes as [|s0 l0]; [done|]. cbn [truthy negb]. cbv zeta.
  set (all_shapes := s0 :: l0).
  destruct (canonical_subset all_shapes) as [|c cs] eqn:Hc.
  - cbn [truthy andb]. rewrite fallback_no_canonical. split.
    + intros Hnil%fmap_nil_inv. split; [done|].
      destruct (sort_desc (with_nonempty_length all_shapes)) as [|x l] eqn:Hs.
      * by apply sort_desc_nil_inv.
      * destruct (decide (dedup_stripped (snd <$> take 2 (x :: l)) = []))
          as [Hd|Hd].
        { by apply dedup_loop_empty_inv in Hd. }
        by apply (branch_or_direction_nonempty
                    (bool_decide (route_id = "Red"))) in Hd.
    + intros [_ ->]. done.
  - split; [|by intros [? _]].
    intros Hnil. exfalso. case_match.
    + by apply fmap_nil_inv in Hnil.
    + apply fmap_nil_inv in Hnil. revert Hnil.
      apply branch_or_direction_nonempty.
      intros Hd%dedup_loop_empty_inv. revert Hd. by apply fallback_nonempty.
Qed.

(** X3.  For a route other than Red, [resolve] never returns more than
    three records. *)
Theorem resolve_not_red_at_most_three route_id all_shapes :
  route_id ≠ "Red" → length (resolve route_id all_shapes) ≤ 3.
Proof.
  intros Hred. rewrite resolve_unfold.
  destruct (truthy all_shapes); simpl; [|lia].
  rewrite bool_decide_eq_false_2 by done. rewrite andb_false_r. cbn [andb].
  rewrite length_fmap. apply branch_or_direction_not_red_length.
Qed.

Lemma resolve_not_red_at_most_three_witness :
  length (resolve "99" Examples.route_99_shapes) ≤ 3.
Proof. apply resolve_not_red_at_most_three. discriminate. Defined.

(** X4.  For route Red, when fewer than two different canonical ids are
    present, [resolve] returns at most two records: the stage that
    would keep the five longest never sees more than two. *)
Theorem resolve_red_without_branches all_shapes :
  length (canonical_subset all_shapes) < 2 →
  length (resolve "Red" all_shapes) ≤ 2.
Proof.
  intros Hlen. rewrite resolve_unfold.
  destruct (truthy all_shapes); cbn [negb]; [|simpl; lia]. cbv zeta.
  destruct (Nat.leb_spec 2 (length (canonical_subset all_shapes))); [lia|].
  rewrite andb_false_r. rewrite length_fmap.
  etrans; [apply branch_or_direction_length|].
  etrans; [apply sublist_length, dedup_loop_sublist|].
  destruct (canonical_subset all_shapes) as [|c [|c' cs]] eqn:Hc.
  - rewrite fallback_no_canonical, length_fmap, length_take. lia.
  - rewrite fallback_keeps_few by (simpl; done || lia). simpl. lia.
  - simpl in Hlen. lia.
Qed.

Lemma resolve_red_without_branches_witness :
  length (resolve "Red" Examples.one_canonical_shapes) ≤ 2
  ∧ length (resolve "Red" Examples.route_99_shapes) ≤ 2.
Proof.
  split; apply resolve_red_without_branches; vm_compute; lia.
Defined.

(** X5.  When the input has one or two different canonical ids, only
    canonical shapes are returned, whatever the non-canonical shapes
    and their lengths; and something is returned. *)
Theorem resolve_prefers_canonical route_id all_shapes :
  canonical_subset all_shapes ≠ [] →
  length (canonical_subset all_shapes) ≤ 2 →
  resolve route_id all_shapes ≠ []
  ∧ Forall (λ x, is_canonical x
                 ∧ ∃ c, c ∈ canonical_subset all_shapes ∧ x = stamp route_id c)
           (resolve route_id all_shapes).
Proof.
  intros Hne Hlen. split.
  { by apply resolve_nonempty_of_canonical. }
  assert (∀ l, (∀ s, s ∈ l → s ∈ canonical_subset all_shapes) →
               Forall (λ x, is_canonical x
                 ∧ ∃ c, c ∈ canonical_subset all_shapes ∧ x = stamp route_id c)
                 (stamp route_id <$> l)) as Hstamp.
  { intros l Hl. apply Forall_fmap, Forall_forall. intros s Hs. simpl.
    split; [|by exists s; split; [apply Hl|]].
    apply Hl in Hs. by apply canonical_subset_elem in Hs as [_ ?]. }
  rewrite resolve_unfold.
  destruct (truthy all_shapes); cbn [negb]; [|constructor]. cbv zeta.
  case_match; apply Hstamp; [done|].
  rewrite fallback_keeps_few by done.
  intros s Hs%branch_or_direction_elem.
  by eapply elem_of_sublist in Hs; [|apply dedup_loop_sublist].
Qed.

Lemma resolve_prefers_canonical_witness :
  Forall (λ x, is_canonical x
               ∧ ∃ c, c ∈ canonical_subset Examples.one_canonical_shapes
                      ∧ x = stamp "Blue" c)
         (resolve "Blue" Examples.one_canonical_shapes).
Proof.
  refine (proj2 (resolve_prefers_canonical "Blue"
                   Examples.one_canonical_shapes _ _)).
  - vm_compute. discriminate.
  - vm_compute. lia.
Defined.

(** X6.  Branch split.  For a route other than Red, two canonical
    shapes with different deduplication keys whose lengths differ by
    15% of the longer or more are both returned, the longer first. *)
Theorem resolve_branch_split route_id s1 s2 :
  route_id ≠ "Red" →
  is_canonical s1 → is_canonical s2 →
  dedup_id s1 ≠ dedup_id s2 →
  0 < polyline_len s1 `max` polyline_len s2 →
  3 * (polyline_len s1 `max` polyline_len s2)
    ≤ 20 * (polyline_len s1 `max` polyline_len s2
            - polyline_len s1 `min` polyline_len s2) →
  resolve route_id [s1; s2]
  = if polyline_len s1 <? polyline_len s2
    then [stamp route_id s2; stamp route_id s1]
    else [stamp route_id s1; stamp route_id s2].
Proof.
  intros Hred Hc1 Hc2 Hkey Hpos Hlen.
  assert (get_id s1 ≠ get_id s2) as Hid.
  { intros Heq. apply Hkey. unfold dedup_id. by rewrite Heq. }
  rewrite resolve_unfold. cbn [truthy negb]. cbv zeta.
  assert (canonical_subset [s1; s2] = [s1; s2]) as ->.
  { unfold canonical_subset.
    rewrite !filter_cons_True by done.
    apply dedup_loop_fixed; [|set_solver].
    simpl. apply NoDup_cons_2; [|apply NoDup_singleton].
    by intros ?%list_elem_of_singleton. }
  rewrite bool_decide_eq_false_2 by done.
  rewrite andb_false_r. cbn [andb].
  rewrite fallback_keeps_few by (simpl; done || lia).
  assert (dedup_stripped [s1; s2] = [s1; s2]) as ->.
  { apply dedup_loop_fixed; [|set_solver].
    simpl. apply NoDup_cons_2; [|apply NoDup_singleton].
    by intros ?%list_elem_of_singleton. }
  rewrite branch_or_direction_pair. cbv zeta.
  destruct (Nat.ltb_spec (polyline_len s1) (polyline_len s2)) as [Hlt|Hge].
  - rewrite (proj2 (ratio_test (polyline_len s2) (polyline_len s1) ltac:(lia)));
      [done|lia].
  - rewrite (proj2 (ratio_test (polyline_len s1) (polyline_len s2) ltac:(lia)));
      [done|lia].
Qed.

Lemma resolve_branch_split_witness :
  resolve "Green-B"
    [shape_of "canonical-8000012" (polyline_of_length 12);
     shape_of "canonical-8000013" (polyline_of_length 20)]
  = [stamp "Green-B" (shape_of "canonical-8000013" (polyline_of_length 20));
     stamp "Green-B" (shape_of "canonical-8000012" (polyline_of_length 12))].
Proof.
  apply (resolve_branch_split "Green-B"
           (shape_of "canonical-8000012" (polyline_of_length 12))
           (shape_of "canonical-8000013" (polyline_of_length 20)));
    vm_compute; (discriminate || reflexivity || lia || tauto).
Defined.

(** ** SnapshotCache: clearing, overwriting, expiry *)

Lemma append_length (s t : string) :
  String.length (s +:+ t) = String.length s + String.length t.
Proof.
  induction s as [|c s IH]; [done|].
  change (String c s +:+ t) with (String c (s +:+ t)).
  cbn [String.length]. by rewrite IH.
Qed.

Lemma append_inj_l (s1 s2 t : string) : s1 +:+ t = s2 +:+ t → s1 = s2.
Proof.
  revert s2. induction s1 as [|c s1 IH]; intros [|c2 s2] Heq.
  - done.
  - apply (f_equal String.length) in Heq.
    rewrite !append_length in Heq. simpl in Heq. lia.
  - apply (f_equal String.length) in Heq.
    rewrite !append_length in Heq. simpl in Heq. lia.
  - change (String c (s1 +:+ t) = String c2 (s2 +:+ t)) in Heq.
    injection Heq as -> Heq. f_equal. by apply IH.
Qed.

Lemma cache_file_inj (k1 k2 : string) : k1 +:+ ".json" = k2 +:+ ".json" → k1 = k2.
Proof. apply append_inj_l. Qed.

Lemma ends_with_append (k suffix : string) : ends_with suffix (k +:+ suffix) = true.
Proof.
  induction k as [|c k IH].
  - change ("" +:+ suffix) with suffix.
    destruct suffix; simpl; by rewrite ?String.eqb_refl, ?Ascii.eqb_refl.
  - change (String c k +:+ suffix) with (String c (k +:+ suffix)).
    cbn [ends_with]. rewrite IH. by case_match.
Qed.

Lemma has_char_append (c : ascii) (s t : string) :
  has_char c (s +:+ t) = has_char c s || has_char c t.
Proof.
  induction s as [|c' s IH]; [done|].
  change (String c' s +:+ t) with (String c' (s +:+ t)).
  cbn [has_char]. rewrite IH. by case_match.
Qed.

(** What [load_from_cache] returns depends only on the directory, the
    clock and the file of the key. *)
Lemma load_from_cache_local cache_key w1 w2 :
  cache_dir_ok w1 = cache_dir_ok w2 →
  clock w1 = clock w2 →
  files w1 !! (cache_key +:+ ".json") = files w2 !! (cache_key +:+ ".json") →
  (CacheManager.load_from_cache cache_key w1).1
  = (CacheManager.load_from_cache cache_key w2).1.
Proof.
  intros Hdir Hclock Hfile.
  destruct (load_from_cache_spec cache_key w1) as (v1 & -> & Hv1).
  destruct (load_from_cache_spec cache_key w2) as (v2 & -> & Hv2).
  simpl. f_equal. rewrite <-Hfile, <-Hdir, <-Hclock in Hv2.
  destruct (files w1 !! (cache_key +:+ ".json")) as [f|]; [|congruence].
  case_bool_decide; [|congruence].
  destruct (contents f) as [|[| | | | |d]]; congruence.
Qed.

Lemma load_from_cache_no_file cache_key w :
  files w !! (cache_key +:+ ".json") = None →
  CacheManager.load_from_cache cache_key w = (inr PyNone, w).
Proof.
  intros Hf. destruct (load_from_cache_spec cache_key w) as (v & -> & Hv).
  rewrite Hf in Hv. by subst.
Qed.

Lemma load_from_cache_dir_down cache_key w :
  cache_dir_ok w = false →
  CacheManager.load_from_cache cache_key w = (inr PyNone, w).
Proof.
  intros Hdir. destruct (load_from_cache_spec cache_key w) as (v & -> & Hv).
  destruct (files w !! (cache_key +:+ ".json")); [|by subst].
  rewrite bool_decide_eq_false_2 in Hv; [by subst|].
  rewrite Hdir. by intros [? _].
Qed.

Lemma clear_cache_key_run cache_key w :
  cache_key ≠ "" →
  CacheClear.clear_cache (Some cache_key) w
  = if cache_dir_ok w
    then (inr true,
          {| cache_dir_ok := true;
             files := delete (cache_key +:+ ".json") (files w);
             clock := clock w |})
    else (inr false, w).
Proof.
  intros Hkey. destruct cache_key as [|c k]; [done|].
  unfold CacheClear.clear_cache, CacheClear.unlink_if_exists,
    CacheClear.path_exists, CacheClear.unlink. unfold_io. simpl.
  destruct w as [dir fs now]. cbn [files cache_dir_ok clock].
  destruct dir; [|done].
  destruct (fs !! (String c k +:+ ".json")) as [f|] eqn:Hf;
    cbn [files cache_dir_ok clock]; rewrite Hf.
  - rewrite bool_decide_eq_true_2 by eauto.
    cbn [files cache_dir_ok clock]. by rewrite Hf.
  - rewrite bool_decide_eq_false_2 by (by intros [? ?]).
    by rewrite delete_id.
Qed.

(** X7.  [clear_cache(key)] with a non-empty key whose file is an
    entry of the directory (no [/], no NUL character, at most 255
    bytes) never raises.  It reports whether the cache directory was
    available; afterwards [load_from_cache(key)] gives [None], and what
    any other such key loads is unchanged. *)
Theorem clear_cache_key_then_load cache_key w :
  cache_key ≠ "" →
  plain_key cache_key = true →
  ∃ w', CacheClear.clear_cache (Some cache_key) w = (inr (cache_dir_ok w), w')
        ∧ CacheManager.load_from_cache cache_key w' = (inr PyNone, w')
        ∧ ∀ other, plain_key other = true → other ≠ cache_key →
            (CacheManager.load_from_cache other w').1
            = (CacheManager.load_from_cache other w).1.
Proof.
  intros Hkey _. rewrite clear_cache_key_run by done.
  destruct (cache_dir_ok w) eqn:Hdir.
  - eexists. split; [reflexivity|]. split.
    + apply load_from_cache_no_file. simpl. apply lookup_delete_eq.
    + intros other _ Hother. apply load_from_cache_local; simpl; [done..|].
      apply lookup_delete_ne. by intros ?%cache_file_inj.
  - exists w. split; [done|]. split; [by apply load_from_cache_dir_down|done].
Qed.

Lemma clear_cache_key_then_load_witness :
  ∃ w', CacheClear.clear_cache (Some "subway_lines") Examples.world_at_expiry
        = (inr true, w')
        ∧ CacheManager.load_from_cache "subway_lines" w' = (inr PyNone, w').
Proof.
  destruct (clear_cache_key_then_load "subway_lines" Examples.world_at_expiry)
    as (w' & Hrun & Hload & _); [discriminate|reflexivity|].
  by exists w'.
Defined.

Lemma for_each_unlink (names : list string) w :
  NoDup names →
  (∀ name, name ∈ names → is_Some (files w !! name)) →
  ∃ w', CacheClear.for_each names CacheClear.unlink w = (inr (), w')
        ∧ cache_dir_ok w' = cache_dir_ok w
        ∧ clock w' = clock w
        ∧ ∀ name, files w' !! name
                  = if decide (name ∈ names) then None else files w !! name.
Proof.
  revert w. induction names as [|n names IH]; intros w Hnd Hin.
  - by exists w.
  - apply NoDup_cons in Hnd as [Hn Hnd].
    destruct (Hin n) as [f Hf]; [by left|].
    cbn [CacheClear.for_each]. unfold mbind, IO_bind, CacheClear.unlink at 1.
    rewrite Hf.
    destruct (IH {| cache_dir_ok := cache_dir_ok w;
                    files := delete n (files w);
                    clock := clock w |} Hnd)
      as (w' & -> & Hdir & Hclock & Hfiles).
    { intros name Hname. simpl. rewrite lookup_delete_ne; [|set_solver].
      apply Hin. by right. }
    exists w'. split; [done|]. split; [done|]. split; [done|].
    intros name. rewrite Hfiles. simpl.
    destruct (decide (name = n)) as [->|Hne].
    + rewrite lookup_delete_eq. rewrite (decide_True (P := n ∈ n :: names));
        [by case_decide|by left].
    + rewrite lookup_delete_ne by done.
      destruct (decide (name ∈ names)) as [Hin'|Hin'].
      * by rewrite decide_True by (by right).
      * rewrite decide_False; [done|].
        by intros [?|?]%elem_of_cons.
Qed.

(** X8.  [clear_cache()] without a key, and also [clear_cache("")],
    whose key counts as absent, never raises and removes every file of
    the cache directory that ends in [.json]: afterwards every key that
    names a file of the directory itself loads as [None], and files
    with other names are left alone. *)
Theorem clear_cache_all_then_load cache_key w :
  CacheClear.truthy_key cache_key = false →
  ∃ w', CacheClear.clear_cache cache_key w = (inr (cache_dir_ok w), w')
        ∧ (∀ k, has_char "/"%char k = false →
                CacheManager.load_from_cache k w' = (inr PyNone, w'))
        ∧ (∀ name, CacheClear.matches_json name = false →
                   files w' !! name = files w !! name).
Proof.
  intros Hkey. unfold CacheClear.clear_cache. rewrite Hkey.
  unfold CacheClear.glob_json. unfold_io.
  destruct (cache_dir_ok w) eqn:Hdir.
  - set (names := filter (λ name, CacheClear.matches_json name)
                    (map_to_list (files w)).*1).
    destruct (for_each_unlink names w) as (w' & Hrun & Hdir' & Hclock & Hfiles).
    { apply NoDup_filter, NoDup_fst_map_to_list. }
    { intros name [_ Hname]%list_elem_of_filter.
      apply list_elem_of_fmap in Hname as ([n f] & -> & Hnf).
      apply elem_of_map_to_list in Hnf. by exists f. }
    rewrite Hrun. exists w'. split; [done|]. split.
    + intros k Hk. apply load_from_cache_no_file. rewrite Hfiles.
      case_decide as Hin; [done|].
      destruct (files w !! (k +:+ ".json")) as [f|] eqn:Hf; [|done].
      exfalso. apply Hin. apply list_elem_of_filter. split.
      * unfold CacheClear.matches_json.
        rewrite ends_with_append, has_char_append, Hk. done.
      * apply list_elem_of_fmap. exists (k +:+ ".json", f). split; [done|].
        by apply elem_of_map_to_list.
    + intros name Hname. rewrite Hfiles. case_decide as Hin; [|done].
      apply list_elem_of_filter in Hin as [Hin _]. by rewrite Hname in Hin.
  - exists w. split; [done|]. split; [|done].
    intros k _. by apply load_from_cache_dir_down.
Qed.

Lemma clear_cache_all_then_load_witness :
  ∃ w', CacheClear.clear_cache (Some "") Examples.world_at_expiry = (inr true, w')
        ∧ CacheManager.load_from_cache "subway_lines" w' = (inr PyNone, w').
Proof.
  destruct (clear_cache_all_then_load (Some "") Examples.world_at_expiry)
    as (w' & Hrun & Hload & _); [reflexivity|].
  exists w'. split; [exact Hrun|]. apply Hload. reflexivity.
Defined.

(** X9.  [save_to_cache(key, v)] touches the entry of [key] only:
    for keys whose files are entries of the directory (no [/], no NUL
    character, at most 255 bytes), what any other key loads is the same
    before and after, whether the save succeeds or not. *)
Theorem save_to_cache_frame isoformat cache_key v other w :
  plain_key cache_key = true →
  plain_key other = true →
  other ≠ cache_key →
  (CacheManager.load_from_cache other
     (CacheManager.save_to_cache isoformat cache_key v w).2).1
  = (CacheManager.load_from_cache other w).1.
Proof.
  intros _ _ Hother. rewrite save_to_cache_total.
  case_match; [|done].
  apply load_from_cache_local; simpl; [|done|].
  - by destruct (cache_dir_ok w).
  - apply lookup_insert_ne. by intros ?%cache_file_inj.
Qed.

Lemma save_to_cache_frame_witness :
  (CacheManager.load_from_cache "subway_lines"
     (CacheManager.save_to_cache Examples.fixed_isoformat "all_subway_routes"
        (PyList []) Examples.world_null_payload).2).1
  = (CacheManager.load_from_cache "subway_lines" Examples.world_null_payload).1.
Proof. apply save_to_cache_frame; [reflexivity|reflexivity|discriminate]. Defined.

(** A save succeeds exactly when the directory is available and the
    file of the key can be created. *)
Lemma save_to_cache_succeeds isoformat cache_key v w w' :
  CacheManager.save_to_cache isoformat cache_key v w = (inr true, w') →
  cache_dir_ok w = true ∧ plain_key cache_key = true
  ∧ w' = (CacheManager.save_to_cache isoformat cache_key v w).2.
Proof.
  intros Hsave. rewrite Hsave. rewrite save_to_cache_total in Hsave.
  destruct (cache_dir_ok w); [|done]. unfold plain_key.
  by destruct (writable_name (cache_key +:+ ".json")).
Qed.

(** What a load finds at the instant [t] after a save that succeeded:
    the payload while the local clock reads less than 168 hours more
    than it read at the save. *)
Lemma load_saved_entry isoformat utcoffset cache_key v w t :
  cache_dir_ok w = true →
  plain_key cache_key = true →
  CacheManager.load_from_cache cache_key
    (at_instant utcoffset t (CacheManager.save_to_cache isoformat cache_key v w).2)
  = (inr (if (local_time utcoffset t - clock w
              <? CacheManager.timedelta_hours 168)%Z
          then v else PyNone),
     at_instant utcoffset t (CacheManager.save_to_cache isoformat cache_key v w).2).
Proof.
  intros Hdir Hkey. unfold plain_key in Hkey.
  rewrite save_to_cache_total, Hdir, Hkey. cbn [andb snd].
  match goal with
  | |- CacheManager.load_from_cache _ ?w0 = _ =>
      destruct (load_from_cache_spec cache_key w0) as (v' & -> & Hv')
  end.
  simpl in Hv'. rewrite lookup_insert_eq in Hv'. cbn [st_mtime contents] in Hv'.
  destruct (Z.ltb_spec (local_time utcoffset t - clock w)
              (CacheManager.timedelta_hours 168)) as [Hlt|Hge].
  - rewrite bool_decide_eq_true_2 in Hv' by done. simpl in Hv'. by subst.
  - rewrite bool_decide_eq_false_2 in Hv' by (intros [_ ?]; lia). by subst.
Qed.

(** X10.  The age of an entry is the difference of two readings of the
    naive local clock.  After a successful save at the instant [t0], a
    load at the instant [t1] returns the payload if the time passed
    plus the change of the UTC offset is below 168 hours, and [None]
    otherwise.  With the same offset at both instants the entry is gone
    once 168 hours have passed; where the offset has dropped in between
    (daylight saving has ended) it is still served then. *)
Theorem saved_entry_expires isoformat utcoffset cache_key v w w' t0 t1 :
  clock w = local_time utcoffset t0 →
  CacheManager.save_to_cache isoformat cache_key v w = (inr true, w') →
  CacheManager.load_from_cache cache_key (at_instant utcoffset t1 w')
  = (inr (if ((t1 - t0) + (utcoffset t1 - utcoffset t0)
              <? CacheManager.timedelta_hours 168)%Z
          then v else PyNone),
     at_instant utcoffset t1 w').
Proof.
  intros Hclock (Hdir & Hkey & ->)%save_to_cache_succeeds.
  rewrite load_saved_entry by done. rewrite Hclock. unfold local_time.
  replace (t1 + utcoffset t1 - (t0 + utcoffset t0))%Z
    with (t1 - t0 + (utcoffset t1 - utcoffset t0))%Z by lia.
  done.
Qed.

Lemma saved_entry_expires_witness :
  ∃ w', CacheManager.save_to_cache Examples.fixed_isoformat "subway_lines"
          (PyList [PyStr "line-Red"]) FurtherExamples.world_at_save
        = (inr true, w')
        ∧ CacheManager.load_from_cache "subway_lines"
            (at_instant FurtherExamples.new_york
               (FurtherExamples.saved_at + 168 * FurtherExamples.hour) w')
          = (inr (PyList [PyStr "line-Red"]),
             at_instant FurtherExamples.new_york
               (FurtherExamples.saved_at + 168 * FurtherExamples.hour) w')
        ∧ CacheManager.load_from_cache "subway_lines"
            (at_instant FurtherExamples.new_york
               (FurtherExamples.saved_at + 169 * FurtherExamples.hour) w')
          = (inr PyNone,
             at_instant FurtherExamples.new_york
               (FurtherExamples.saved_at + 169 * FurtherExamples.hour) w')
        ∧ CacheManager.load_from_cache "subway_lines"
            (at_instant FurtherExamples.utc
               (clock Examples.empty_world + 168 * FurtherExamples.hour)
               (CacheManager.save_to_cache Examples.fixed_isoformat
                  "subway_lines" (PyList [PyStr "line-Red"])
                  Examples.empty_world).2)
          = (inr PyNone,
             at_instant FurtherExamples.utc
               (clock Examples.empty_world + 168 * FurtherExamples.hour)
               (CacheManager.save_to_cache Examples.fixed_isoformat
                  "subway_lines" (PyList [PyStr "line-Red"])
                  Examples.empty_world).2).
Proof.
  eexists. split; [vm_compute; reflexivity|]. split; [|split].
  - rewrite (saved_entry_expires Examples.fixed_isoformat
               FurtherExamples.new_york "subway_lines"
               (PyList [PyStr "line-Red"]) FurtherExamples.world_at_save _
               FurtherExamples.saved_at
               (FurtherExamples.saved_at + 168 * FurtherExamples.hour));
      [reflexivity|reflexivity|vm_compute; reflexivity].
  - rewrite (saved_entry_expires Examples.fixed_isoformat
               FurtherExamples.new_york "subway_lines"
               (PyList [PyStr "line-Red"]) FurtherExamples.world_at_save _
               FurtherExamples.saved_at
               (FurtherExamples.saved_at + 169 * FurtherExamples.hour));
      [reflexivity|reflexivity|vm_compute; reflexivity].
  - rewrite (saved_entry_expires Examples.fixed_isoformat
               FurtherExamples.utc "subway_lines"
               (PyList [PyStr "line-Red"]) Examples.empty_world _
               (clock Examples.empty_world)
               (clock Examples.empty_world + 168 * FurtherExamples.hour)).
    + vm_compute. reflexivity.
    + reflexivity.
    + vm_compute. reflexivity.
Defined.

(** ** RouteAggregator: what is cached and what the index holds *)

Section AggregationMore.

Import MBTAClient.

Variable isoformat : Z → string.
Variable shapes_endpoint : string → PyExc + list Shape.

(** The whole run on a cache miss. *)
Lemma get_all_shapes_for_routes_run route_ids w :
  route_ids ≠ [] →
  (CacheManager.load_from_cache (shapes_cache_key route_ids) w).1 = inr PyNone →
  get_all_shapes_for_routes isoformat shapes_endpoint route_ids w
  = (inr (Computed (merge_results shapes_endpoint route_ids)),
     (CacheManager.save_to_cache isoformat (shapes_cache_key route_ids)
        (result_to_json (merge_results shapes_endpoint route_ids)) w).2).
Proof.
  intros Hne Hmiss. unfold get_all_shapes_for_routes.
  destruct route_ids as [|r0 l0]; [done|]. cbn [truthy negb].
  set (route_ids := r0 :: l0) in *.
  destruct (load_from_cache_spec (shapes_cache_key route_ids) w)
    as (v & Hload & _).
  rewrite Hload in Hmiss. simpl in Hmiss. injection Hmiss as ->.
  unfold mbind at 1, IO_bind at 1. rewrite Hload.
  unfold mbind at 1, IO_bind at 1. rewrite gather_shapes.
  unfold mbind at 1, IO_bind at 1.
  fold (task_outcomes shapes_endpoint route_ids).
  change {| data := (foldl process_result ([], ∅)
                       (zip route_ids (task_outcomes shapes_endpoint route_ids))).1;
            shape_to_route := (foldl process_result ([], ∅)
                       (zip route_ids (task_outcomes shapes_endpoint route_ids))).2 |}
    with (merge_results shapes_endpoint route_ids).
  rewrite save_to_cache_total.
  by destruct (cache_dir_ok w && writable_name _).
Qed.

(** A run that computed its result went through the merge. *)
Lemma get_all_shapes_for_routes_computed route_ids w result w' :
  get_all_shapes_for_routes isoformat shapes_endpoint route_ids w
  = (inr (Computed result), w') →
  result = merge_results shapes_endpoint route_ids
  ∧ (route_ids ≠ [] →
     (CacheManager.load_from_cache (shapes_cache_key route_ids) w).1 = inr PyNone).
Proof.
  intros Hrun. destruct route_ids as [|r0 l0].
  { injection Hrun as <- _. done. }
  destruct (load_from_cache_spec (shapes_cache_key (r0 :: l0)) w)
    as (v & Hload & _).
  destruct v.
  { rewrite get_all_shapes_for_routes_run in Hrun by (done || by rewrite Hload).
    injection Hrun as <- _. split; [done|]. by rewrite Hload. }
  all: unfold get_all_shapes_for_routes in Hrun; cbn [truthy negb] in Hrun.
  all: unfold mbind at 1, IO_bind at 1 in Hrun; rewrite Hload in Hrun.
  all: discriminate.
Qed.


Lemma index_of_snoc shapes s :
  index_of (shapes ++ [s])
  = <[id s := default "" (stamped_route s)]> (index_of shapes).
Proof. unfold index_of. by rewrite foldl_app. Qed.

Lemma foldl_add_shape_index route_id acc l :
  acc.2 = index_of acc.1 →
  (foldl (add_shape route_id) acc l).2
  = index_of (foldl (add_shape route_id) acc l).1.
Proof.
  revert acc. induction l as [|s l IH]; intros acc Hacc; [done|].
  simpl. apply IH. unfold add_shape. cbn [fst snd].
  rewrite index_of_snoc, Hacc. unfold stamped_route.
  by rewrite stamp_route_id.
Qed.

Lemma foldl_process_result_index_of acc items :
  acc.2 = index_of acc.1 →
  (foldl process_result acc items).2
  = index_of (foldl process_result acc items).1.
Proof.
  revert acc. induction items as [|item items IH]; intros acc Hacc; [done|].
  simpl. apply IH. unfold process_result.
  destruct (item.2); [done|]. by apply foldl_add_shape_index.
Qed.

Lemma index_of_is_Some shapes s :
  s ∈ shapes → is_Some (index_of shapes !! id s).
Proof.
  induction shapes as [|x shapes IH] using rev_ind; [by intros ?%elem_of_nil|].
  rewrite index_of_snoc.
  intros [Hs|Hs%list_elem_of_singleton]%elem_of_app.
  - destruct (decide (id x = id s)) as [Heq|Hne].
    + rewrite Heq, lookup_insert_eq. eauto.
    + rewrite lookup_insert_ne by done. by apply IH.
  - subst. rewrite lookup_insert_eq. eauto.
Qed.

Lemma index_of_lookup shapes s :
  NoDup (id <$> shapes) → s ∈ shapes →
  index_of shapes !! id s = Some (default "" (stamped_route s)).
Proof.
  induction shapes as [|x shapes IH] using rev_ind; [by intros _ ?%elem_of_nil|].
  rewrite fmap_app, index_of_snoc. intros Hnd.
  apply NoDup_app in Hnd as (Hnd & Hdisj & _).
  intros [Hs|Hs%list_elem_of_singleton]%elem_of_app.
  - rewrite lookup_insert_ne; [by apply IH|].
    intros Heq. apply (Hdisj (id s)).
    + by apply list_elem_of_fmap_2.
    + rewrite <-Heq. by left.
  - subst. by rewrite lookup_insert_eq.
Qed.

Lemma resolve_elem_stamped route_id all_shapes s :
  s ∈ resolve route_id all_shapes → stamped_route s = Some route_id.
Proof.
  rewrite <-resolve_stamped. intros (x & -> & _)%list_elem_of_fmap.
  apply stamp_route_id.
Qed.

Lemma merge_results_data route_ids :
  data (merge_results shapes_endpoint route_ids)
  = route_ids ≫= contribution shapes_endpoint.
Proof. unfold merge_results. cbn [data]. apply foldl_process_result_data. Qed.

(** X12.  The index of a computed result is built from the stamps of
    its shapes: every returned shape has an entry under its id, and
    when no two returned shapes share an id the entry is the route the
    shape is stamped with. *)
Theorem computed_index_matches_stamps route_ids w result w' :
  get_all_shapes_for_routes isoformat shapes_endpoint route_ids w
  = (inr (Computed result), w') →
  shape_to_route result = index_of (data result)
  ∧ (∀ s, s ∈ data result → is_Some (shape_to_route result !! id s))
  ∧ (NoDup (id <$> data result) →
     ∀ s, s ∈ data result →
          is_Some (stamped_route s)
          ∧ shape_to_route result !! id s = stamped_route s).
Proof.
  intros [-> _]%get_all_shapes_for_routes_computed.
  assert (shape_to_route (merge_results shapes_endpoint route_ids)
          = index_of (data (merge_results shapes_endpoint route_ids))) as Hindex.
  { unfold merge_results. cbn [data shape_to_route].
    by apply foldl_process_result_index_of. }
  split; [done|]. rewrite Hindex. split.
  - apply index_of_is_Some.
  - intros Hnd s Hs. rewrite index_of_lookup by done.
    rewrite merge_results_data in Hs.
    apply list_elem_of_bind in Hs as (r & Hs & _).
    unfold contribution in Hs.
    destruct (shapes_endpoint r); [by apply elem_of_nil in Hs|].
    apply resolve_elem_stamped in Hs. rewrite Hs. eauto.
Qed.

End AggregationMore.


Lemma computed_index_matches_stamps_witness :
  MBTAClient.shape_to_route
    (merge_results Examples.endpoint_C_down ["A"; "B"; "C"])
  = index_of (MBTAClient.data
                (merge_results Examples.endpoint_C_down ["A"; "B"; "C"])).
Proof.
  refine (proj1 (computed_index_matches_stamps Examples.fixed_isoformat
                   Examples.endpoint_C_down ["A"; "B"; "C"]
                   Examples.empty_world _
                   (CacheManager.save_to_cache Examples.fixed_isoformat
                      (MBTAClient.shapes_cache_key ["A"; "B"; "C"])
                      (MBTAClient.result_to_json
                         (merge_results Examples.endpoint_C_down ["A"; "B"; "C"]))
                      Examples.empty_world).2 _)).
  vm_compute. reflexivity.
Defined.

(** ** RouteAggregator: when two requests share a cache entry *)

Lemma has_char_sep_l (c : ascii) (s t : string) :
  has_char c (s +:+ String c t) = true.
Proof.
  rewrite has_char_append. cbn [has_char]. rewrite Ascii.eqb_refl.
  apply orb_true_r.
Qed.

(** The first separator splits a string in one way only. *)
Lemma split_at_first (c : ascii) (a b r r' : string) :
  has_char c a = false → has_char c b = false →
  a +:+ String c r = b +:+ String c r' → a = b ∧ r = r'.
Proof.
  revert b. induction a as [|x a IH]; intros [|y b] Ha Hb Heq.
  - change (String c r = String c r') in Heq. by injection Heq as ->.
  - change (String c r = String y (b +:+ String c r')) in Heq.
    injection Heq as <- _. cbn [has_char] in Hb.
    by rewrite Ascii.eqb_refl in Hb.
  - change (String x (a +:+ String c r) = String c r') in Heq.
    injection Heq as -> _. cbn [has_char] in Ha.
    by rewrite Ascii.eqb_refl in Ha.
  - change (String x (a +:+ String c r) = String y (b +:+ String c r')) in Heq.
    injection Heq as -> Heq. cbn [has_char] in Ha, Hb.
    destruct (Ascii.eqb y c); [done|].
    destruct (IH b Ha Hb Heq) as [-> ->]. done.
Qed.

Lemma concat_cons_cons (sep x y : string) (l : list string) :
  String.concat sep (x :: y :: l) = x +:+ sep +:+ String.concat sep (y :: l).
Proof. done. Qed.

(** Joining with ["_"] loses nothing when no part holds a ["_"]. *)
Lemma concat_underscore_inj (l1 l2 : list string) :
  l1 ≠ [] → l2 ≠ [] →
  Forall (λ r, has_char "_"%char r = false) l1 →
  Forall (λ r, has_char "_"%char r = false) l2 →
  String.concat "_" l1 = String.concat "_" l2 → l1 = l2.
Proof.
  revert l2. induction l1 as [|x [|x' l1] IH]; intros [|y [|y' l2]];
    intros Hne1 Hne2 H1 H2 Heq; try done.
  - by simplify_eq/=.
  - rewrite concat_cons_cons in Heq. exfalso.
    apply Forall_cons in H1 as [H1 _]. cbn [String.concat] in Heq.
    rewrite Heq in H1.
    change ("_" +:+ ?s) with (String "_"%char s) in H1.
    by rewrite has_char_sep_l in H1.
  - rewrite concat_cons_cons in Heq. exfalso.
    apply Forall_cons in H2 as [H2 _]. cbn [String.concat] in Heq.
    rewrite <-Heq in H2.
    change ("_" +:+ ?s) with (String "_"%char s) in H2.
    by rewrite has_char_sep_l in H2.
  - rewrite !concat_cons_cons in Heq.
    apply Forall_cons in H1 as [Hx H1]. apply Forall_cons in H2 as [Hy H2].
    change ("_" +:+ ?s) with (String "_"%char s) in Heq.
    apply split_at_first in Heq as [-> Heq]; [|done..].
    f_equal. by apply IH.
Qed.

(** X13.  Two non-empty route-id lists in which no id contains ["_"]
    get the same shapes cache key only if they are permutations of each
    other: such requests never read each other's cache entry. *)
Theorem shapes_cache_key_inj (l1 l2 : list string) :
  l1 ≠ [] → l2 ≠ [] →
  Forall (λ r, has_char "_"%char r = false) l1 →
  Forall (λ r, has_char "_"%char r = false) l2 →
  MBTAClient.shapes_cache_key l1 = MBTAClient.shapes_cache_key l2 →
  l1 ≡ₚ l2.
Proof.
  intros Hne1 Hne2 H1 H2 Hkey. unfold MBTAClient.shapes_cache_key in Hkey.
  apply (inj (String.app "shapes_")) in Hkey.
  apply concat_underscore_inj in Hkey.
  - by rewrite <-(merge_sort_Permutation String.le l1), Hkey,
      merge_sort_Permutation.
  - intros Hnil. apply Hne1, Permutation_nil.
    by rewrite <-(merge_sort_Permutation String.le l1), Hnil.
  - intros Hnil. apply Hne2, Permutation_nil.
    by rewrite <-(merge_sort_Permutation String.le l2), Hnil.
  - by rewrite merge_sort_Permutation.
  - by rewrite merge_sort_Permutation.
Qed.

Lemma shapes_cache_key_inj_witness : ["Red"; "Blue"] ≡ₚ ["Blue"; "Red"].
Proof.
  apply shapes_cache_key_inj.
  - discriminate.
  - discriminate.
  - repeat (apply Forall_cons_2; [reflexivity|]). apply Forall_nil_2.
  - repeat (apply Forall_cons_2; [reflexivity|]). apply Forall_nil_2.
  - vm_compute. reflexivity.
Defined.

(** ** Stops for several routes *)

(** The run on a hit. *)
Lemma get_all_stops_for_routes_hit isoformat stops_endpoint route_ids v w :
  route_ids ≠ [] →
  v ≠ PyNone →
  CacheManager.load_from_cache (Stops.stops_cache_key route_ids) w = (inr v, w) →
  Stops.get_all_stops_for_routes isoformat stops_endpoint route_ids w = (inr v, w).
Proof.
  intros Hne Hv Hload. unfold Stops.get_all_stops_for_routes.
  destruct route_ids as [|r0 l0]; [done|]. cbn [truthy negb].
  unfold mbind at 1, IO_bind at 1. rewrite Hload. by destruct v.
Qed.

Section StopsProps.

Import Stops PyOps.

Variable isoformat : Z → string.
Variable stops_endpoint : string → PyExc + PyVal.

(** The whole run on a cache miss. *)
Lemma get_all_stops_for_routes_run route_ids w :
  route_ids ≠ [] →
  (CacheManager.load_from_cache (stops_cache_key route_ids) w).1 = inr PyNone →
  get_all_stops_for_routes isoformat stops_endpoint route_ids w
  = match stops_endpoint (String.concat "," route_ids) with
    | inl e => (inl e, w)
    | inr data =>
        match py_get_default data "data" (PyList []) with
        | inl e => (inl e, w)
        | inr stops =>
            (inr stops,
             (CacheManager.save_to_cache isoformat (stops_cache_key route_ids)
                stops w).2)
        end
    end.
Proof.
  intros Hne Hmiss. unfold get_all_stops_for_routes.
  destruct route_ids as [|r0 l0]; [done|]. cbn [truthy negb].
  set (route_ids := r0 :: l0) in *.
  destruct (load_from_cache_spec (stops_cache_key route_ids) w)
    as (v & Hload & _).
  rewrite Hload in Hmiss. simpl in Hmiss. injection Hmiss as ->.
  unfold mbind at 1, IO_bind at 1. rewrite Hload.
  unfold mbind at 1, IO_bind at 1, lift at 1.
  destruct (stops_endpoint (String.concat "," route_ids)) as [e|data]; [done|].
  unfold mbind at 1, IO_bind at 1, lift at 1.
  destruct (py_get_default data "data" (PyList [])) as [e|stops]; [done|].
  unfold mbind at 1, IO_bind at 1.
  rewrite save_to_cache_total.
  by destruct (cache_dir_ok w && writable_name _).
Qed.

(** X14.  [get_all_stops_for_routes] raises exactly on a cache miss
    whose request fails or whose response is not a JSON object: the
    upstream's exception is passed on as it is, a response that is not
    an object gives [AttributeError], and nothing is written to the
    cache.  Unlike the shapes of several routes, the stops come from
    one request, so one failure fails the call. *)
Theorem stops_raise_iff route_ids w e w' :
  get_all_stops_for_routes isoformat stops_endpoint route_ids w = (inl e, w')
  ↔ w' = w
    ∧ route_ids ≠ []
    ∧ (CacheManager.load_from_cache (stops_cache_key route_ids) w).1 = inr PyNone
    ∧ (stops_endpoint (String.concat "," route_ids) = inl e
       ∨ ∃ data, stops_endpoint (String.concat "," route_ids) = inr data
                 ∧ is_dict data = false ∧ e = AttributeError).
Proof.
  split.
  - intros Hrun. destruct (decide (route_ids = [])) as [->|Hne]; [done|].
    destruct (load_from_cache_spec (stops_cache_key route_ids) w)
      as (v & Hload & _).
    assert (v = PyNone ∨ v ≠ PyNone) as [->|Hv] by (destruct v; eauto).
    + rewrite get_all_stops_for_routes_run in Hrun by (done || by rewrite Hload).
      rewrite Hload. simpl.
      destruct (stops_endpoint (String.concat "," route_ids)) as [e'|data].
      { injection Hrun as <- <-. eauto. }
      destruct (py_get_default data "data" (PyList [])) as [e'|stops] eqn:Hget;
        [|discriminate].
      injection Hrun as <- <-. repeat split; try done.
      right. exists data. destruct data; simpl in Hget; by simplify_eq.
    + by rewrite (get_all_stops_for_routes_hit _ _ _ v) in Hrun.
  - intros (-> & Hne & Hmiss & Hup).
    rewrite get_all_stops_for_routes_run by done.
    destruct Hup as [->|(data & -> & Hd & ->)]; [done|]. by destruct data.
Qed.

(** X15.  On a miss the stops are what the response holds under
    ["data"] (an empty list when the member is missing).  When the
    cache directory is available and the ids make a key whose file can
    be created (no [/], no NUL character, at most 255 bytes), they are
    stored, and while the local clock reads less than 168 hours more
    than at the miss, a call with the same ids in any order returns
    them without a request, although a request for the other order
    would have named the routes in another order. *)
Theorem stops_fetched_then_served later_endpoint utcoffset route_ids later_ids
    response w t0 t1 :
  route_ids ≠ [] →
  cache_dir_ok w = true →
  plain_key (stops_cache_key route_ids) = true →
  clock w = local_time utcoffset t0 →
  (CacheManager.load_from_cache (stops_cache_key route_ids) w).1 = inr PyNone →
  stops_endpoint (String.concat "," route_ids) = inr (PyDict response) →
  default (PyList []) (items_get response "data") ≠ PyNone →
  later_ids ≡ₚ route_ids →
  ((t1 - t0) + (utcoffset t1 - utcoffset t0)
   < CacheManager.timedelta_hours 168)%Z →
  ∃ w',
    get_all_stops_for_routes isoformat stops_endpoint route_ids w
      = (inr (default (PyList []) (items_get response "data")), w')
    ∧ get_all_stops_for_routes isoformat later_endpoint later_ids
        (at_instant utcoffset t1 w')
      = (inr (default (PyList []) (items_get response "data")),
         at_instant utcoffset t1 w').
Proof.
  intros Hne Hdir Hplain Hclock Hmiss Hup Hstops Hperm Hage.
  rewrite get_all_stops_for_routes_run, Hup by done. cbn [py_get_default].
  eexists. split; [reflexivity|].
  assert (later_ids ≠ []) as Hne'.
  { intros ->. symmetry in Hperm. by apply Permutation_nil_r in Hperm. }
  assert (stops_cache_key later_ids = stops_cache_key route_ids) as Hkey.
  { unfold stops_cache_key. by rewrite (sorted_route_ids_perm _ _ Hperm). }
  apply get_all_stops_for_routes_hit; [done..|].
  rewrite Hkey, load_saved_entry by done.
  assert ((local_time utcoffset t1 - clock w
           <? CacheManager.timedelta_hours 168)%Z = true) as ->; [|done].
  apply Z.ltb_lt. rewrite Hclock. unfold local_time. lia.
Qed.

End StopsProps.

Lemma stops_fetched_then_served_witness :
  ∃ w',
    Stops.get_all_stops_for_routes Examples.fixed_isoformat
      UpstreamExamples.stops_up ["Red"; "Blue"] FurtherExamples.world_at_save
      = (inr (PyList [PyDict [("id", PyStr "place-alfcl")]]), w')
    ∧ Stops.get_all_stops_for_routes Examples.fixed_isoformat
        UpstreamExamples.stops_down ["Blue"; "Red"]
        (at_instant FurtherExamples.new_york
           (FurtherExamples.saved_at + FurtherExamples.hour) w')
      = (inr (PyList [PyDict [("id", PyStr "place-alfcl")]]),
         at_instant FurtherExamples.new_york
           (FurtherExamples.saved_at + FurtherExamples.hour) w').
Proof.
  apply (stops_fetched_then_served Examples.fixed_isoformat
           UpstreamExamples.stops_up UpstreamExamples.stops_down
           FurtherExamples.new_york
           ["Red"; "Blue"] ["Blue"; "Red"]
           [("data", PyList [PyDict [("id", PyStr "place-alfcl")]])]
           FurtherExamples.world_at_save FurtherExamples.saved_at
           (FurtherExamples.saved_at + FurtherExamples.hour)).
  - discriminate.
  - reflexivity.
  - vm_compute. reflexivity.
  - reflexivity.
  - vm_compute. reflexivity.
  - reflexivity.
  - discriminate.
  - apply Permutation_swap.
  - vm_compute. reflexivity.
Defined.

(** ** Subway lines *)

Lemma filter_exc_pure {A : Type} (p : A → PyExc + bool) (q : A → bool) xs :
  Forall (λ x, p x = inr (q x)) xs →
  PyOps.filter_exc p xs = inr (filter (λ x, q x) xs).
Proof.
  induction 1 as [|x xs Hx _ IH]; [done|].
  cbn [PyOps.filter_exc]. rewrite Hx, IH.
  rewrite filter_cons. case_decide as Hd; destruct (q x); simpl in Hd; tauto.
Qed.

Lemma filter_exc_raises {A : Type} (p : A → PyExc + bool) e xs :
  (∀ x e', p x = inl e' → e' = e) →
  Exists (λ x, ∃ e', p x = inl e') xs →
  PyOps.filter_exc p xs = inl e.
Proof.
  intros Honly. induction xs as [|x xs IH]; intros Hex.
  { by apply Exists_nil in Hex. }
  cbn [PyOps.filter_exc].
  destruct (p x) as [e'|keep] eqn:Hx.
  { by rewrite (Honly _ _ Hx). }
  apply Exists_cons in Hex as [[e' He']|Hex]; [congruence|].
  by rewrite IH.
Qed.

Lemma forallb_false_Exists {A : Type} (f : A → bool) xs :
  forallb f xs = false → Exists (λ x, f x = false) xs.
Proof.
  induction xs as [|x xs IH]; [done|]. simpl.
  destruct (f x) eqn:Hx; [|by left]. intros ?. right. by apply IH.
Qed.

Lemma is_subway_line_dict line :
  PyOps.is_dict line = true →
  Lines.is_subway_line line = inr (names_subway_line line).
Proof. by destruct line. Qed.

Lemma is_subway_line_raises line e :
  Lines.is_subway_line line = inl e → e = AttributeError ∧ PyOps.is_dict line = false.
Proof. destruct line; cbv; intros ?; by simplify_eq. Qed.

Section LinesProps.

Import Lines PyOps.

Variable isoformat : Z → string.
Variable lines_endpoint : PyExc + list PyVal.

(** X16.  On a cache miss [get_subway_lines] returns, in the upstream's
    order, exactly the lines whose id is one of line-Red, line-Orange,
    line-Blue and line-Green (so never line-Mattapan, and no line
    without an id), and stores that list.  If an element of the
    upstream's array is not a JSON object the call raises
    [AttributeError] instead and nothing is stored. *)
Theorem get_subway_lines_miss all_lines w :
  (CacheManager.load_from_cache "subway_lines" w).1 = inr PyNone →
  lines_endpoint = inr all_lines →
  get_subway_lines isoformat lines_endpoint w
  = if forallb is_dict all_lines
    then (inr (PyList (filter (λ line, names_subway_line line) all_lines)),
          (CacheManager.save_to_cache isoformat "subway_lines"
             (PyList (filter (λ line, names_subway_line line) all_lines)) w).2)
    else (inl AttributeError, w).
Proof.
  intros Hmiss Hup. unfold get_subway_lines.
  destruct (load_from_cache_spec "subway_lines" w) as (v & Hload & _).
  rewrite Hload in Hmiss. simpl in Hmiss. injection Hmiss as ->.
  unfold mbind at 1, IO_bind at 1. rewrite Hload.
  unfold mbind at 1, IO_bind at 1, lift at 1. rewrite Hup.
  unfold mbind at 1, IO_bind at 1, lift at 1.
  destruct (forallb is_dict all_lines) eqn:Hall.
  - rewrite (filter_exc_pure _ names_subway_line).
    + unfold mbind at 1, IO_bind at 1.
      rewrite save_to_cache_total.
  by destruct (cache_dir_ok w && writable_name _).
    + apply Forall_forall. intros line Hline. apply is_subway_line_dict.
      rewrite forallb_forall in Hall. apply Hall.
      by apply list_elem_of_In.
  - rewrite (filter_exc_raises _ AttributeError); [done| |].
    + by intros line e [-> _]%is_subway_line_raises.
    + apply forallb_false_Exists in Hall.
      eapply Exists_impl; [exact Hall|].
      intros line Hline. exists AttributeError. by destruct line.
Qed.

End LinesProps.

Lemma get_subway_lines_miss_witness :
  (Lines.get_subway_lines Examples.fixed_isoformat
     (inr UpstreamExamples.lines_data) Examples.empty_world).1
  = inr (PyList [UpstreamExamples.line "line-Red";
                 UpstreamExamples.line "line-Blue"])
  ∧ Lines.get_subway_lines Examples.fixed_isoformat
      (inr (PyNone :: UpstreamExamples.lines_data)) Examples.empty_world
    = (inl AttributeError, Examples.empty_world).
Proof.
  split.
  - rewrite (get_subway_lines_miss Examples.fixed_isoformat _
               UpstreamExamples.lines_data); [|vm_compute; reflexivity|reflexivity].
    vm_compute. reflexivity.
  - rewrite (get_subway_lines_miss Examples.fixed_isoformat _
               (PyNone :: UpstreamExamples.lines_data));
      [|vm_compute; reflexivity|reflexivity].
    reflexivity.
Defined.

(** ** Routes and the Mattapan re-labelling *)

Lemma items_get_set d k v : items_get (PyOps.items_set d k v) k = Some v.
Proof.
  induction d as [|[k' v'] d IH]; simpl.
  - by rewrite String.eqb_refl.
  - destruct (String.eqb k' k) eqn:Hk; simpl; by rewrite Hk.
Qed.

Lemma py_eq_str_true v s : PyOps.py_eq_str v s = true ↔ v = PyStr s.
Proof.
  destruct v; simpl; try (split; [done|discriminate]).
  rewrite String.eqb_eq. split; [by intros ->|by intros [= ->]].
Qed.

Lemma py_get_default_raises v k dflt e :
  PyOps.py_get_default v k dflt = inl e → e = AttributeError.
Proof. destruct v; simpl; intros ?; by simplify_eq. Qed.

Lemma line_id_of_raises route e :
  Routes.line_id_of route = inl e → e = AttributeError.
Proof.
  unfold Routes.line_id_of. intros Hr.
  repeat match type of Hr with
  | match ?x with _ => _ end = _ =>
      let H := fresh "H" in
      destruct x eqn:H; [apply py_get_default_raises in H; by simplify_eq|]
  end.
  by eapply py_get_default_raises.
Qed.

Lemma names_line_spec line_id route :
  Routes.names_line line_id route = true
  ↔ Routes.line_id_of route = inr (PyStr line_id).
Proof.
  unfold Routes.names_line.
  destruct (Routes.line_id_of route) as [e|v]; [by split|].
  rewrite py_eq_str_true. split; [by intros ->|by intros [= ->]].
Qed.

Lemma names_line_well_formed line_id route :
  Routes.names_line line_id route = true → Routes.well_formed route = true.
Proof.
  unfold Routes.names_line, Routes.well_formed.
  by destruct (Routes.line_id_of route).
Qed.

Lemma references_well_formed line_id route :
  Routes.well_formed route = true →
  Routes.references line_id route = inr (Routes.names_line line_id route).
Proof.
  unfold Routes.well_formed, Routes.references, Routes.names_line.
  by destruct (Routes.line_id_of route).
Qed.

Lemma references_not_well_formed line_id route :
  Routes.well_formed route = true →
  Routes.references_not line_id route
  = inr (negb (Routes.names_line line_id route)).
Proof.
  unfold Routes.well_formed, Routes.references_not, Routes.names_line.
  by destruct (Routes.line_id_of route).
Qed.

(** A re-labelled Mattapan route names the Red line. *)
Lemma relabel_names_red route :
  Routes.names_line "line-Mattapan" route = true →
  Routes.line_id_of (Routes.relabel route) = inr (PyStr "line-Red").
Proof.
  intros Hm%names_line_spec. destruct route as [| | | | |d]; try discriminate.
  unfold Routes.line_id_of in Hm. cbn [PyOps.py_get_default] in Hm.
  unfold Routes.relabel, PyOps.has_key.
  destruct (items_get d "relationships") as [rel|] eqn:Hrel; [|discriminate].
  rewrite bool_decide_eq_true_2 by eauto. rewrite Hrel.
  destruct rel as [| | | | |rel]; try discriminate.
  unfold Routes.line_id_of. cbn [PyOps.py_get_default].
  rewrite items_get_set. cbn [from_option Datatypes.id PyOps.py_get_default].
  rewrite items_get_set. reflexivity.
Qed.

Lemma names_line_functional l1 l2 route :
  Routes.names_line l1 route = true → Routes.names_line l2 route = true → l1 = l2.
Proof. rewrite !names_line_spec. congruence. Qed.

(** The store: reading every reference gives the routes back, and the
    loop changes exactly the routes it is run on. *)
Lemma deref_seq store :
  Routes.deref store <$> seq 0 (length store) = store.
Proof.
  apply list_eq. intros i. rewrite list_lookup_fmap.
  destruct (decide (i < length store)) as [Hi|Hi].
  - rewrite lookup_seq_lt by done. simpl. unfold Routes.deref.
    destruct (lookup_lt_is_Some_2 store i Hi) as [x Hx]. by rewrite Hx.
  - rewrite lookup_seq_ge by lia. simpl. symmetry. apply lookup_ge_None. lia.
Qed.

Lemma deref_filter store (q : PyVal → bool) (refs : list nat) :
  Routes.deref store <$> filter (λ i, q (Routes.deref store i)) refs
  = filter (λ r, q r) (Routes.deref store <$> refs).
Proof.
  induction refs as [|i refs IH]; [done|].
  rewrite fmap_cons, !filter_cons.
  simpl. case_decide; by rewrite ?fmap_cons, IH.
Qed.

Lemma select_pure store p (q : PyVal → bool) (refs : list nat) :
  (∀ i, i ∈ refs → p (Routes.deref store i) = inr (q (Routes.deref store i))) →
  Routes.select store p refs
  = inr (filter (λ i, q (Routes.deref store i)) refs).
Proof.
  intros Hp. unfold Routes.select.
  apply (filter_exc_pure _ (λ i, q (Routes.deref store i))).
  by apply Forall_forall.
Qed.

Lemma deref_elem store i :
  i < length store → Routes.deref store i ∈ store.
Proof.
  intros Hi. unfold Routes.deref.
  destruct (lookup_lt_is_Some_2 store i Hi) as [x Hx]. rewrite Hx. simpl.
  by eapply list_elem_of_lookup_2.
Qed.

Lemma relabel_all_deref store refs i :
  NoDup refs →
  Routes.deref (Routes.relabel_all store refs) i
  = if bool_decide (i ∈ refs) then Routes.relabel (Routes.deref store i)
    else Routes.deref store i.
Proof.
  unfold Routes.relabel_all. revert store.
  induction refs as [|r refs IH]; intros store Hnd; [done|].
  apply NoDup_cons in Hnd as [Hr Hnd]. cbn [foldl]. rewrite IH by done.
  unfold Routes.deref.
  destruct (decide (i = r)) as [->|Hir].
  - rewrite bool_decide_eq_false_2 by done.
    rewrite bool_decide_eq_true_2 by left.
    rewrite list_lookup_alter, decide_True by done. by destruct (store !! r).
  - rewrite list_lookup_alter, decide_False by done.
    destruct (decide (i ∈ refs)) as [Hi|Hi].
    + rewrite !bool_decide_eq_true_2; [done|by right|done].
    + rewrite !bool_decide_eq_false_2; [done| |done].
      by intros [?|?]%elem_of_cons.
Qed.

(** The references of the Mattapan routes. *)
Lemma mattapan_refs_elem store i :
  i ∈ filter (λ i, Routes.names_line "line-Mattapan" (Routes.deref store i))
        (seq 0 (length store))
  ↔ i < length store
    ∧ Routes.names_line "line-Mattapan" (Routes.deref store i) = true.
Proof.
  rewrite list_elem_of_filter, elem_of_seq, Is_true_true. simpl. intuition lia.
Qed.

Lemma relabelled_store_all store :
  Routes.deref
    (Routes.relabel_all store
       (filter (λ i, Routes.names_line "line-Mattapan" (Routes.deref store i))
          (seq 0 (length store))))
  <$> seq 0 (length store)
  = relabel_mattapan <$> store.
Proof.
  trans (relabel_mattapan <$> (Routes.deref store <$> seq 0 (length store)));
    [|by rewrite deref_seq].
  rewrite <-list_fmap_compose.
  apply list_fmap_ext. intros k i Hi%list_elem_of_lookup_2. simpl.
  apply elem_of_seq in Hi.
  rewrite relabel_all_deref by apply NoDup_filter, NoDup_seq.
  unfold relabel_mattapan.
  destruct (Routes.names_line "line-Mattapan" (Routes.deref store i)) eqn:Hm.
  - rewrite bool_decide_eq_true_2; [done|]. apply mattapan_refs_elem.
    split; [lia|done].
  - rewrite bool_decide_eq_false_2; [done|].
    intros [_ ?]%mattapan_refs_elem. congruence.
Qed.

Lemma relabelled_store_mattapan store :
  Routes.deref
    (Routes.relabel_all store
       (filter (λ i, Routes.names_line "line-Mattapan" (Routes.deref store i))
          (seq 0 (length store))))
  <$> filter (λ i, Routes.names_line "line-Mattapan" (Routes.deref store i))
        (seq 0 (length store))
  = Routes.relabel
    <$> filter (λ r, Routes.names_line "line-Mattapan" r) store.
Proof.
  trans (Routes.relabel
         <$> filter (λ r, Routes.names_line "line-Mattapan" r)
               (Routes.deref store <$> seq 0 (length store)));
    [|by rewrite deref_seq].
  rewrite <-deref_filter, <-list_fmap_compose.
  apply list_fmap_ext. intros k i Hi%list_elem_of_lookup_2. simpl.
  rewrite relabel_all_deref by apply NoDup_filter, NoDup_seq.
  by rewrite bool_decide_eq_true_2.
Qed.

Lemma relabelled_store_others store (q : PyVal → bool) :
  (∀ r, q r = true → Routes.names_line "line-Mattapan" r = false) →
  Routes.deref
    (Routes.relabel_all store
       (filter (λ i, Routes.names_line "line-Mattapan" (Routes.deref store i))
          (seq 0 (length store))))
  <$> filter (λ i, q (Routes.deref store i)) (seq 0 (length store))
  = filter (λ r, q r) store.
Proof.
  intros Hq.
  trans (filter (λ r, q r) (Routes.deref store <$> seq 0 (length store)));
    [|by rewrite deref_seq].
  rewrite <-deref_filter.
  apply list_fmap_ext. intros k i Hi%list_elem_of_lookup_2.
  apply list_elem_of_filter in Hi as [Hi%Is_true_true _].
  rewrite relabel_all_deref by apply NoDup_filter, NoDup_seq.
  rewrite bool_decide_eq_false_2; [done|].
  intros [_ Hm]%mattapan_refs_elem. apply Hq in Hi. congruence.
Qed.

Lemma well_formed_refs store i :
  forallb Routes.well_formed store = true →
  i ∈ seq 0 (length store) →
  Routes.well_formed (Routes.deref store i) = true.
Proof.
  intros Hall Hi%elem_of_seq. rewrite forallb_forall in Hall.
  apply Hall, list_elem_of_In, deref_elem. lia.
Qed.

Lemma select_references store line_id :
  forallb Routes.well_formed store = true →
  Routes.select store (Routes.references line_id) (seq 0 (length store))
  = inr (filter (λ i, Routes.names_line line_id (Routes.deref store i))
           (seq 0 (length store))).
Proof.
  intros Hall. apply (select_pure _ _ (Routes.names_line line_id)).
  intros i Hi. by apply references_well_formed, well_formed_refs.
Qed.

Lemma select_raises store line_id :
  forallb Routes.well_formed store = false →
  Routes.select store (Routes.references line_id) (seq 0 (length store))
  = inl AttributeError.
Proof.
  intros Hall. unfold Routes.select. apply filter_exc_raises.
  - intros i e. unfold Routes.references.
    destruct (Routes.line_id_of (Routes.deref store i)) eqn:Hl; [|done].
    intros [= <-]. by eapply line_id_of_raises.
  - apply forallb_false_Exists, Exists_exists in Hall as (r & Hr & Hwf).
    apply list_elem_of_lookup in Hr as [i Hi].
    apply Exists_exists. exists i. split.
    + apply elem_of_seq. apply lookup_lt_Some in Hi. lia.
    + unfold Routes.references, Routes.deref. rewrite Hi. simpl.
      unfold Routes.well_formed in Hwf.
      destruct (Routes.line_id_of r); [eauto|done].
Qed.

Lemma relabelled_deref store i :
  i ∈ seq 0 (length store) →
  Routes.deref
    (Routes.relabel_all store
       (filter (λ i, Routes.names_line "line-Mattapan" (Routes.deref store i))
          (seq 0 (length store)))) i
  = relabel_mattapan (Routes.deref store i).
Proof.
  intros Hi%elem_of_seq.
  rewrite relabel_all_deref by apply NoDup_filter, NoDup_seq.
  unfold relabel_mattapan.
  destruct (Routes.names_line "line-Mattapan" (Routes.deref store i)) eqn:Hm.
  - rewrite bool_decide_eq_true_2; [done|]. apply mattapan_refs_elem.
    split; [lia|done].
  - rewrite bool_decide_eq_false_2; [done|].
    intros [_ ?]%mattapan_refs_elem. congruence.
Qed.

Lemma relabel_not_mattapan route :
  Routes.names_line "line-Mattapan" route = true →
  Routes.names_line "line-Mattapan" (Routes.relabel route) = false.
Proof.
  intros Hm%relabel_names_red. unfold Routes.names_line. by rewrite Hm.
Qed.

Lemma relabel_mattapan_not_mattapan route :
  Routes.names_line "line-Mattapan" (relabel_mattapan route) = false.
Proof.
  unfold relabel_mattapan.
  destruct (Routes.names_line "line-Mattapan" route) eqn:Hm; [|done].
  by apply relabel_not_mattapan.
Qed.

Lemma relabel_mattapan_well_formed route :
  Routes.well_formed route = true →
  Routes.well_formed (relabel_mattapan route) = true.
Proof.
  intros Hwf. unfold relabel_mattapan.
  destruct (Routes.names_line "line-Mattapan" route) eqn:Hm; [|done].
  apply relabel_names_red in Hm. unfold Routes.well_formed. by rewrite Hm.
Qed.

Lemma filter_all {A : Type} (q : A → bool) (l : list A) :
  (∀ x, x ∈ l → q x = true) → filter (λ x, q x) l = l.
Proof.
  induction l as [|x l IH]; intros Hq; [done|].
  rewrite filter_cons_True by (apply Is_true_true, Hq; left).
  rewrite IH; [done|]. intros y Hy. apply Hq. by right.
Qed.

Lemma find_exc_dicts line_id lines :
  forallb PyOps.is_dict lines = true →
  ∃ found, PyOps.find_exc (Routes.has_id line_id) lines = inr found.
Proof.
  induction lines as [|line lines IH]; [by eexists|].
  cbn [forallb]. intros [Hd Hall]%andb_true_iff.
  destruct line; try discriminate. cbn [PyOps.find_exc].
  unfold Routes.has_id at 1. cbn [PyOps.py_get_default].
  case_match; [by eexists|by apply IH].
Qed.

Lemma filter_other_lines line_id lines :
  forallb PyOps.is_dict lines = true →
  PyOps.filter_exc (Routes.has_other_id line_id) lines
  = inr (filter (λ line, other_line line_id line) lines).
Proof.
  intros Hall. apply (filter_exc_pure _ (other_line line_id)).
  apply Forall_forall. intros line Hline%list_elem_of_In.
  rewrite forallb_forall in Hall. apply Hall in Hline. by destruct line.
Qed.

Section RoutesProps.

Import Routes PyOps.

Variable isoformat : Z → string.
Variable routes_endpoint : PyExc + (list PyVal * list PyVal).

(** X17.  When the chain to the line id can be followed on every
    route of the response, [get_routes_for_line] returns the routes
    that name the line, in the upstream's order, and for line-Red the
    Mattapan routes after them, re-labelled; so every route returned
    names the requested line.  The included lines are passed on as
    they came, the Mattapan line too. *)
Theorem routes_for_line_result all_routes included_lines line_id w :
  routes_endpoint = inr (all_routes, included_lines) →
  forallb well_formed all_routes = true →
  ∃ data,
    get_routes_for_line routes_endpoint line_id w
    = (inr (PyDict [("data", PyList data); ("included", PyList included_lines)]),
       w)
    ∧ data
      = filter (λ r, names_line line_id r) all_routes
        ++ (if String.eqb line_id "line-Red"
            then relabel <$> filter (λ r, names_line "line-Mattapan" r) all_routes
            else [])
    ∧ Forall (λ r, line_id_of r = inr (PyStr line_id)) data.
Proof.
  intros Hup Hwf. eexists. split; [|split; [reflexivity|]].
  - unfold get_routes_for_line.
    unfold mbind at 1, IO_bind at 1, lift at 1. rewrite Hup. cbn [fst snd].
    unfold mbind at 1, IO_bind at 1, lift at 1.
    rewrite select_references by done.
    destruct (String.eqb_spec line_id "line-Red") as [->|Hred].
    + unfold mbind at 1, IO_bind at 1, lift at 1.
      rewrite select_references by done.
      rewrite fmap_app, relabelled_store_mattapan.
      rewrite (relabelled_store_others _ (names_line "line-Red")); [done|].
      intros r Hr. destruct (names_line "line-Mattapan" r) eqn:Hm; [|done].
      by pose proof (names_line_functional _ _ _ Hr Hm).
    + rewrite deref_filter, deref_seq. by rewrite app_nil_r.
  - apply Forall_app. split.
    + apply Forall_forall. intros r [Hr%Is_true_true _]%list_elem_of_filter.
      by apply names_line_spec.
    + destruct (String.eqb_spec line_id "line-Red") as [->|Hred]; [|done].
      apply Forall_fmap, Forall_forall.
      intros r [Hr%Is_true_true _]%list_elem_of_filter.
      by apply relabel_names_red.
Qed.

(** X18.  [get_routes_for_line] raises exactly when the request fails,
    with the upstream's exception, or when the chain to the line id
    cannot be followed on some route of the response, with
    [AttributeError]: a route whose line relationship is empty
    (["data": null]) fails the call for every line. *)
Theorem routes_for_line_raise_iff line_id w e w' :
  get_routes_for_line routes_endpoint line_id w = (inl e, w')
  ↔ w' = w
    ∧ (routes_endpoint = inl e
       ∨ ∃ all_routes included_lines,
           routes_endpoint = inr (all_routes, included_lines)
           ∧ forallb well_formed all_routes = false
           ∧ e = AttributeError).
Proof.
  unfold get_routes_for_line.
  unfold mbind at 1, IO_bind at 1, lift at 1.
  destruct routes_endpoint as [e0|[all_routes included_lines]] eqn:Hup.
  { split.
    - intros [= <- <-]. eauto.
    - intros (-> & [[= ->]|(? & ? & ? & _)]); done. }
  cbn [fst snd]. unfold mbind at 1, IO_bind at 1, lift at 1.
  destruct (forallb well_formed all_routes) eqn:Hwf.
  - rewrite select_references by done. split.
    + destruct (String.eqb line_id "line-Red"); [|done].
      unfold mbind at 1, IO_bind at 1, lift at 1.
      by rewrite select_references.
    + intros (_ & [?|(? & ? & [= <- <-] & ? & _)]); [done|congruence].
  - rewrite select_raises by done. split.
    + intros [= <- <-]. split; [done|]. right. eauto.
    + by intros (-> & [?|(? & ? & _ & _ & ->)]).
Qed.

(** The whole run on a cache miss. *)
Lemma get_all_subway_routes_run all_routes included_lines w :
  (CacheManager.load_from_cache "all_subway_routes" w).1 = inr PyNone →
  routes_endpoint = inr (all_routes, included_lines) →
  forallb well_formed all_routes = true →
  forallb is_dict included_lines = true →
  get_all_subway_routes isoformat routes_endpoint w
  = (inr (PyDict
            [("data",
              PyList ((relabel_mattapan <$> all_routes)
                      ++ (relabel
                          <$> filter (λ r, names_line "line-Mattapan" r)
                                all_routes)));
             ("included",
              PyList (filter (λ line, other_line "line-Mattapan" line)
                        included_lines))]),
     (CacheManager.save_to_cache isoformat "all_subway_routes"
        (PyDict
           [("data",
             PyList ((relabel_mattapan <$> all_routes)
                     ++ (relabel
                         <$> filter (λ r, names_line "line-Mattapan" r)
                               all_routes)));
            ("included",
             PyList (filter (λ line, other_line "line-Mattapan" line)
                       included_lines))]) w).2).
Proof.
  intros Hmiss Hup Hwf Hdicts.
  unfold get_all_subway_routes.
  destruct (load_from_cache_spec "all_subway_routes" w) as (v & Hload & _).
  rewrite Hload in Hmiss. simpl in Hmiss. injection Hmiss as ->.
  unfold mbind at 1, IO_bind at 1. rewrite Hload.
  unfold mbind at 1, IO_bind at 1, lift at 1. rewrite Hup. cbn [fst snd].
  unfold mbind at 1, IO_bind at 1, lift at 1.
  destruct (find_exc_dicts "line-Red" included_lines Hdicts) as [found ->].
  unfold mbind at 1, IO_bind at 1, lift at 1.
  rewrite select_references by done.
  unfold mbind at 1, IO_bind at 1, lift at 1.
  rewrite (select_pure _ _ (λ r, negb (names_line "line-Mattapan" r))).
  2:{ intros i Hi. apply references_not_well_formed.
      rewrite relabelled_deref by done.
      by apply relabel_mattapan_well_formed, well_formed_refs. }
  rewrite (filter_all (λ i, negb (names_line "line-Mattapan" _))).
  2:{ intros i Hi. rewrite relabelled_deref by done.
      by rewrite relabel_mattapan_not_mattapan. }
  unfold mbind at 1, IO_bind at 1, lift at 1.
  rewrite filter_other_lines by done.
  unfold mbind at 1, IO_bind at 1.
  rewrite fmap_app, relabelled_store_all, relabelled_store_mattapan.
  rewrite save_to_cache_total.
  by destruct (cache_dir_ok w && writable_name _).
Qed.

(** X19.  On a cache miss [get_all_subway_routes] returns every
    Mattapan route twice.  The Mattapan routes are re-labelled in
    place before the routes that do not name line-Mattapan are
    selected; by then no route names it, so the selection keeps every
    route, the Mattapan routes among them, and the same routes are
    appended once more.  No route of the result names line-Mattapan,
    and the included lines lose the Mattapan line. *)
Theorem all_subway_routes_result all_routes included_lines w :
  (CacheManager.load_from_cache "all_subway_routes" w).1 = inr PyNone →
  routes_endpoint = inr (all_routes, included_lines) →
  forallb well_formed all_routes = true →
  forallb is_dict included_lines = true →
  ∃ data w',
    get_all_subway_routes isoformat routes_endpoint w
    = (inr (PyDict [("data", PyList data);
                    ("included",
                     PyList (filter (λ line, other_line "line-Mattapan" line)
                               included_lines))]),
       w')
    ∧ data
      = (relabel_mattapan <$> all_routes)
        ++ (relabel <$> filter (λ r, names_line "line-Mattapan" r) all_routes)
    ∧ length data
      = length all_routes
        + length (filter (λ r, names_line "line-Mattapan" r) all_routes)
    ∧ Forall (λ r, names_line "line-Mattapan" r = false) data.
Proof.
  intros Hmiss Hup Hwf Hdicts. eexists _, _.
  split; [by apply get_all_subway_routes_run|split; [reflexivity|split]].
  - by rewrite length_app, !length_fmap.
  - apply Forall_app. split.
    + apply Forall_fmap, Forall_forall. intros r _.
      apply relabel_mattapan_not_mattapan.
    + apply Forall_fmap, Forall_forall.
      intros r [Hr%Is_true_true _]%list_elem_of_filter.
      by apply relabel_not_mattapan.
Qed.

End RoutesProps.

Lemma routes_for_line_result_witness :
  (Routes.get_routes_for_line
     (inr (UpstreamExamples.routes_data, UpstreamExamples.included_data))
     "line-Red" Examples.empty_world).1
  = inr (PyDict
           [("data", PyList [UpstreamExamples.route "Red" "line-Red";
                             UpstreamExamples.route "Mattapan" "line-Red"]);
            ("included", PyList UpstreamExamples.included_data)]).
Proof.
  destruct (routes_for_line_result
              (inr (UpstreamExamples.routes_data, UpstreamExamples.included_data))
              UpstreamExamples.routes_data UpstreamExamples.included_data
              "line-Red" Examples.empty_world)
    as (data & Hrun & Hdata & _); [reflexivity|reflexivity|].
  rewrite Hrun, Hdata. vm_compute. reflexivity.
Defined.

(** A route whose line relationship is empty fails the call, whatever
    line is asked for. *)
Example routes_for_line_null_relationship :
  Routes.get_routes_for_line
    (inr (UpstreamExamples.routes_data
          ++ [UpstreamExamples.route_without_line "Shuttle"],
          UpstreamExamples.included_data))
    "line-Blue" Examples.empty_world
  = (inl AttributeError, Examples.empty_world).
Proof. vm_compute. reflexivity. Qed.

Lemma all_subway_routes_result_witness :
  (Routes.get_all_subway_routes Examples.fixed_isoformat
     (inr (UpstreamExamples.routes_data, UpstreamExamples.included_data))
     Examples.empty_world).1
  = inr (PyDict
           [("data", PyList [UpstreamExamples.route "Red" "line-Red";
                             UpstreamExamples.route "Mattapan" "line-Red";
                             UpstreamExamples.route "Blue" "line-Blue";
                             UpstreamExamples.route "Mattapan" "line-Red"]);
            ("included", PyList [UpstreamExamples.line "line-Red";
                                 UpstreamExamples.line "line-Blue"])]).
Proof.
  destruct (all_subway_routes_result Examples.fixed_isoformat
              (inr (UpstreamExamples.routes_data, UpstreamExamples.included_data))
              UpstreamExamples.routes_data UpstreamExamples.included_data
              Examples.empty_world)
    as (data & w' & Hrun & Hdata & _);
    [vm_compute; reflexivity|reflexivity|reflexivity|reflexivity|].
  rewrite Hrun, Hdata. vm_compute. reflexivity.
Defined.

(** ** Alerts *)

Lemma insert_by_key_perm x l : Alerts.insert_by_key x l ≡ₚ x :: l.
Proof.
  induction l as [|y l IH]; [done|]. simpl.
  case_match; [|done]. by rewrite IH, Permutation_swap.
Qed.

Lemma sort_by_key_desc_perm l : Alerts.sort_by_key_desc l ≡ₚ l.
Proof.
  induction l as [|x l IH]; [done|]. unfold Alerts.sort_by_key_desc. simpl.
  rewrite insert_by_key_perm. by f_equiv.
Qed.

Lemma insert_by_key_sorted x l :
  StronglySorted (λ a b, (Alerts.sort_key b ≤ Alerts.sort_key a)%Z) l →
  StronglySorted (λ a b, (Alerts.sort_key b ≤ Alerts.sort_key a)%Z)
    (Alerts.insert_by_key x l).
Proof.
  induction 1 as [|y l Hl IH Hy]; simpl.
  { repeat constructor. }
  destruct (Z.ltb_spec (Alerts.sort_key x) (Alerts.sort_key y)) as [Hlt|Hge].
  - constructor; [done|]. rewrite insert_by_key_perm.
    constructor; [lia|done].
  - constructor; [by constructor|]. constructor; [done|].
    eapply Forall_impl; [exact Hy|]. simpl. intros. lia.
Qed.

Lemma sort_by_key_desc_sorted l :
  StronglySorted (λ a b, (Alerts.sort_key b ≤ Alerts.sort_key a)%Z)
    (Alerts.sort_by_key_desc l).
Proof.
  induction l as [|x l IH]; [constructor|]. by apply insert_by_key_sorted.
Qed.

Lemma insert_by_key_stable k x l :
  filter (λ a, Alerts.sort_key a = k) (Alerts.insert_by_key x l)
  = filter (λ a, Alerts.sort_key a = k) (x :: l).
Proof.
  induction l as [|y l IH]; [done|]. simpl.
  destruct (Z.ltb_spec (Alerts.sort_key x) (Alerts.sort_key y)) as [Hlt|Hge];
    [|done].
  rewrite !filter_cons in *. rewrite IH.
  repeat case_decide; try done. lia.
Qed.

Lemma sort_by_key_desc_stable k l :
  filter (λ a, Alerts.sort_key a = k) (Alerts.sort_by_key_desc l)
  = filter (λ a, Alerts.sort_key a = k) l.
Proof.
  induction l as [|x l IH]; [done|]. unfold Alerts.sort_by_key_desc. simpl.
  rewrite insert_by_key_stable, !filter_cons.
  fold (Alerts.sort_by_key_desc l). by rewrite IH.
Qed.

(** X20.  [get_alerts_for_line] passes a failed request on, and
    otherwise returns the upstream's alerts re-ordered: the same
    alerts, severities not increasing (a missing severity counting as
    0), and alerts of equal severity in the upstream's order. *)
Theorem alerts_sorted_stable alerts_endpoint route_ids :
  match Alerts.get_alerts_for_line alerts_endpoint route_ids with
  | inl e => alerts_endpoint (String.concat "," route_ids) = inl e
  | inr sorted =>
      ∃ alerts,
        alerts_endpoint (String.concat "," route_ids) = inr alerts
        ∧ sorted ≡ₚ alerts
        ∧ StronglySorted (λ a b, (Alerts.sort_key b ≤ Alerts.sort_key a)%Z) sorted
        ∧ ∀ k, filter (λ a, Alerts.sort_key a = k) sorted
               = filter (λ a, Alerts.sort_key a = k) alerts
  end.
Proof.
  unfold Alerts.get_alerts_for_line.
  destruct (alerts_endpoint (String.concat "," route_ids)) as [e|alerts]; [done|].
  exists alerts. split; [done|].
  split; [apply sort_by_key_desc_perm|].
  split; [apply sort_by_key_desc_sorted|].
  intros k. apply sort_by_key_desc_stable.
Qed.

(** The example: the two alerts of severity 7 keep their order, the
    alert without a severity comes last. *)
Example alerts_sorted_example :
  Alerts.get_alerts_for_line (λ _, inr UpstreamExamples.alerts_data) ["Red"]
  = inr [Alerts.mkAlert "a2" (Some 7%Z); Alerts.mkAlert "a4" (Some 7%Z);
         Alerts.mkAlert "a1" (Some 3%Z); Alerts.mkAlert "a3" None].
Proof. reflexivity. Qed.

(** ** Map tiles *)

Lemma take_batches {A : Type} (l : list A) m :
  concat ((λ i, TileCache.slice l i (i + TileCache.BATCH_SIZE))
          <$> ((λ k, k * TileCache.BATCH_SIZE) <$> seq 0 m))
  = take (m * TileCache.BATCH_SIZE) l.
Proof.
  induction m as [|m IH]; [done|].
  rewrite seq_S, !fmap_app, concat_app, IH.
  cbn [fmap list_fmap concat plus]. rewrite app_nil_r.
  unfold TileCache.slice, TileCache.BATCH_SIZE.
  replace (m * 10 + 10 - m * 10) with 10 by lia.
  rewrite take_take_drop. f_equal. lia.
Qed.

Lemma batches_cover n :
  n ≤ (n + TileCache.BATCH_SIZE - 1) / TileCache.BATCH_SIZE * TileCache.BATCH_SIZE.
Proof.
  unfold TileCache.BATCH_SIZE.
  pose proof (Nat.div_mod_eq (n + 10 - 1) 10).
  pose proof (Nat.mod_upper_bound (n + 10 - 1) 10). lia.
Qed.

Lemma batches_start k n :
  k < (n + TileCache.BATCH_SIZE - 1) / TileCache.BATCH_SIZE →
  k * TileCache.BATCH_SIZE < n.
Proof.
  unfold TileCache.BATCH_SIZE.
  pose proof (Nat.div_mod_eq (n + 10 - 1) 10).
  pose proof (Nat.mod_upper_bound (n + 10 - 1) 10). lia.
Qed.

Lemma concat_batches tiles : concat (TileCache.batches tiles) = tiles.
Proof.
  unfold TileCache.batches, TileCache.range_step.
  rewrite take_batches. apply take_ge, batches_cover.
Qed.

Lemma count_results_spec download_tile tiles c :
  (TileCache.count_results (download_tile <$> tiles) c).1
  = c.1 + length (filter (λ t, TileCache.succeeded download_tile t) tiles)
  ∧ (TileCache.count_results (download_tile <$> tiles) c).1
    + (TileCache.count_results (download_tile <$> tiles) c).2
    = c.1 + c.2 + length tiles.
Proof.
  unfold TileCache.count_results. revert c.
  induction tiles as [|t tiles IH]; intros c; [simpl; lia|].
  rewrite fmap_cons. cbn [foldl length].
  destruct (IH (match download_tile t with
                | inr true => (S c.1, c.2)
                | _ => (c.1, S c.2)
                end)) as [-> ->].
  rewrite filter_cons.
  destruct (TileCache.succeeded download_tile t) eqn:Hs;
    unfold TileCache.succeeded in Hs;
    destruct (download_tile t) as [e|[|]]; try discriminate; simpl; lia.
Qed.

Lemma count_batches download_tile (bs : list (list TileCache.Tile)) c :
  foldl (λ c batch, TileCache.count_results (download_tile <$> batch) c) c bs
  = TileCache.count_results (download_tile <$> concat bs) c.
Proof.
  revert c. induction bs as [|b bs IH]; intros c; [done|].
  cbn [foldl concat]. rewrite IH, fmap_app.
  unfold TileCache.count_results. by rewrite foldl_app.
Qed.

(** X21.  The batches of [preload_map_tiles] are the tiles cut into
    runs of ten: no tile is left out or attempted twice, no batch is
    empty and none has more than ten tiles. *)
Theorem batches_partition tiles :
  concat (TileCache.batches tiles) = tiles
  ∧ Forall (λ batch, 0 < length batch ≤ TileCache.BATCH_SIZE)
      (TileCache.batches tiles).
Proof.
  split; [apply concat_batches|].
  unfold TileCache.batches, TileCache.range_step.
  rewrite <-list_fmap_compose. apply Forall_fmap, Forall_forall.
  intros k Hk%elem_of_seq. simpl. unfold TileCache.slice.
  rewrite length_take, length_drop.
  assert (k * TileCache.BATCH_SIZE < length tiles) by (apply batches_start; lia).
  unfold TileCache.BATCH_SIZE in *. lia.
Qed.

(** X22.  When the tile directory and the coordinates are available,
    [preload_map_tiles] counts every tile once: the total is the number
    of tiles, downloaded and failed add up to it, and downloaded is the
    number of tiles whose download gave [True]; a download that gave
    [False] or ended in an exception counts as failed.  When the setup
    fails all three counts are 0. *)
Theorem preload_counts download_tile setup :
  match setup with
  | inl _ => TileCache.preload_map_tiles download_tile setup
             = TileCache.mkCounts 0 0 0
  | inr tiles =>
      TileCache.total (TileCache.preload_map_tiles download_tile setup)
      = length tiles
      ∧ TileCache.downloaded (TileCache.preload_map_tiles download_tile setup)
        + TileCache.failed (TileCache.preload_map_tiles download_tile setup)
        = length tiles
      ∧ TileCache.downloaded (TileCache.preload_map_tiles download_tile setup)
        = length (filter (λ t, TileCache.succeeded download_tile t) tiles)
  end.
Proof.
  destruct setup as [e|tiles]; [done|].
  unfold TileCache.preload_map_tiles. cbn [TileCache.total TileCache.downloaded
                                           TileCache.failed].
  rewrite count_batches, concat_batches.
  destruct (count_results_spec download_tile tiles (0, 0)) as [H1 H2].
  simpl in H1, H2. by rewrite H2, H1.
Qed.

Lemma range_elem a b x : x ∈ TileCache.range a b ↔ (a ≤ x < b)%Z.
Proof.
  unfold TileCache.range. rewrite list_elem_of_fmap. split.
  - intros (k & -> & Hk%elem_of_seq). lia.
  - intros Hx. exists (Z.to_nat (x - a)). split; [lia|].
    apply elem_of_seq. lia.
Qed.

Lemma range_NoDup a b : NoDup (TileCache.range a b).
Proof.
  unfold TileCache.range. apply NoDup_fmap_2; [|apply NoDup_seq].
  intros k1 k2 ?. lia.
Qed.

Lemma min4_max4_between a b c d x :
  (TileCache.min4 a b c d ≤ x ≤ TileCache.max4 a b c d)%Z
  ↔ ∃ lo hi, lo ∈ [a; b; c; d] ∧ hi ∈ [a; b; c; d] ∧ (lo ≤ x ≤ hi)%Z.
Proof.
  unfold TileCache.min4, TileCache.max4. split.
  - intros Hx.
    exists (Z.min (Z.min (Z.min a b) c) d), (Z.max (Z.max (Z.max a b) c) d).
    split; [|split; [|done]].
    + rewrite !elem_of_cons. lia.
    + rewrite !elem_of_cons. lia.
  - intros (lo & hi & Hlo & Hhi & Hx).
    rewrite !elem_of_cons, elem_of_nil in Hlo, Hhi. lia.
Qed.

Section GridProps.

Variable float : Type.
Variable lat_lng_to_tile : float → float → Z → TileCache.Tile.
Variable get_cache_bounds : TileCache.Bounds float.

Lemma tiles_at_zoom_elem x y z zoom :
  (x, y, z) ∈ TileCache.tiles_at_zoom float lat_lng_to_tile get_cache_bounds zoom
  ↔ z = zoom
    ∧ (∃ lo hi,
         lo ∈ TileCache.corners float lat_lng_to_tile get_cache_bounds zoom
         ∧ hi ∈ TileCache.corners float lat_lng_to_tile get_cache_bounds zoom
         ∧ (lo.1.1 ≤ x ≤ hi.1.1)%Z)
    ∧ (∃ lo hi,
         lo ∈ TileCache.corners float lat_lng_to_tile get_cache_bounds zoom
         ∧ hi ∈ TileCache.corners float lat_lng_to_tile get_cache_bounds zoom
         ∧ (lo.1.2 ≤ y ≤ hi.1.2)%Z).
Proof.
  unfold TileCache.tiles_at_zoom, TileCache.corners. cbv zeta.
  set (nw := lat_lng_to_tile _ _ zoom).
  set (ne := lat_lng_to_tile _ _ zoom).
  set (sw := lat_lng_to_tile _ _ zoom).
  set (se := lat_lng_to_tile _ _ zoom).
  rewrite list_elem_of_bind.
  setoid_rewrite list_elem_of_bind. setoid_rewrite list_elem_of_singleton.
  setoid_rewrite range_elem.
  split.
  - intros (x' & (y' & [= -> -> ->] & Hy) & Hx). split; [done|].
    split.
    + assert (TileCache.min4 nw.1.1 ne.1.1 sw.1.1 se.1.1 ≤ x'
              ≤ TileCache.max4 nw.1.1 ne.1.1 sw.1.1 se.1.1)%Z as Hb by lia.
      apply min4_max4_between in Hb as (lo & hi & Hlo & Hhi & Hb).
      rewrite !elem_of_cons, elem_of_nil in Hlo, Hhi.
      destruct Hlo as [->|[->|[->|[->|[]]]]];
        destruct Hhi as [->|[->|[->|[->|[]]]]];
        eexists _, _; (split; [|split; [|exact Hb]]);
        rewrite !elem_of_cons; eauto 10.
    + assert (TileCache.min4 nw.1.2 ne.1.2 sw.1.2 se.1.2 ≤ y'
              ≤ TileCache.max4 nw.1.2 ne.1.2 sw.1.2 se.1.2)%Z as Hb by lia.
      apply min4_max4_between in Hb as (lo & hi & Hlo & Hhi & Hb).
      rewrite !elem_of_cons, elem_of_nil in Hlo, Hhi.
      destruct Hlo as [->|[->|[->|[->|[]]]]];
        destruct Hhi as [->|[->|[->|[->|[]]]]];
        eexists _, _; (split; [|split; [|exact Hb]]);
        rewrite !elem_of_cons; eauto 10.
  - intros (-> & (xlo & xhi & Hxlo & Hxhi & Hx) & (ylo & yhi & Hylo & Hyhi & Hy)).
    exists x. split; [exists y; split; [done|]|].
    + assert (TileCache.min4 nw.1.2 ne.1.2 sw.1.2 se.1.2 ≤ y
              ≤ TileCache.max4 nw.1.2 ne.1.2 sw.1.2 se.1.2)%Z; [|lia].
      apply min4_max4_between. exists ylo.1.2, yhi.1.2.
      rewrite !elem_of_cons, elem_of_nil in Hylo, Hyhi.
      split; [|split; [|done]]; rewrite !elem_of_cons;
        [destruct Hylo as [->|[->|[->|[->|[]]]]]
        |destruct Hyhi as [->|[->|[->|[->|[]]]]]]; eauto 10.
    + assert (TileCache.min4 nw.1.1 ne.1.1 sw.1.1 se.1.1 ≤ x
              ≤ TileCache.max4 nw.1.1 ne.1.1 sw.1.1 se.1.1)%Z; [|lia].
      apply min4_max4_between. exists xlo.1.1, xhi.1.1.
      rewrite !elem_of_cons, elem_of_nil in Hxlo, Hxhi.
      split; [|split; [|done]]; rewrite !elem_of_cons;
        [destruct Hxlo as [->|[->|[->|[->|[]]]]]
        |destruct Hxhi as [->|[->|[->|[->|[]]]]]]; eauto 10.
Qed.

Lemma tiles_at_zoom_NoDup zoom :
  NoDup (TileCache.tiles_at_zoom float lat_lng_to_tile get_cache_bounds zoom).
Proof.
  unfold TileCache.tiles_at_zoom. cbv zeta.
  apply NoDup_bind; [| |apply range_NoDup].
  - intros x1 x2 t _ _ (y1 & ->%list_elem_of_singleton & _)%list_elem_of_bind
      (y2 & [= -> _]%list_elem_of_singleton & _)%list_elem_of_bind. done.
  - intros x _. apply NoDup_bind; [| |apply range_NoDup].
    + intros y1 y2 t _ _ ->%list_elem_of_singleton
        [= ->]%list_elem_of_singleton. done.
    + intros y _. apply NoDup_singleton.
Qed.

(** X23.  [generate_tile_coordinates] lists no tile twice, and lists
    exactly the tiles of the seven zoom levels whose column lies
    between the columns of two corner tiles of the level and whose row
    lies between the rows of two corner tiles: the full rectangle
    spanned by the four corners, the corners among them. *)
Theorem tile_grid_is_the_corner_rectangle :
  NoDup (TileCache.generate_tile_coordinates float lat_lng_to_tile
           get_cache_bounds)
  ∧ ∀ x y zoom,
      (x, y, zoom) ∈ TileCache.generate_tile_coordinates float lat_lng_to_tile
                       get_cache_bounds
      ↔ zoom ∈ TileCache.CACHE_ZOOM_LEVELS
        ∧ (∃ lo hi,
             lo ∈ TileCache.corners float lat_lng_to_tile get_cache_bounds zoom
             ∧ hi ∈ TileCache.corners float lat_lng_to_tile get_cache_bounds zoom
             ∧ (lo.1.1 ≤ x ≤ hi.1.1)%Z)
        ∧ (∃ lo hi,
             lo ∈ TileCache.corners float lat_lng_to_tile get_cache_bounds zoom
             ∧ hi ∈ TileCache.corners float lat_lng_to_tile get_cache_bounds zoom
             ∧ (lo.1.2 ≤ y ≤ hi.1.2)%Z).
Proof.
  unfold TileCache.generate_tile_coordinates. split.
  - apply NoDup_bind.
    + intros z1 z2 [[x y] z] _ _ [-> _]%tiles_at_zoom_elem
        [-> _]%tiles_at_zoom_elem. done.
    + intros zoom _. apply tiles_at_zoom_NoDup.
    + unfold TileCache.CACHE_ZOOM_LEVELS.
      repeat (apply NoDup_cons_2;
              [intros Hin; rewrite ?elem_of_cons, elem_of_nil in Hin; lia|]).
      apply NoDup_nil_2.
  - intros x y zoom. rewrite list_elem_of_bind. split.
    + intros (z & [-> Hbox]%tiles_at_zoom_elem & Hz). done.
    + intros (Hz & Hbox). exists zoom. split; [|done].
      by apply tiles_at_zoom_elem.
Qed.

End GridProps.

(** ** The alerts handler *)

Lemma items_get_set_ne d k k' v :
  k ≠ k' → items_get (PyOps.items_set d k v) k' = items_get d k'.
Proof.
  intros Hk. induction d as [|[k0 v0] d IH]; simpl.
  - by rewrite (proj2 (String.eqb_neq k k')).
  - destruct (String.eqb_spec k0 k) as [->|Hk0]; simpl.
    + by rewrite !(proj2 (String.eqb_neq k k')).
    + by rewrite IH.
Qed.

Lemma route_id_str_relabel route :
  Api.route_id_str (Routes.relabel route) = Api.route_id_str route.
Proof.
  destruct route as [| | | | |d]; try done.
  unfold Routes.relabel. cbv zeta.
  set (d' := if PyOps.has_key d "relationships" then d
             else PyOps.items_set d "relationships" (PyDict [])).
  assert (items_get d' "id" = items_get d "id") as Hid.
  { subst d'. case_match; [done|]. by apply items_get_set_ne. }
  clearbody d'.
  destruct (items_get d' "relationships") as [[| | | | |rel]|];
    cbn [Api.route_id_str]; rewrite ?items_get_set_ne by done;
    by rewrite Hid.
Qed.

Lemma truthy_ids_spec (routes : list PyVal) :
  Forall (λ r, is_Some (Api.route_id_str r)) routes →
  Api.truthy_ids routes = inr (PyStr <$> omap Api.route_id_str routes).
Proof.
  induction 1 as [|r routes [s Hr] _ IH]; [done|].
  cbn [Api.truthy_ids omap list_omap]. rewrite IH, Hr.
  unfold Api.route_id_str in Hr. destruct r as [| | | | |d]; try done.
  cbn [PyOps.py_get_default].
  destruct (items_get d "id") as [[| | |s'| |]|]; try done. simpl.
  destruct (String.eqb s' ""); [done|]. by injection Hr as ->.
Qed.

Lemma as_strings_strs (strs : list string) :
  Api.as_strings (PyStr <$> strs) = Some strs.
Proof.
  unfold Api.as_strings. induction strs as [|s strs IH]; [done|].
  rewrite fmap_cons. cbn [mapM]. rewrite IH. done.
Qed.

Lemma omap_route_id_str_relabel (routes : list PyVal) :
  omap Api.route_id_str (Routes.relabel <$> routes)
  = omap Api.route_id_str routes.
Proof.
  induction routes as [|r routes IH]; [done|].
  rewrite fmap_cons. cbn [omap list_omap].
  by rewrite route_id_str_relabel, IH.
Qed.

(** X24.  [GET /alerts/{line_id}] asks for the alerts of exactly the
    routes [get_routes_for_line] selects: the routes naming the line
    and, for line-Red, the Mattapan routes after them.  When no route
    is selected it answers with an empty list without an alerts
    request; otherwise the request names the selected routes' ids,
    comma-separated in that order, and the answer holds the alerts
    sorted, or has status 500 when the request fails. *)
Theorem alerts_handler_result routes_endpoint alerts_endpoint
    all_routes included_lines line_id w :
  routes_endpoint = inr (all_routes, included_lines) →
  forallb Routes.well_formed all_routes = true →
  Forall (λ r, is_Some (Api.route_id_str r))
    (Api.routes_of_line line_id all_routes) →
  Api.get_alerts_for_line routes_endpoint alerts_endpoint line_id w
  = (match Api.routes_of_line line_id all_routes with
     | [] => Api.Ok []
     | _ =>
         match alerts_endpoint
                 (String.concat ","
                    (omap Api.route_id_str
                       (Api.routes_of_line line_id all_routes))) with
         | inl _ => Api.HttpError 500
         | inr alerts => Api.Ok (Alerts.sort_by_key_desc alerts)
         end
     end, w).
Proof.
  intros Hup Hwf Hids. unfold Api.get_alerts_for_line.
  destruct (routes_for_line_result routes_endpoint all_routes included_lines
              line_id w Hup Hwf) as (data & -> & Hdata & _).
  cbn [PyOps.py_get_default items_get String.eqb Ascii.eqb Bool.eqb
       from_option Datatypes.id].
  assert (omap Api.route_id_str data
          = omap Api.route_id_str (Api.routes_of_line line_id all_routes))
    as Homap.
  { rewrite Hdata. unfold Api.routes_of_line. rewrite !omap_app. f_equal.
    destruct (String.eqb line_id "line-Red"); [|done].
    apply omap_route_id_str_relabel. }
  assert (Forall (λ r, is_Some (Api.route_id_str r)) data) as Hdata_ids.
  { rewrite Hdata. unfold Api.routes_of_line in Hids.
    apply Forall_app in Hids as [H1 H2]. apply Forall_app. split; [done|].
    destruct (String.eqb line_id "line-Red"); [|done].
    apply Forall_fmap. eapply Forall_impl; [exact H2|].
    intros r. simpl. by rewrite route_id_str_relabel. }
  assert (length data = length (Api.routes_of_line line_id all_routes)) as Hlen.
  { rewrite Hdata. unfold Api.routes_of_line. rewrite !length_app.
    destruct (String.eqb line_id "line-Red"); by rewrite ?length_fmap. }
  destruct (Api.routes_of_line line_id all_routes) as [|r0 sel] eqn:Hsel.
  { destruct data; [done|discriminate]. }
  destruct data as [|d0 data']; [discriminate|].
  cbn [Api.py_truthy truthy negb].
  rewrite truthy_ids_spec by done. rewrite as_strings_strs, Homap.
  unfold Alerts.get_alerts_for_line.
  by destruct (alerts_endpoint _).
Qed.

Lemma alerts_handler_result_witness :
  Api.get_alerts_for_line
    (inr (UpstreamExamples.routes_data, UpstreamExamples.included_data))
    (λ ids, if String.eqb ids "Red,Mattapan"
            then inr UpstreamExamples.alerts_data else inl HTTPStatusError)
    "line-Red" Examples.empty_world
  = (Api.Ok [Alerts.mkAlert "a2" (Some 7%Z); Alerts.mkAlert "a4" (Some 7%Z);
             Alerts.mkAlert "a1" (Some 3%Z); Alerts.mkAlert "a3" None],
     Examples.empty_world).
Proof.
  rewrite (alerts_handler_result _ _ UpstreamExamples.routes_data
             UpstreamExamples.included_data).
  - vm_compute. reflexivity.
  - reflexivity.
  - reflexivity.
  - repeat (apply Forall_cons_2; [by eexists|]). apply Forall_nil_2.
Defined.
